(** * xbfwup: XBee firmware uploader (src/bin/xbfwup.c)

    A shallow embedding of the uploader's protocol engine.  The program is
    a sequence of system calls on two descriptors (the serial line and the
    firmware file) interleaved with a little arithmetic (block numbering,
    padding, CRC-16).  Every system call is recorded as an [event]; the
    answers of the operating system and of the device on the other end of
    the line come from an environment [Env] that sees the whole history.
    Loops that the C text does not bound ([wait_for_ok], the block loop
    with its 32-bit counter) take fuel and yield [Diverge] when it runs
    out. *)

From Stdlib Require Import Strings.String Strings.Byte.
From Stdlib Require Import ZArith List Lia Bool.
Import ListNotations.
Local Open Scope Z_scope.

(** ** Bytes and machine integers *)

Definition byte_to_Z (b : byte) : Z := Z.of_N (Byte.to_N b).

Definition Z_to_byte (z : Z) : byte :=
  match Byte.of_N (Z.to_N (z mod 256)) with
  | Some b => b
  | None => x00
  end.

(** Wrap-around of the unsigned C types used by the program (LP64). *)
Definition u8 (z : Z) : Z := z mod 2 ^ 8.
Definition u16 (z : Z) : Z := z mod 2 ^ 16.
Definition u32 (z : Z) : Z := z mod 2 ^ 32.
Definition u64 (z : Z) : Z := z mod 2 ^ 64.

(** Conversion to [int] (two's complement, as gcc does it). *)
Definition s32 (z : Z) : Z :=
  let w := z mod 2 ^ 32 in if w <? 2 ^ 31 then w else w - 2 ^ 32.

(** The value of a [char] holding byte [b], promoted to [int].  Whether
    plain [char] is signed depends on the platform. *)
Definition char_val (char_is_signed : bool) (b : byte) : Z :=
  let v := byte_to_Z b in
  if char_is_signed && (128 <=? v) then v - 256 else v.

(** ** Descriptors, terminal settings, events *)

(** [Xb] is [xbfd], the serial line; [Fw] is [fwfd], the firmware file. *)
Inductive fd : Type := Xb | Fw.

Definition fd_eqb (a b : fd) : bool :=
  match a, b with
  | Xb, Xb | Fw, Fw => true
  | _, _ => false
  end.

(** The fields of [struct termios] the program touches; [c_rest] stands
    for everything else and is never modified. *)
Record termios : Type := mkTermios {
  c_speed : Z;
  c_vmin : Z;
  c_vtime : Z;
  c_rest : Z
}.

Definition B9600 : Z := 9600.
Definition B115200 : Z := 115200.

Definition cfsetspeed (t : termios) (speed : Z) : termios :=
  mkTermios speed (c_vmin t) (c_vtime t) (c_rest t).
Definition set_vmin_vtime (t : termios) (vmin vtime : Z) : termios :=
  mkTermios (c_speed t) vmin vtime (c_rest t).

(** What [read] delivered: an error (-1) or the bytes stored. *)
Inductive read_result : Type :=
| RErr
| RData (data : list byte).

Definition read_ret (r : read_result) : Z :=
  match r with
  | RErr => -1
  | RData d => Z.of_nat (length d)
  end.

Inductive ioctl_request : Type := TIOCMSET | TIOCSBRK | TIOCCBRK.

(** An argument of a printf-like call; [AIndet] is an object read before
    it was ever assigned. *)
Inductive arg : Type :=
| AInt (z : Z)
| AStr (s : string)
| AIndet.

Inductive event : Type :=
| EOpen (path : string) (ok : bool)
| ERead (f : fd) (count : Z) (r : read_result)
| EWrite (f : fd) (data : list byte) (ret : Z)
| EPoll (f : fd) (timeout : Z) (ret : Z)
| EFstat (f : fd) (size : option Z)
| EMalloc (size : Z) (ok : bool)
| ETcgetattr (f : fd) (r : option termios)
| ETcsetattr (f : fd) (tio : termios) (ok : bool)
| EIoctl (f : fd) (request : ioctl_request) (a : option Z)
| ESleep (seconds : Z)
| EUsleep (usec : Z)
| EPrintf (fmt : string) (args : list arg)
| EFflush
| EWarn (fmt : string) (args : list arg)
| EWarnx (fmt : string) (args : list arg)
| EErr (fmt : string) (args : list arg)
| EErrx (fmt : string) (args : list arg)
| EClose (f : fd).

Definition trace : Type := list event.

(** The environment: the operating system, the file and the device.  Each
    answer may depend on everything that happened so far. *)
Record Env : Type := mkEnv {
  env_open : trace -> string -> bool;
  env_read : trace -> fd -> Z -> read_result;
  env_write : trace -> fd -> list byte -> Z;
  env_poll : trace -> fd -> Z -> Z;
  env_fstat : trace -> fd -> option Z;
  env_malloc : trace -> Z -> bool;
  env_tcgetattr : trace -> fd -> option termios;
  env_tcsetattr : trace -> fd -> termios -> bool
}.

(** ** The monad of the embedding *)

Inductive result (A : Type) : Type :=
| Ret (a : A)
| Exited (status : Z)
| Diverge
| Undefined.

Arguments Ret {A} a.
Arguments Exited {A} status.
Arguments Diverge {A}.
Arguments Undefined {A}.

(** A computation reads the history and yields the events it adds. *)
Definition M (A : Type) : Type := trace -> list event * result A.

Definition ret {A} (a : A) : M A := fun _ => ([], Ret a).

Definition bind {A B} (m : M A) (f : A -> M B) : M B :=
  fun t =>
    match m t with
    | (e1, Ret a) => let (e2, r) := f a (t ++ e1) in (e1 ++ e2, r)
    | (e1, Exited s) => (e1, Exited s)
    | (e1, Diverge) => (e1, Diverge)
    | (e1, Undefined) => (e1, Undefined)
    end.

Definition emit (e : event) : M unit := fun _ => ([e], Ret tt).
Definition exit {A} (status : Z) : M A := fun _ => ([], Exited status).
Definition diverge {A} : M A := fun _ => ([], Diverge).
Definition undefined {A} : M A := fun _ => ([], Undefined).

Notation "x <- m ;; k" := (bind m (fun x => k))
  (at level 61, m at next level, right associativity).
Notation "m ;;; k" := (bind m (fun _ => k))
  (at level 61, right associativity).

Definition EXIT_SUCCESS : Z := 0.
Definition EXIT_FAILURE : Z := 1.

(** [err] and [errx] print a diagnostic and leave the process. *)
Definition err {A} (status : Z) (fmt : string) (args : list arg) : M A :=
  emit (EErr fmt args) ;;; exit status.
Definition errx {A} (status : Z) (fmt : string) (args : list arg) : M A :=
  emit (EErrx fmt args) ;;; exit status.

(** ** Wire bytes *)

(** The bytes the serial line accepted, in order. *)
Definition wire_of (e : event) : list byte :=
  match e with
  | EWrite Xb data n => firstn (Z.to_nat n) data
  | _ => []
  end.

Definition wire (evs : list event) : list byte := flat_map wire_of evs.

Definition on_fd (f : fd) (e : event) : bool :=
  match e with
  | ERead g _ _ | EWrite g _ _ | EPoll g _ _ | EFstat g _
  | ETcgetattr g _ | ETcsetattr g _ _ | EIoctl g _ _ | EClose g => fd_eqb f g
  | _ => false
  end.

Definition is_write (f : fd) (e : event) : bool :=
  match e with
  | EWrite g _ _ => fd_eqb f g
  | _ => false
  end.

Section Program.

(** Platform: signedness of plain [char], byte order of the host. *)
Variable char_is_signed : bool.
Variable little_endian : bool.
Variable env : Env.

(** ** System calls *)

(** [read] stores at most [count] bytes. *)
Definition read_at (t : trace) (f : fd) (count : Z) : read_result :=
  match env_read env t f count with
  | RErr => RErr
  | RData d => RData (firstn (Z.to_nat count) d)
  end.

Definition sys_read (f : fd) (count : Z) : M read_result :=
  fun t => let r := read_at t f count in ([ERead f count r], Ret r).

(** [write] accepts at most the bytes offered. *)
Definition write_at (t : trace) (f : fd) (data : list byte) : Z :=
  Z.min (env_write env t f data) (Z.of_nat (length data)).

Definition sys_write (f : fd) (data : list byte) : M Z :=
  fun t => let n := write_at t f data in ([EWrite f data n], Ret n).

Definition sys_poll (f : fd) (timeout : Z) : M Z :=
  fun t => let n := env_poll env t f timeout in ([EPoll f timeout n], Ret n).

Definition sys_fstat (f : fd) : M (option Z) :=
  fun t => let r := env_fstat env t f in ([EFstat f r], Ret r).

Definition sys_malloc (size : Z) : M bool :=
  fun t => let r := env_malloc env t size in ([EMalloc size r], Ret r).

Definition sys_open (path : string) : M bool :=
  fun t => let r := env_open env t path in ([EOpen path r], Ret r).

Definition sys_tcgetattr (f : fd) : M (option termios) :=
  fun t => let r := env_tcgetattr env t f in ([ETcgetattr f r], Ret r).

Definition sys_tcsetattr (f : fd) (tio : termios) : M bool :=
  fun t => let r := env_tcsetattr env t f tio in ([ETcsetattr f tio r], Ret r).

(** ** wait_for_ok (lines 36-47) *)

(** [read(fd, buf, 1) > 0 && *buf == 'O'] *)
Definition seen_O (r : read_result) : bool :=
  match r with
  | RData (b :: _) => char_val char_is_signed b =? 79
  | _ => false
  end.

Fixpoint wait_for_ok_loop (fuel : nat) (f : fd) : M unit :=
  match fuel with
  | O => diverge
  | S fuel' =>
      r <- sys_read f 1 ;;
      if seen_O r then ret tt
      else emit (EUsleep 100000) ;;; wait_for_ok_loop fuel' f
  end.

Definition wait_for_ok (fuel : nat) (f : fd) : M unit :=
  wait_for_ok_loop fuel f ;;;
  sys_read f 1 ;;;
  sys_read f 1 ;;;
  ret tt.

(** ** xb_read (lines 49-70) *)

(** [buf] holds the [pos] bytes stored so far.  Every round stores at
    least one byte, so [count] rounds (one more when [count] is 0) always
    suffice. *)
Fixpoint xb_read_loop (n : nat) (f : fd) (count : Z) (buf : list byte)
  : M (Z * list byte) :=
  match n with
  | O => diverge
  | S n' =>
      let pos := Z.of_nat (length buf) in
      r <- sys_read f (count - pos) ;;
      let ret_ := read_ret r in
      if ret_ <=? 0 then ret (ret_, buf)
      else
        let buf' := buf ++ match r with RData d => d | RErr => [] end in
        let pos' := pos + ret_ in
        p <- sys_poll f 100 ;;
        if (0 <? p) && (pos' <? count) then xb_read_loop n' f count buf'
        else ret (pos', buf')
  end.

Definition xb_read (f : fd) (count : Z) : M (Z * list byte) :=
  xb_read_loop (S (Z.to_nat count)) f count [].

(** ** xb_write (lines 72-88) *)

Fixpoint xb_write_loop (n : nat) (f : fd) (buf : list byte) : M Z :=
  if 0 <? Z.of_nat (length buf) then
    match n with
    | O => diverge
    | S n' =>
        ret_ <- sys_write f buf ;;
        if ret_ <=? 0 then ret (-1)
        else xb_write_loop n' f (skipn (Z.to_nat ret_) buf)
    end
  else ret 0.

Definition xb_write (f : fd) (buf : list byte) : M Z :=
  xb_write_loop (length buf) f buf.

(** ** Buffers

    A C buffer is a list of cells; [None] is a cell that was never
    assigned.  A store outside the buffer is undefined behaviour; a
    [write] of cells that were never assigned sends indeterminate bytes.
    Both end a run with [Undefined]. *)

Definition cells : Type := list (option byte).

Definition store (buf : cells) (i : Z) (b : byte) : option cells :=
  if (0 <=? i) && (i <? Z.of_nat (length buf))
  then Some (firstn (Z.to_nat i) buf ++ Some b :: skipn (Z.to_nat (i + 1)) buf)
  else None.

Definition store_bytes (buf : cells) (off : Z) (data : list byte)
  : option cells :=
  if (0 <=? off) && (off + Z.of_nat (length data) <=? Z.of_nat (length buf))
  then Some (firstn (Z.to_nat off) buf ++ map Some data
             ++ skipn (Z.to_nat off + length data) buf)
  else None.

Definition memset (buf : cells) (off : Z) (b : byte) (n : Z) : option cells :=
  if 0 <=? n then store_bytes buf off (repeat b (Z.to_nat n)) else None.

Fixpoint all_assigned (l : cells) : option (list byte) :=
  match l with
  | [] => Some []
  | None :: _ => None
  | Some b :: l' =>
      match all_assigned l' with
      | Some bs => Some (b :: bs)
      | None => None
      end
  end.

(** The [n] bytes at [buf + off]. *)
Definition load_bytes (buf : cells) (off n : Z) : option (list byte) :=
  if (0 <=? off) && (0 <=? n) && (off + n <=? Z.of_nat (length buf))
  then all_assigned (firstn (Z.to_nat n) (skipn (Z.to_nat off) buf))
  else None.

(** ** xb_send_command (lines 90-128) *)

(** [vsnprintf(buf + off, size, format, ap)] where the complete output
    would be [s]: at most [size - 1] characters are stored, then a NUL;
    the length of the complete output is returned. *)
Definition vsnprintf (buf : cells) (off size : Z) (s : list byte)
  : option cells * Z :=
  let kept := firstn (Z.to_nat (size - 1)) s in
  (store_bytes buf off (kept ++ [x00]), Z.of_nat (length s)).

Definition sizeof_buf : Z := 256.

(** [cmd] is the two-letter code; [format] the format string and
    [formatted] what formatting it with the variadic arguments yields
    ([None]: an output error, where [vsnprintf] returns a negative
    value). *)
Definition xb_send_command (fuel : nat) (f : fd) (cmd : byte * byte)
    (format : string) (formatted : option (list byte)) : M Z :=
  let buf : cells :=
    [Some "A"%byte; Some "T"%byte; Some (fst cmd); Some (snd cmd)]
      ++ repeat None 252 in
  let off := 4 in
  let finish (buf : cells) (off : Z) : M Z :=
    match store buf off x0d with
    | None => undefined
    | Some buf =>
        let off := off + 1 in
        match load_bytes buf 0 off with
        | None => undefined
        | Some bytes =>
            ret_ <- xb_write f bytes ;;
            wait_for_ok fuel f ;;;
            ret ret_
        end
    end in
  match format with
  | EmptyString => finish buf off
  | _ =>
      match formatted with
      | None => ret (-1)
      | Some s =>
          match vsnprintf buf off (sizeof_buf - off) s with
          | (None, _) => undefined
          | (Some buf, ret_) =>
              if (ret_ <? 0) || (sizeof_buf <=? ret_) then ret (-1)
              else finish buf (off + ret_)
          end
      end
  end.

(** ** xmodem_crc (lines 130-152) *)

(** One round of the inner loop on the [uint16_t] remainder. *)
Definition crc_shift (rem : Z) : Z :=
  if Z.land rem 0x8000 =? 0
  then u16 (Z.shiftl rem 1)
  else u16 (Z.lxor (Z.shiftl rem 1) 0x1021).

(** One round of the outer loop: [rem ^= data[i] << 8], computed on
    [int] and converted back to [uint16_t], then eight shifts. *)
Definition crc_update (rem : Z) (b : byte) : Z :=
  Nat.iter 8 crc_shift
    (u16 (Z.lxor rem (Z.shiftl (char_val char_is_signed b) 8))).

Definition xmodem_crc (data : list byte) : Z :=
  fold_left crc_update (firstn 128 data) 0.

(** ** xb_firmware_update (lines 154-270) *)

Definition bswap16 (x : Z) : Z := (x mod 256) * 256 + (x / 256) mod 256.

Definition htobe16 (x : Z) : Z :=
  if little_endian then bswap16 x else x.

(** The two bytes of a [uint16_t] object, in address order. *)
Definition u16_bytes (x : Z) : list byte :=
  if little_endian
  then [Z_to_byte (x mod 256); Z_to_byte (x / 256)]
  else [Z_to_byte (x / 256); Z_to_byte (x mod 256)].

Definition printf (fmt : string) (args : list arg) : M unit :=
  emit (EPrintf fmt args).
Definition warn (fmt : string) (args : list arg) : M unit :=
  emit (EWarn fmt args).
Definition warnx (fmt : string) (args : list arg) : M unit :=
  emit (EWarnx fmt args).

(** Lines 203-212: the loop that reads the file into [fwbuf].  A round
    that stores nothing ends it, so [len + 1] rounds always suffice.
    [None] is the [return -1] of line 208. *)
Fixpoint read_firmware (n : nat) (fwbuf : cells) (len off : Z)
  : M (option cells) :=
  match n with
  | O => diverge
  | S n' =>
      r <- sys_read Fw (len - off) ;;
      match r with
      | RErr => ret None
      | RData d =>
          match store_bytes fwbuf off d with
          | None => undefined
          | Some fwbuf' =>
              let off' := off + Z.of_nat (length d) in
              if Z.of_nat (length d) =? 0 then ret (Some fwbuf')
              else read_firmware n' fwbuf' len off'
          end
      end
  end.

Definition SOH : byte := x01.
Definition ACK : byte := x06.
Definition EOT : byte := x04.

Definition header (block : Z) : list byte :=
  [SOH; Z_to_byte (u8 block); Z_to_byte (u8 (255 - block))].

Definition arg_of_reply (reply : option byte) : arg :=
  match reply with
  | Some b => AInt (char_val char_is_signed b)
  | None => AIndet
  end.

(** [read(xbfd, reply, 1) <= 0 || *reply != '\x06'] *)
Definition not_acked (r : read_result) : bool :=
  match r with
  | RData (b :: _) => negb (char_val char_is_signed b =? 6)
  | _ => true
  end.

(** Lines 219-252: one round of the block loop.  [block] is the
    [uint8_t] counter, [i] the [unsigned int] index, [reply] the content
    of [reply[0]].  [inl] is a [return] out of the function, [inr] the
    content of [reply[0]] for the next round. *)
Definition send_block (fwbuf : cells) (block i : Z) (reply : option byte)
  : M (Z + option byte) :=
  w <- xb_write Xb (header block) ;;
  if negb (w =? 0) then
    warn "failed to write XMODEM header, block %i" [AInt (s32 i)] ;;;
    ret (inl (-1))
  else
    match load_bytes fwbuf (u32 (i * 128)) 128 with
    | None => undefined
    | Some data =>
        w <- xb_write Xb data ;;
        if negb (w =? 0) then
          warn "failed to write XMODEM data, block %i" [AInt (s32 i)] ;;;
          ret (inl (-1))
        else
          let crc := xmodem_crc data in
          let crc := htobe16 crc in
          w <- xb_write Xb (u16_bytes crc) ;;
          if negb (w =? 0) then
            warn "failed to write XMODEM CRC, block %i" [AInt (s32 i)] ;;;
            ret (inl (-1))
          else
            r <- sys_read Xb 1 ;;
            let reply' := match r with
                          | RData (b :: _) => Some b
                          | _ => reply
                          end in
            if not_acked r then
              warnx "failed to transfer block %i: %02x"
                [AInt (s32 i); arg_of_reply reply'] ;;;
              ret (inl (-1))
            else
              printf "." [] ;;;
              (if u32 (i + 1) mod 50 =? 0
               then printf " %4i\n" [AInt (s32 (u32 (i + 1)))]
               else ret tt) ;;;
              emit EFflush ;;;
              ret (inr reply')
    end.

(** Lines 218-253: the block loop, [for(block = 1, i = 0; i < len / 128;
    block++, i++)]. *)
Fixpoint send_blocks (fuel : nat) (fwbuf : cells) (len : Z)
    (block i : Z) (reply : option byte) : M Z :=
  if i <? len / 128 then
    match fuel with
    | O => diverge
    | S fuel' =>
        b <- send_block fwbuf block i reply ;;
        match b with
        | inl code => ret code
        | inr reply' =>
            send_blocks fuel' fwbuf len (u8 (block + 1)) (u32 (i + 1)) reply'
        end
    end
  else ret 0.

(** Lines 165-179: menu selection and go-ahead. *)
Definition request_transfer : M Z :=
  w <- xb_write Xb ["1"%byte] ;;
  if negb (w =? 0) then
    warnx "failed to enter programming mode" [] ;;; ret (-1)
  else
    rb <- xb_read Xb 128 ;;
    let (ret_, buf) := rb in
    if ret_ <=? 0 then
      warnx "failed to read programming go-ahead" [] ;;; ret (-1)
    else if negb (char_val char_is_signed
                    (nth (Z.to_nat (ret_ - 1)) buf x00) =? 67) then
      warnx "unknown transfer type" [] ;;; ret (-1)
    else ret 0.

(** The padded length of lines 192-193, on [size_t]. *)
Definition padded_len (st_size : Z) : Z :=
  let len := u64 st_size in
  u64 (len + (if negb (len mod 128 =? 0) then 128 - len mod 128 else 0)).

(** Lines 181-215: the image in memory.  [inl] is an early [return]. *)
Definition load_firmware : M (Z + (cells * Z)) :=
  st <- sys_fstat Fw ;;
  match st with
  | None => warn "failed to stat firmware file" [] ;;; ret (inl (-1))
  | Some st_size =>
      if st_size =? 0 then
        warnx "empty firmware file!" [] ;;; ret (inl (-1))
      else
        let len := padded_len st_size in
        ok <- sys_malloc len ;;
        if negb ok then
          warn "failed to allocate memory" [] ;;; ret (inl (-1))
        else
          match memset (repeat None (Z.to_nat len)) st_size xff
                  (u64 (len - st_size)) with
          | None => undefined
          | Some fwbuf =>
              rd <- read_firmware (S (Z.to_nat len)) fwbuf len 0 ;;
              match rd with
              | None => ret (inl (-1))
              | Some fwbuf =>
                  printf "Read %i byte firmware file (%i blocks).\n"
                    [AInt (s32 st_size); AInt (Z.quot (s32 len) 128)] ;;;
                  ret (inr (fwbuf, len))
              end
          end
  end.

(** Lines 255-269: end of transmission. *)
Definition end_of_transmission : M Z :=
  printf "\n" [] ;;;
  w <- xb_write Xb [EOT] ;;
  if negb (w =? 0) then
    warn "failed to write XMODEM EOT" [] ;;; ret (-1)
  else
    rb <- xb_read Xb 128 ;;
    let (ret_, buf) := rb in
    if (ret_ <=? 0) || negb (char_val char_is_signed (nth 0 buf x00) =? 6)
    then warnx "failed to read programming confirmation" [] ;;; ret (-1)
    else ret 0.

Definition xb_firmware_update (fuel : nat) : M Z :=
  g <- request_transfer ;;
  if negb (g =? 0) then ret g
  else
    fw <- load_firmware ;;
    match fw with
    | inl e => ret e
    | inr (fwbuf, len) =>
        s <- send_blocks fuel fwbuf len 1 0 None ;;
        if negb (s =? 0) then ret s
        else end_of_transmission
    end.

(** ** main (lines 272-375) *)

(** [TIOCM_DTR | TIOCM_CTS], with the values of the Linux headers. *)
Definition TIOCM_DTR : Z := 0x002.
Definition TIOCM_CTS : Z := 0x020.

(** Lines 335-340: the prompt probe.  [n] rounds remain, [i] is the loop
    counter; the counter's final value is returned. *)
Fixpoint probe_loop (n : nat) (i : Z) : M Z :=
  match n with
  | O => ret i
  | S n' =>
      xb_write Xb [x0d] ;;;
      rb <- xb_read Xb 1024 ;;
      if 0 <? fst rb then ret i
      else probe_loop n' (i + 1)
  end.

(** Lines 279-333: up to the switch to 115200 baud. *)
Definition enter_bootloader (fuel : nat) (argv : list string) : M termios :=
  if Z.of_nat (length argv) <? 2 then
    errx EXIT_FAILURE "missing parameter: %s <file.ebl>"
      [AStr (nth 0 argv EmptyString)]
  else
    ok <- sys_open (nth 1 argv EmptyString) ;;
    if negb ok then
      err EXIT_FAILURE "failed to open firmware file: %s"
        [AStr (nth 1 argv EmptyString)]
    else
      ok <- sys_open "/dev/ttyUSB0" ;;
      if negb ok then err EXIT_FAILURE "failed to open serial console" []
      else
        tio <- sys_tcgetattr Xb ;;
        match tio with
        | None => err EXIT_FAILURE "failed to get terminal attributes" []
        | Some serial =>
            printf "Entering AT command mode...\n" [] ;;;
            emit (ESleep 1) ;;;
            sys_write Xb ["+"%byte; "+"%byte; "+"%byte] ;;;
            emit (ESleep 1) ;;;
            wait_for_ok fuel Xb ;;;
            printf "Entering bootloader...\n" [] ;;;
            xb_send_command fuel Xb ("F"%byte, "R"%byte) EmptyString None ;;;
            emit (EIoctl Xb TIOCMSET (Some (Z.lor TIOCM_DTR TIOCM_CTS))) ;;;
            emit (EIoctl Xb TIOCSBRK None) ;;;
            emit (ESleep 2) ;;;
            emit (EIoctl Xb TIOCCBRK None) ;;;
            emit (EIoctl Xb TIOCMSET (Some (Z.lor TIOCM_DTR TIOCM_CTS))) ;;;
            let serial := cfsetspeed serial B115200 in
            let serial := set_vmin_vtime serial 0 1 in
            ok <- sys_tcsetattr Xb serial ;;
            if negb ok then
              err EXIT_FAILURE "failed to set 115200bps, VMIN/VTIME" []
            else ret serial
        end.

(** Lines 358-374: after a successful update. *)
Definition run_firmware (serial : termios) : M Z :=
  printf "Programming complete, running uploaded firmware...\n" [] ;;;
  xb_write Xb ["2"%byte] ;;;
  let serial := cfsetspeed serial B9600 in
  ok <- sys_tcsetattr Xb serial ;;
  if negb ok then err EXIT_FAILURE "failed to set 9600bps" []
  else
    emit (EClose Fw) ;;;
    emit (EClose Xb) ;;;
    ret EXIT_SUCCESS.

(** Lines 344-351: back to blocking reads for the transfer. *)
Definition restore_read_policy (serial : termios) : M termios :=
  let serial := set_vmin_vtime serial 1 0 in
  ok <- sys_tcsetattr Xb serial ;;
  if negb ok then err EXIT_FAILURE "failed to reset VMIN/VTIME" []
  else
    printf "Beginning programming...\n" [] ;;;
    ret serial.

Definition main (fuel : nat) (argv : list string) : M Z :=
  serial <- enter_bootloader fuel argv ;;
  probe_loop 20 0 ;;;
  serial <- restore_read_policy serial ;;
  u <- xb_firmware_update fuel ;;
  if negb (u =? 0) then errx EXIT_FAILURE "failed to flash firmware!" []
  else run_firmware serial.

End Program.

(** * Reference definitions and test environments *)

(** ** CRC-16/XMODEM as the protocol defines it

    A 16-bit remainder starting at 0; each byte is XORed into the high
    eight bits, then eight times the remainder is shifted left by one bit
    and XORed with 0x1021 whenever the bit shifted out was set; no final
    XOR. *)

Definition crc16_shift_ref (rem : Z) : Z :=
  let shifted := (2 * rem) mod 65536 in
  if Z.testbit rem 15 then Z.lxor shifted 0x1021 else shifted.

Definition crc16_update_ref (rem : Z) (b : byte) : Z :=
  Nat.iter 8 crc16_shift_ref (Z.lxor rem (byte_to_Z b * 256)).

Definition crc16_xmodem_ref (data : list byte) : Z :=
  fold_left crc16_update_ref data 0.

(** ** Properties of event lists *)

(** Every event of every run of [m] satisfies [P]. *)
Definition emits {A} (P : event -> bool) (m : M A) : Prop :=
  forall t, forallb P (fst (m t)) = true.

Definition not_write (e : event) : bool := negb (is_write Xb e).

(** Neither the firmware file nor the allocator is involved. *)
Definition not_firmware (e : event) : bool :=
  match e with
  | EMalloc _ _ => false
  | _ => negb (on_fd Fw e)
  end.

(** ** Test environments *)

Definition termios0 : termios := mkTermios 9600 1 0 0.

(** A line on which every [read] fails. *)
Definition failing_line : Env :=
  mkEnv (fun _ _ => true)
        (fun _ _ _ => RErr)
        (fun _ _ d => Z.of_nat (length d))
        (fun _ _ _ => 0)
        (fun _ _ => Some 0)
        (fun _ _ => true)
        (fun _ _ => Some termios0)
        (fun _ _ _ => true).

(** A line on which every [read] finds the bytes of an OK reply. *)
Definition ok_line : Env :=
  mkEnv (fun _ _ => true)
        (fun _ _ _ => RData ["O"%byte; "K"%byte; x0d])
        (fun _ _ d => Z.of_nat (length d))
        (fun _ _ _ => 0)
        (fun _ _ => Some 0)
        (fun _ _ => true)
        (fun _ _ => Some termios0)
        (fun _ _ _ => true).

(** ** Blocks on the wire *)

(** A block as the protocol defines it: SOH, the block number, its
    complement, the payload, the CRC high byte first. *)
Definition frame_ref (number : Z) (payload : list byte) : list byte :=
  [x01; Z_to_byte number; Z_to_byte (255 - number)] ++ payload ++
  [Z_to_byte (crc16_xmodem_ref payload / 256);
   Z_to_byte (crc16_xmodem_ref payload mod 256)].

(** What one round of the block loop hands to [xb_write], in order. *)
Definition frame_of (cs le : bool) (fwbuf : cells) (block i : Z) : list byte :=
  header block ++
  match load_bytes fwbuf (u32 (i * 128)) 128 with
  | Some data => data ++ u16_bytes le (htobe16 le (xmodem_crc cs data))
  | None => []
  end.

(** The progress display after block [i]. *)
Definition progress (i : Z) : list event :=
  EPrintf "." [] ::
  (if u32 (i + 1) mod 50 =? 0
   then [EPrintf " %4i\n" [AInt (s32 (u32 (i + 1)))]]
   else []) ++ [EFflush].

Definition is_read (e : event) : bool :=
  match e with
  | ERead _ _ _ => true
  | _ => false
  end.

Definition not_read (e : event) : bool := negb (is_read e).

Definition reply_after (r : read_result) (reply : option byte) : option byte :=
  match r with
  | RData (b :: _) => Some b
  | _ => reply
  end.

Definition nak_warning (cs : bool) (i : Z) (reply : option byte) : event :=
  EWarnx "failed to transfer block %i: %02x"
    [AInt (s32 i); arg_of_reply cs reply].

(** The loop state in round [p] (counted from 0): the [uint8_t] block
    counter and the [unsigned int] index. *)
Definition block_no (p : nat) : Z := u8 (1 + Z.of_nat p).
Definition index_of (p : nat) : Z := u32 (Z.of_nat p).

Definition nth_frame (cs le : bool) (fwbuf : cells) (p : nat) : list byte :=
  frame_of cs le fwbuf (block_no p) (index_of p).

(** The frames of rounds [p], [p + 1], ..., [p + k - 1]. *)
Definition frames (cs le : bool) (fwbuf : cells) (p k : nat) : list byte :=
  flat_map (nth_frame cs le fwbuf) (seq p k).

Definition count_reads (evs : list event) : nat :=
  length (filter is_read evs).

(** ** A synthetic device

    [fw] is the content of the firmware file.  The device answers by the
    last thing written to the line: OK in command mode, its prompt from
    the [first_answer]-th carriage return on, [go_ahead] after the menu
    selection, one byte after each checksum (NAK for the block counted
    [nak_at], ACK otherwise) and ACK after EOT.  A reply arrives in one
    piece and every write is taken whole. *)

(** Number of bytes of the firmware file read so far. *)
Fixpoint fw_pos (t : trace) : nat :=
  match t with
  | [] => 0
  | ERead Fw _ (RData d) :: t' => length d + fw_pos t'
  | _ :: t' => fw_pos t'
  end.

Definition written (e : event) : option (list byte) :=
  match e with
  | EWrite Xb d _ => Some d
  | _ => None
  end.

Fixpoint last_written (t : trace) (acc : list byte) : list byte :=
  match t with
  | [] => acc
  | e :: t' => last_written t' match written e with
                               | Some d => d
                               | None => acc
                               end
  end.

Definition count_written (p : list byte -> bool) (t : trace) : nat :=
  length (filter (fun e => match written e with
                           | Some d => p d
                           | None => false
                           end) t).

Definition is_cr (d : list byte) : bool :=
  match d with
  | [b] => Byte.eqb b x0d
  | _ => false
  end.

Definition is_pair (d : list byte) : bool :=
  match d with
  | [_; _] => true
  | _ => false
  end.

Definition NAK : byte := x15.

Definition prompt : list byte :=
  ["B"%byte; "L"%byte; " "%byte; ">"%byte; " "%byte].

Definition device_reply (first_answer : nat) (go_ahead : list byte)
    (nak_at : option nat) (t : trace) : list byte :=
  match last_written t [] with
  | [b] =>
      if Byte.eqb b x0d then
        if (first_answer <=? count_written is_cr t)%nat then prompt else []
      else if Byte.eqb b "1"%byte then go_ahead
      else if Byte.eqb b EOT then [ACK; x0d; x0a]
      else []
  | [_; _] =>
      match nak_at with
      | Some k => if (count_written is_pair t =? k)%nat then [NAK] else [ACK]
      | None => [ACK]
      end
  | _ => ["O"%byte; "K"%byte; x0d]
  end.

Definition device (fw : list byte) (first_answer : nat)
    (go_ahead : list byte) (nak_at : option nat) : Env :=
  mkEnv (fun _ _ => true)
        (fun t f _ =>
           match f with
           | Fw => RData (skipn (fw_pos t) fw)
           | Xb => RData (device_reply first_answer go_ahead nak_at t)
           end)
        (fun _ _ d => Z.of_nat (length d))
        (fun _ _ _ => 0)
        (fun _ _ => Some (Z.of_nat (length fw)))
        (fun _ _ => true)
        (fun _ _ => Some termios0)
        (fun _ _ _ => true).

Definition begin_upload : list byte :=
  [x0d; x0a; "b"%byte; "e"%byte; "g"%byte; "i"%byte; "n"%byte; " "%byte;
   "u"%byte; "p"%byte; "l"%byte; "o"%byte; "a"%byte; "d"%byte; x0d; x0a;
   "C"%byte].

Definition argv0 : list string := ["xbfwup"%string; "firmware.ebl"%string].


Definition fw_ff (n : nat) : list byte := repeat xff n.
Definition fwbuf_ff (n : nat) : cells := map Some (fw_ff n).

(** Test runs. *)
Definition device_ok (fw : list byte) : Env := device fw 1 begin_upload None.
Definition device_nak2 : Env := device (fw_ff 300) 1 begin_upload (Some 2%nat).
Definition image_300 : cells := map Some (fw_ff 384).

(** The verdict on the go-ahead reply [buf] of [n] bytes: the diagnostic,
    if any, and the return code. *)
Definition go_ahead_verdict (n : Z) (buf : list byte) : list event * Z :=
  if n <=? 0 then
    ([EWarnx "failed to read programming go-ahead" []], -1)
  else if Byte.eqb (last buf x00) "C"%byte then ([], 0)
  else ([EWarnx "unknown transfer type" []], -1).

(** A device whose reply to the menu selection does not end in 'C'. *)
Definition device_no_crc : Env :=
  device (fw_ff 300) 1 [x0d; x0a; "N"%byte] None.

(** A device attached to an empty firmware file. *)
Definition device_empty : Env := device [] 1 begin_upload None.

(** ** The prompt probe *)

(** One attempt: a carriage return, then an idle-read. *)
Definition probe_attempt (env : Env) : M (Z * list byte) :=
  xb_write env Xb [x0d] ;;; xb_read env Xb 1024.

(** What the idle-read of an attempt made after [t] returns. *)
Definition probe_answer (env : Env) (t : trace) : Z :=
  match snd (probe_attempt env t) with
  | Ret (n, _) => n
  | _ => 0
  end.

(** The events of [k] attempts in a row, made after [t]. *)
Fixpoint probe_events (env : Env) (k : nat) (t : trace) : list event :=
  match k with
  | O => []
  | S k' =>
      let e := fst (probe_attempt env t) in
      e ++ probe_events env k' (t ++ e)
  end.

(** The device stays silent for [k] attempts after [t]. *)
Definition silent_for (env : Env) (k : nat) (t : trace) : Prop :=
  forall j, (j < k)%nat ->
    probe_answer env (t ++ probe_events env j t) <= 0.

(** The first non-empty reply comes on attempt [k], counted from 1. *)
Definition first_answer_on (env : Env) (k : nat) (t : trace) : Prop :=
  (1 <= k)%nat /\ silent_for env (k - 1) t /\
  0 < probe_answer env (t ++ probe_events env (k - 1) t).

(** The rest of [main] once the probing is over (lines 344-374). *)
Definition transfer_phase (cs le : bool) (env : Env) (fuel : nat)
    (serial : termios) : M Z :=
  serial <- restore_read_policy env serial ;;
  u <- xb_firmware_update cs le env fuel ;;
  if negb (u =? 0) then errx EXIT_FAILURE "failed to flash firmware!" []
  else run_firmware env serial.

(** A device whose bootloader prompt never comes. *)
Definition device_mute : Env := device (fw_ff 300) 100 begin_upload None.

(** A device that answers the 15th carriage return. *)
Definition device_15 : Env := device (fw_ff 300) 15 begin_upload None.

(** [tcsetattr] with a speed other than 115200 baud. *)
Definition is_speed_change (e : event) : bool :=
  match e with
  | ETcsetattr _ tio _ => negb (c_speed tio =? B115200)
  | _ => false
  end.

Definition keeps_speed (e : event) : bool := negb (is_speed_change e).

(** Every value [m] can return satisfies [Q]. *)
Definition returns {A} (Q : A -> Prop) (m : M A) : Prop :=
  forall t e a, m t = (e, Ret a) -> Q a.

(** Lines 279-351: everything before the transfer. *)
Definition prepare_link (cs : bool) (env : Env) (fuel : nat)
    (argv : list string) : M termios :=
  serial <- enter_bootloader cs env fuel argv ;;
  probe_loop env 20 0 ;;;
  restore_read_policy env serial.

Definition is_menu_upload (d : list byte) : bool :=
  match d with
  | [b] => Byte.eqb b "1"%byte
  | _ => false
  end.

(** No idle-read of the probe (the reads of 1024 bytes) found anything. *)
Definition probe_read_empty (e : event) : bool :=
  match e with
  | ERead Xb 1024 (RData []) => true
  | ERead Xb 1024 _ => false
  | _ => true
  end.

Definition serial_115200 : termios := mkTermios 115200 0 1 0.
Definition serial_transfer : termios := mkTermios 115200 1 0 0.

(** ** The firmware file as the environment offers it

    [fstat] reports the length of [fw], memory is granted, and every
    [read] delivers a prefix of the bytes not yet read, a non-empty one
    as long as bytes remain (short reads are allowed). *)
Definition offers_file (env : Env) (fw : list byte) : Prop :=
  (forall t, env_fstat env t Fw = Some (Z.of_nat (length fw))) /\
  (forall t n, env_malloc env t n = true) /\
  (forall t count, exists d rest,
     env_read env t Fw count = RData d /\
     skipn (fw_pos t) fw = d ++ rest /\
     (d = [] -> rest = [])).

Definition fw_a300 : list byte := repeat "a"%byte 300.

Definition is_dot (e : event) : bool :=
  match e with
  | EPrintf "." [] => true
  | _ => false
  end.

(** The events of [xb_firmware_update] are reads, writes and polls on
    the line, the loading of the file, and messages. *)
Definition transfer_event (e : event) : bool :=
  match e with
  | ERead _ _ _ | EWrite Xb _ _ | EPoll Xb _ _ | EFstat Fw _ | EMalloc _ _
  | EPrintf _ _ | EFflush | EWarn _ _ | EWarnx _ _ => true
  | _ => false
  end.

(** The AT request as the protocol defines it: the prefix, the
    two-letter code, the argument, a carriage return. *)
Definition at_request (cmd : byte * byte) (s : list byte) : list byte :=
  ["A"%byte; "T"%byte; fst cmd; snd cmd] ++ s ++ [x0d].

(** ** Waiting for OK *)

(** The read delivered the byte 'O' first. *)
Definition is_O (r : read_result) : bool :=
  match r with
  | RData (b :: _) => Byte.eqb b "O"%byte
  | _ => false
  end.

(** The events of [k] rounds of waiting in a row, made after [t]: a
    one-byte read, whatever it delivers, and a pause of 100000
    microseconds. *)
Fixpoint pauses (env : Env) (f : fd) (k : nat) (t : trace) : list event :=
  match k with
  | O => []
  | S k' =>
      let p := [ERead f 1 (read_at env t f 1); EUsleep 100000] in
      p ++ pauses env f k' (t ++ p)
  end.

(** The byte 'O' is first delivered by the read of round [k], counted
    from 0: the reads of the rounds before fail, deliver nothing, or
    deliver another byte. *)
Definition O_arrives (env : Env) (f : fd) (k : nat) (t : trace) : Prop :=
  (forall j, (j < k)%nat ->
     is_O (read_at env (t ++ pauses env f j t) f 1) = false) /\
  is_O (read_at env (t ++ pauses env f k t) f 1) = true.

(** A line whose first read fails, whose second delivers nothing, whose
    third delivers the byte 'K', and which answers OK from then on. *)
Definition slow_line : Env :=
  mkEnv (fun _ _ => true)
        (fun t _ _ => match count_reads t with
                      | 0%nat => RErr
                      | 1%nat => RData []
                      | 2%nat => RData ["K"%byte]
                      | _ => RData ["O"%byte; "K"%byte; x0d]
                      end)
        (fun _ _ d => Z.of_nat (length d))
        (fun _ _ _ => 0)
        (fun _ _ => Some 0)
        (fun _ _ => true)
        (fun _ _ => Some termios0)
        (fun _ _ _ => true).

(** ** Further properties: vocabulary *)

(** The bytes delivered by the reads of an event list, in order. *)
Definition read_data (evs : list event) : list byte :=
  flat_map (fun e => match e with
                     | ERead _ _ (RData d) => d
                     | _ => []
                     end) evs.

Definition is_read_or_poll (f : fd) (e : event) : bool :=
  match e with
  | ERead g _ _ | EPoll g _ _ => fd_eqb f g
  | _ => false
  end.

(** [m] never leaves the process. *)
Definition stays {A} (m : M A) : Prop :=
  forall t s, snd (m t) <> Exited s.

Definition is_diagnostic (e : event) : bool :=
  match e with
  | EErr _ _ | EErrx _ _ => true
  | _ => false
  end.

(** Whenever [m] leaves the process, the status is [EXIT_FAILURE] and
    the last thing done was to print a diagnostic. *)
Definition exits_cleanly {A} (m : M A) : Prop :=
  forall t s,
    snd (m t) = Exited s ->
    s = EXIT_FAILURE /\
    exists pre d, fst (m t) = pre ++ [d] /\ is_diagnostic d = true.

(** A line that delivers two bytes, announces more, and then fails. *)
Definition flaky_line : Env :=
  mkEnv (fun _ _ => true)
        (fun t _ _ => match count_reads t with
                      | O => RData ["o"%byte; "k"%byte]
                      | _ => RErr
                      end)
        (fun _ _ d => Z.of_nat (length d))
        (fun _ _ _ => 1)
        (fun _ _ => Some 0)
        (fun _ _ => true)
        (fun _ _ => Some termios0)
        (fun _ _ _ => true).

(** The formatted argument [s] of a call of [xb_send_command] whose
    request fits the buffer: none for an empty format, at most 251 bytes
    otherwise. *)
Definition fitting_argument (format : string)
    (formatted : option (list byte)) (s : list byte) : Prop :=
  (format = EmptyString /\ s = []) \/
  (format <> EmptyString /\ formatted = Some s /\ (length s <= 251)%nat).


Definition not_dot (e : event) : bool := negb (is_dot e).

Definition count_dots (evs : list event) : nat :=
  length (filter is_dot evs).

(** One step of the CRC register backwards. *)
Definition crc16_unshift (rem : Z) : Z :=
  if Z.odd rem then Z.lxor rem 0x1021 / 2 + 32768 else rem / 2.

(** The calls of [tcsetattr] of an event list, in order: descriptor,
    settings, success. *)
Definition settings (evs : list event) : list (fd * termios * bool) :=
  flat_map (fun e => match e with
                     | ETcsetattr f tio ok => [(f, tio, ok)]
                     | _ => []
                     end) evs.

Definition no_setting (e : event) : bool :=
  match e with
  | ETcsetattr _ _ _ => false
  | _ => true
  end.

(** The three settings of a session, given what [tcgetattr] delivered:
    for the probe, for the transfer, and at the end. *)
Definition probe_policy (orig : termios) : termios :=
  mkTermios B115200 0 1 (c_rest orig).
Definition transfer_policy (orig : termios) : termios :=
  mkTermios B115200 1 0 (c_rest orig).
Definition final_policy (orig : termios) : termios :=
  mkTermios B9600 1 0 (c_rest orig).

(** A computation that calls [tcsetattr] once, at its end, with [tio],
    and returns [a] if and only if that call succeeds. *)
Definition sets_once {A} (tio : termios) (a : A) (evs : list event)
    (r : result A) : Prop :=
  (settings evs = [] /\ forall b, r <> Ret b) \/
  (exists ok, settings evs = [(Xb, tio, ok)] /\
              if ok then r = Ret a else forall b, r <> Ret b).

(** The escape sequence of line 300. *)
Definition plus3 : list byte := ["+"%byte; "+"%byte; "+"%byte].

(** The modem control sequence of lines 309-333, ending with the switch
    to the settings [serial]. *)
Definition break_sequence (serial : termios) : list event :=
  [EIoctl Xb TIOCMSET (Some 34); EIoctl Xb TIOCSBRK None; ESleep 2;
   EIoctl Xb TIOCCBRK None; EIoctl Xb TIOCMSET (Some 34);
   ETcsetattr Xb serial true].

(** A line that takes nothing but keeps answering OK. *)
Definition deaf_line : Env :=
  mkEnv (fun _ _ => true)
        (fun _ _ _ => RData ["O"%byte; "K"%byte; x0d])
        (fun _ _ _ => 0)
        (fun _ _ _ => 0)
        (fun _ _ => Some 0)
        (fun _ _ => true)
        (fun _ _ => Some termios0)
        (fun _ _ _ => true).

(** A device like [device_ok] on a line that fails when the reply to
    the second block is read. *)
Definition device_drop : Env :=
  mkEnv (fun _ _ => true)
        (fun t f _ =>
           match f with
           | Fw => RData (skipn (fw_pos t) (fw_ff 300))
           | Xb => if (count_written is_pair t =? 2)%nat then RErr
                   else RData (device_reply 1 begin_upload None t)
           end)
        (fun _ _ d => Z.of_nat (length d))
        (fun _ _ _ => 0)
        (fun _ _ => Some 300)
        (fun _ _ => true)
        (fun _ _ => Some termios0)
        (fun _ _ _ => true).

Definition is_warning (e : event) : bool :=
  match e with
  | EWarn _ _ | EWarnx _ _ => true
  | _ => false
  end.

(** The last event is a warning, or a failed [read] of the firmware
    file. *)
Definition ends_in_complaint (evs : list event) : Prop :=
  exists pre d,
    evs = pre ++ [d] /\
    (is_warning d = true \/ exists c, d = ERead Fw c RErr).

(** Whenever [m] returns a value that is [bad], the last thing it did
    was to complain. *)
Definition loud {A} (bad : A -> bool) (m : M A) : Prop :=
  forall t e a, m t = (e, Ret a) -> bad a = true -> ends_in_complaint e.

Definition failed (code : Z) : bool := negb (code =? 0).

Definition is_inl {A B} (x : A + B) : bool :=
  match x with
  | inl _ => true
  | inr _ => false
  end.

Definition is_none {A} (x : option A) : bool :=
  match x with
  | None => true
  | Some _ => false
  end.

(** A device like [device_ok] whose firmware file cannot be read. *)
Definition device_unreadable : Env :=
  mkEnv (fun _ _ => true)
        (fun t f _ =>
           match f with
           | Fw => RErr
           | Xb => RData (device_reply 1 begin_upload None t)
           end)
        (fun _ _ d => Z.of_nat (length d))
        (fun _ _ _ => 0)
        (fun _ _ => Some 300)
        (fun _ _ => true)
        (fun _ _ => Some termios0)
        (fun _ _ _ => true).

(** A device like [device_ok] whose firmware file holds 100 bytes
    although [fstat] reports 300. *)
Definition device_short : Env :=
  mkEnv (fun _ _ => true)
        (fun t f _ =>
           match f with
           | Fw => RData (skipn (fw_pos t) (fw_ff 100))
           | Xb => RData (device_reply 1 begin_upload None t)
           end)
        (fun _ _ d => Z.of_nat (length d))
        (fun _ _ _ => 0)
        (fun _ _ => Some 300)
        (fun _ _ => true)
        (fun _ _ => Some termios0)
        (fun _ _ _ => true).

(** A line that takes every write and delivers one byte, 'O'; every
    read after that fails. *)
Definition o_then_dead : Env :=
  mkEnv (fun _ _ => true)
        (fun t _ _ => match count_reads t with
                      | O => RData ["O"%byte]
                      | _ => RErr
                      end)
        (fun _ _ d => Z.of_nat (length d))
        (fun _ _ _ => 0)
        (fun _ _ => Some 0)
        (fun _ _ => true)
        (fun _ _ => Some termios0)
        (fun _ _ _ => true).

(** * Basic facts *)

Lemma byte_to_Z_range (b : byte) : 0 <= byte_to_Z b < 256.
Proof.
  unfold byte_to_Z. pose proof (Byte.to_N_bounded b). lia.
Qed.

Lemma Z_to_byte_to_Z (b : byte) : Z_to_byte (byte_to_Z b) = b.
Proof.
  unfold Z_to_byte. pose proof (byte_to_Z_range b) as Hb.
  rewrite Z.mod_small by lia. unfold byte_to_Z.
  rewrite N2Z.id, Byte.of_to_N. reflexivity.
Qed.

Lemma byte_to_Z_inj (a b : byte) : byte_to_Z a = byte_to_Z b -> a = b.
Proof.
  intros H. rewrite <- (Z_to_byte_to_Z a), <- (Z_to_byte_to_Z b).
  now rewrite H.
Qed.

(** Comparing a [char] with a character constant below 128 does not
    depend on the signedness of [char]. *)
Lemma char_val_eqb (cs : bool) (b : byte) (c : Z) :
  0 <= c < 128 -> (char_val cs b =? c) = (byte_to_Z b =? c).
Proof.
  intros Hc. unfold char_val. pose proof (byte_to_Z_range b) as Hb.
  destruct cs; simpl; [|reflexivity].
  destruct (128 <=? byte_to_Z b) eqn:E; [|reflexivity].
  apply Z.leb_le in E.
  transitivity false; [apply Z.eqb_neq | symmetry; apply Z.eqb_neq]; lia.
Qed.

Lemma char_val_is (cs : bool) (b c : byte) :
  byte_to_Z c < 128 -> (char_val cs b =? byte_to_Z c) = Byte.eqb b c.
Proof.
  intros Hc. rewrite char_val_eqb by (pose proof (byte_to_Z_range c); lia).
  destruct (Byte.eqb b c) eqn:E.
  - apply Byte.byte_dec_bl in E. subst. apply Z.eqb_refl.
  - apply Z.eqb_neq. intros H. apply byte_to_Z_inj in H. subst.
    rewrite (Byte.byte_dec_lb eq_refl) in E. discriminate.
Qed.

(** ** The monad *)


Lemma bind_assoc {A B C} (m : M A) (f : A -> M B) (g : B -> M C) t :
  bind (bind m f) g t = bind m (fun a => bind (f a) g) t.
Proof.
  unfold bind. destruct (m t) as [e1 [a|s| |]]; try reflexivity.
  destruct (f a (t ++ e1)) as [e2 [b|s| |]]; try reflexivity.
  rewrite <- app_assoc. destruct (g b (t ++ e1 ++ e2)) as [e3 r].
  now rewrite app_assoc.
Qed.

Lemma bind_ext {A B} (m : M A) (f g : A -> M B) t :
  (forall a t', f a t' = g a t') -> bind m f t = bind m g t.
Proof.
  intros H. unfold bind. destruct (m t) as [e1 [a|s| |]]; try reflexivity.
  now rewrite H.
Qed.

Lemma emits_ret {A} P (a : A) : emits P (ret a).
Proof. intros t. reflexivity. Qed.

Lemma emits_exit {A} P s : emits P (@exit A s).
Proof. intros t. reflexivity. Qed.

Lemma emits_diverge {A} P : emits P (@diverge A).
Proof. intros t. reflexivity. Qed.

Lemma emits_undefined {A} P : emits P (@undefined A).
Proof. intros t. reflexivity. Qed.

Lemma emits_emit P e : P e = true -> emits P (emit e).
Proof. intros H t. simpl. now rewrite H. Qed.

Lemma emits_bind {A B} P (m : M A) (f : A -> M B) :
  emits P m -> (forall a, emits P (f a)) -> emits P (bind m f).
Proof.
  intros Hm Hf t. unfold bind. specialize (Hm t).
  destruct (m t) as [e1 [a|s| |]]; simpl in *; auto.
  specialize (Hf a (t ++ e1)). destruct (f a (t ++ e1)) as [e2 r].
  simpl in *. rewrite forallb_app, Hm, Hf. reflexivity.
Qed.

Section Emits.
Variable cs le : bool.
Variable env : Env.
Variable P : event -> bool.

Lemma emits_sys_read f c :
  (forall r, P (ERead f c r) = true) -> emits P (sys_read env f c).
Proof. intros H t. simpl. now rewrite H. Qed.

Lemma emits_sys_write f d :
  (forall n, P (EWrite f d n) = true) -> emits P (sys_write env f d).
Proof. intros H t. simpl. now rewrite H. Qed.

Lemma emits_sys_poll f c :
  (forall n, P (EPoll f c n) = true) -> emits P (sys_poll env f c).
Proof. intros H t. simpl. now rewrite H. Qed.

Lemma emits_sys_fstat f :
  (forall r, P (EFstat f r) = true) -> emits P (sys_fstat env f).
Proof. intros H t. simpl. now rewrite H. Qed.

Lemma emits_sys_malloc n :
  (forall r, P (EMalloc n r) = true) -> emits P (sys_malloc env n).
Proof. intros H t. simpl. now rewrite H. Qed.

Lemma emits_sys_open p :
  (forall r, P (EOpen p r) = true) -> emits P (sys_open env p).
Proof. intros H t. simpl. now rewrite H. Qed.

Lemma emits_sys_tcgetattr f :
  (forall r, P (ETcgetattr f r) = true) -> emits P (sys_tcgetattr env f).
Proof. intros H t. simpl. now rewrite H. Qed.

Lemma emits_sys_tcsetattr f tio :
  (forall r, P (ETcsetattr f tio r) = true) ->
  emits P (sys_tcsetattr env f tio).
Proof. intros H t. simpl. now rewrite H. Qed.

End Emits.

(** Splits a goal [emits P m] along the structure of [m]. *)
Ltac emits_step :=
  match goal with
  | |- emits _ (bind _ _) => apply emits_bind; [|intros]
  | |- emits _ (ret _) => apply emits_ret
  | |- emits _ exit => apply emits_exit
  | |- emits _ (exit _) => apply emits_exit
  | |- emits _ diverge => apply emits_diverge
  | |- emits _ undefined => apply emits_undefined
  | |- emits _ (emit _) => apply emits_emit; try reflexivity
  | |- emits _ (printf _ _) => apply emits_emit; try reflexivity
  | |- emits _ (warn _ _) => apply emits_emit; try reflexivity
  | |- emits _ (warnx _ _) => apply emits_emit; try reflexivity
  | |- emits _ (err _ _ _) => unfold err
  | |- emits _ (errx _ _ _) => unfold errx
  | |- emits _ (sys_read _ _ _) => apply emits_sys_read; intros; try reflexivity
  | |- emits _ (sys_write _ _ _) =>
      apply emits_sys_write; intros; try reflexivity
  | |- emits _ (sys_poll _ _ _) => apply emits_sys_poll; intros; try reflexivity
  | |- emits _ (sys_fstat _ _) => apply emits_sys_fstat; intros; try reflexivity
  | |- emits _ (sys_malloc _ _) =>
      apply emits_sys_malloc; intros; try reflexivity
  | |- emits _ (sys_open _ _) => apply emits_sys_open; intros; try reflexivity
  | |- emits _ (sys_tcgetattr _ _) =>
      apply emits_sys_tcgetattr; intros; try reflexivity
  | |- emits _ (sys_tcsetattr _ _ _) =>
      apply emits_sys_tcsetattr; intros; try reflexivity
  | |- emits _ (if ?b then _ else _) => destruct b
  | |- emits _ (match ?x with _ => _ end) => destruct x
  | |- emits _ (let (_, _) := ?x in _) => destruct x
  end.

Ltac emits_tac := repeat emits_step.

Lemma firstn_plus {A} (n k : nat) : forall l : list A,
  firstn (n + k) l = firstn n l ++ firstn k (skipn n l).
Proof.
  induction n as [|n IH]; intros l; [reflexivity|].
  destruct l as [|a l]; simpl.
  - now rewrite firstn_nil.
  - now rewrite IH.
Qed.

Lemma wire_app (a b : list event) : wire (a ++ b) = wire a ++ wire b.
Proof. unfold wire. apply flat_map_app. Qed.

Lemma wire_no_write (evs : list event) :
  forallb not_write evs = true -> wire evs = [].
Proof.
  induction evs as [|e evs IH]; simpl; [reflexivity|].
  intros H. apply andb_prop in H as [He Hr]. rewrite (IH Hr), app_nil_r.
  destruct e; try reflexivity. destruct f; [discriminate|reflexivity].
Qed.

(** * The framed I/O primitives *)

Section FramedIO.
Variable cs : bool.
Variable env : Env.

Lemma seen_O_true (r : read_result) :
  seen_O cs r = true -> exists rest, r = RData ("O"%byte :: rest).
Proof.
  destruct r as [|[|b rest]]; simpl; try discriminate.
  change 79 with (byte_to_Z "O"%byte).
  rewrite char_val_is by (vm_compute; reflexivity).
  intros H. apply Byte.byte_dec_bl in H. subst. now exists rest.
Qed.

Lemma seen_O_false (r : read_result) :
  r = RErr \/ r = RData [] -> seen_O cs r = false.
Proof. intros [-> | ->]; reflexivity. Qed.

Lemma emits_wait_for_ok_loop P f fuel :
  (forall r, P (ERead f 1 r) = true) -> P (EUsleep 100000) = true ->
  emits P (wait_for_ok_loop cs env fuel f).
Proof.
  intros HR HU. induction fuel as [|fuel IH]; simpl; [apply emits_diverge|].
  apply emits_bind; [now apply emits_sys_read|].
  intros r. destruct (seen_O cs r); [apply emits_ret|].
  apply emits_bind; [now apply emits_emit | intros; exact IH].
Qed.

Lemma emits_wait_for_ok P f fuel :
  (forall r, P (ERead f 1 r) = true) -> P (EUsleep 100000) = true ->
  emits P (wait_for_ok cs env fuel f).
Proof.
  intros HR HU. unfold wait_for_ok.
  apply emits_bind; [now apply emits_wait_for_ok_loop|]. intros.
  apply emits_bind; [now apply emits_sys_read|]. intros.
  apply emits_bind; [now apply emits_sys_read|]. intros. apply emits_ret.
Qed.

(** One round of the loop of [wait_for_ok]. *)
Lemma wait_for_ok_loop_S f fuel t :
  wait_for_ok_loop cs env (S fuel) f t =
    let r := read_at env t f 1 in
    if seen_O cs r then ([ERead f 1 r], Ret tt)
    else
      let pause := [ERead f 1 r; EUsleep 100000] in
      let (evs, res) := wait_for_ok_loop cs env fuel f (t ++ pause) in
      (pause ++ evs, res).
Proof.
  cbn [wait_for_ok_loop]. unfold bind at 1. cbn [sys_read]. cbv zeta.
  destruct (seen_O cs (read_at env t f 1)); [reflexivity|].
  unfold bind. cbn [emit]. rewrite <- app_assoc. cbn [app].
  destruct (wait_for_ok_loop cs env fuel f _) as [evs [[]|s| |]];
    reflexivity.
Qed.

(** The loop of [wait_for_ok] either leaves through its [break] or runs
    out of fuel. *)
Lemma wait_for_ok_loop_result f fuel t :
  snd (wait_for_ok_loop cs env fuel f t) = Ret tt \/
  snd (wait_for_ok_loop cs env fuel f t) = Diverge.
Proof.
  revert t. induction fuel as [|fuel IH]; intros t; [now right|].
  rewrite wait_for_ok_loop_S. cbv zeta.
  destruct (seen_O cs _); [now left|].
  specialize (IH (t ++ [ERead f 1 (read_at env t f 1); EUsleep 100000])).
  destruct (wait_for_ok_loop cs env fuel f _) as [evs res]. exact IH.
Qed.

(** ** xb_write *)

Lemma xb_write_loop_spec n : forall buf t,
  (length buf <= n)%nat ->
  exists evs r,
    xb_write_loop env n Xb buf t = (evs, Ret r) /\
    forallb (is_write Xb) evs = true /\
    ((r = 0 /\ wire evs = buf) \/
     (r = -1 /\ exists k, (k < length buf)%nat /\ wire evs = firstn k buf)).
Proof.
  induction n as [|n IH]; intros buf t Hlen.
  - destruct buf; [|simpl in Hlen; lia].
    exists [], 0. simpl. auto.
  - destruct buf as [|b buf'].
    { exists [], 0. destruct n; simpl; auto. }
    set (buf := b :: buf') in *.
    assert (Hpos : (0 <? Z.of_nat (length buf)) = true)
      by (apply Z.ltb_lt; simpl; lia).
    cbn [xb_write_loop]. rewrite Hpos. unfold bind at 1.
    cbn [sys_write].
    set (w := write_at env t Xb buf).
    assert (Hw : w <= Z.of_nat (length buf)) by (subst w; unfold write_at; lia).
    destruct (w <=? 0) eqn:Ew.
    + exists [EWrite Xb buf w], (-1). cbn. repeat split.
      right. split; [reflexivity|]. exists 0%nat. split; [simpl; lia|].
      apply Z.leb_le in Ew. replace (Z.to_nat w) with 0%nat by lia.
      reflexivity.
    + apply Z.leb_gt in Ew.
      destruct (IH (skipn (Z.to_nat w) buf) (t ++ [EWrite Xb buf w]))
        as (evs & r & Hrun & Hev & Hres).
      { rewrite length_skipn. lia. }
      rewrite Hrun. exists (EWrite Xb buf w :: evs), r.
      split; [reflexivity|]. split; [cbn; exact Hev|].
      unfold wire in *. cbn [flat_map wire_of].
      destruct Hres as [[-> Hwire] | [-> (k & Hk & Hwire)]].
      * left. split; [reflexivity|]. rewrite Hwire. apply firstn_skipn.
      * right. split; [reflexivity|]. exists (Z.to_nat w + k)%nat.
        rewrite length_skipn in Hk. split; [lia|].
        rewrite Hwire. symmetry. apply firstn_plus.
Qed.

(** [xb_write] always returns, with 0 once the line took every byte and
    with -1 after it took only a proper prefix. *)
Lemma xb_write_spec (buf : list byte) (t : trace) :
  exists evs r,
    xb_write env Xb buf t = (evs, Ret r) /\
    forallb (is_write Xb) evs = true /\
    ((r = 0 /\ wire evs = buf) \/
     (r = -1 /\ exists k, (k < length buf)%nat /\ wire evs = firstn k buf)).
Proof. apply xb_write_loop_spec. lia. Qed.

(** Writing one byte is one call of [write]. *)
Lemma xb_write_one (f : fd) (b : byte) (t : trace) :
  xb_write env f [b] t =
    let n := write_at env t f [b] in
    ([EWrite f [b] n], Ret (if n <=? 0 then -1 else 0)).
Proof.
  unfold xb_write. cbn [length xb_write_loop]. cbn [Z.of_nat Z.ltb Z.compare].
  unfold bind. cbn [sys_write length Z.of_nat Pos.of_succ_nat].
  set (n := write_at env t f [b]). cbv zeta.
  destruct (n <=? 0) eqn:E; [reflexivity|].
  apply Z.leb_gt in E.
  assert (n = 1) by (subst n; unfold write_at in *; simpl in *; lia).
  rewrite H. reflexivity.
Qed.

Lemma emits_xb_write_loop P f :
  (forall d n, P (EWrite f d n) = true) ->
  forall n buf, emits P (xb_write_loop env n f buf).
Proof.
  intros HP. induction n as [|n IH]; intros buf; simpl.
  - destruct (0 <? Z.of_nat (length buf));
      [apply emits_diverge | apply emits_ret].
  - destruct (0 <? Z.of_nat (length buf)); [|apply emits_ret].
    apply emits_bind; [apply emits_sys_write; intros; apply HP|].
    intros a. destruct (a <=? 0); [apply emits_ret|apply IH].
Qed.

Lemma emits_xb_write P f buf :
  (forall d n, P (EWrite f d n) = true) -> emits P (xb_write env f buf).
Proof. intros HP. now apply emits_xb_write_loop. Qed.

(** ** xb_read *)

Lemma emits_xb_read_loop P f count :
  (forall c r, P (ERead f c r) = true) ->
  (forall c n, P (EPoll f c n) = true) ->
  forall n buf, emits P (xb_read_loop env n f count buf).
Proof.
  intros HR HP. induction n as [|n IH]; intros buf; simpl.
  - apply emits_diverge.
  - apply emits_bind; [apply emits_sys_read; intros; apply HR|].
    intros r. destruct (read_ret r <=? 0); [apply emits_ret|].
    apply emits_bind; [apply emits_sys_poll; intros; apply HP|].
    intros p. destruct ((0 <? p) && _); [apply IH|apply emits_ret].
Qed.

Lemma emits_xb_read P f count :
  (forall c r, P (ERead f c r) = true) ->
  (forall c n, P (EPoll f c n) = true) ->
  emits P (xb_read env f count).
Proof. intros. now apply emits_xb_read_loop. Qed.

Lemma xb_read_loop_spec f count n : forall buf t,
  (0 < n)%nat -> count - Z.of_nat (length buf) < Z.of_nat n ->
  exists evs k buf',
    xb_read_loop env n f count buf t = (evs, Ret (k, buf')) /\
    (0 < k -> k = Z.of_nat (length buf') /\ buf' <> []).
Proof.
  induction n as [|n IH]; intros buf t Hn Hc; [lia|].
  cbn [xb_read_loop]. unfold bind at 1. cbn [sys_read].
  set (c := count - Z.of_nat (length buf)) in *.
  set (r := read_at env t f c).
  destruct (read_ret r <=? 0) eqn:E.
  - apply Z.leb_le in E. do 3 eexists. split; [reflexivity|]. cbn. lia.
  - apply Z.leb_gt in E. unfold bind at 1. cbn [sys_poll].
    set (t1 := t ++ [ERead f c r]).
    set (p := env_poll env t1 f 100).
    assert (Hr : exists d, r = RData d /\ d <> [] /\
                           Z.of_nat (length d) <= c).
    { subst r. unfold read_at in *.
      destruct (env_read env t f c) as [|d]; [cbn in E; lia|].
      eexists. split; [reflexivity|]. cbn in E. split.
      - intros H. rewrite H in E. cbn in E. lia.
      - rewrite length_firstn in *. lia. }
    destruct Hr as (d & Hr & Hd & Hdc). rewrite Hr in *. cbn [read_ret] in *.
    destruct ((0 <? p) && (_ <? count)) eqn:Eg.
    + apply andb_prop in Eg as [_ Eg]. apply Z.ltb_lt in Eg.
      destruct (IH (buf ++ d) (t1 ++ [EPoll f 100 p]))
        as (evs & k & buf' & Hrun & Hk).
      * lia.
      * rewrite length_app. lia.
      * rewrite Hrun. do 3 eexists. split; [reflexivity|]. exact Hk.
    + do 3 eexists. split; [reflexivity|]. intros _.
      rewrite length_app. split; [lia|].
      intros H. apply app_eq_nil in H. tauto.
Qed.

(** [xb_read] always returns; a positive result is the number of bytes
    in the buffer. *)
Lemma xb_read_spec f count t :
  exists evs k buf,
    xb_read env f count t = (evs, Ret (k, buf)) /\
    (0 < k -> k = Z.of_nat (length buf) /\ buf <> []).
Proof. apply xb_read_loop_spec; simpl; lia. Qed.

End FramedIO.

(** * The OK wait *)

Section OkWait.
Variable cs : bool.
Variable env : Env.
Variable f : fd.

Lemma wait_for_ok_result fuel t :
  snd (wait_for_ok cs env fuel f t) = Ret tt \/
  snd (wait_for_ok cs env fuel f t) = Diverge.
Proof.
  pose proof (wait_for_ok_loop_result cs env f fuel t) as H.
  unfold wait_for_ok, bind.
  destruct (wait_for_ok_loop cs env fuel f t) as [e [[]|s| |]];
    simpl in *; auto.
Qed.

Lemma wait_for_ok_loop_failing :
  (forall t, env_read env t f 1 = RErr) ->
  forall fuel t,
    wait_for_ok_loop cs env fuel f t =
      (concat (repeat [ERead f 1 RErr; EUsleep 100000] fuel), Diverge).
Proof.
  intros Hfail. induction fuel as [|fuel IH]; intros t; [reflexivity|].
  rewrite wait_for_ok_loop_S. unfold read_at. rewrite Hfail. cbv zeta.
  cbn [seen_O]. rewrite IH. reflexivity.
Qed.

Lemma wait_for_ok_loop_break : forall fuel t evs,
  wait_for_ok_loop cs env fuel f t = (evs, Ret tt) ->
  exists pre, evs = pre ++ [ERead f 1 (RData ["O"%byte])].
Proof.
  induction fuel as [|fuel IH]; intros t evs H; [discriminate|].
  rewrite wait_for_ok_loop_S in H. cbv zeta in H.
  destruct (seen_O cs (read_at env t f 1)) eqn:E.
  - inversion H; subst. exists []. simpl. f_equal. f_equal.
    apply seen_O_true in E as [rest E]. rewrite E. f_equal. f_equal.
    unfold read_at in E. destruct (env_read env t f 1) as [|d];
      [discriminate|].
    inversion E as [E']. destruct d as [|b [|b' d]]; try discriminate;
      now inversion E'.
  - destruct (wait_for_ok_loop cs env fuel f _) as [e r] eqn:Hrec.
    inversion H; subst. apply IH in Hrec as [pre ->].
    eexists (_ :: _ :: pre). reflexivity.
Qed.

Lemma seen_O_is_O (r : read_result) : seen_O cs r = is_O r.
Proof.
  destruct r as [|[|b d]]; try reflexivity. cbn [seen_O is_O].
  change 79 with (byte_to_Z "O"%byte). apply char_val_is.
  vm_compute. reflexivity.
Qed.

Lemma read_O t :
  is_O (read_at env t f 1) = true ->
  read_at env t f 1 = RData ["O"%byte].
Proof.
  unfold read_at. destruct (env_read env t f 1) as [|[|b d]];
    cbn [is_O firstn]; try discriminate.
  change (Z.to_nat 1) with 1%nat. cbn [firstn is_O].
  intros H. apply Byte.byte_dec_bl in H. now subst b.
Qed.

(** Whenever the byte 'O' arrives, the loop is left: with the read of
    round [k], after [k] reads and pauses. *)
Lemma wait_for_ok_loop_arrives : forall k fuel t,
  (k < fuel)%nat -> O_arrives env f k t ->
  wait_for_ok_loop cs env fuel f t =
    (pauses env f k t ++ [ERead f 1 (RData ["O"%byte])], Ret tt).
Proof.
  induction k as [|k IH]; intros fuel t Hk [Hno Hyes];
    (destruct fuel as [|fuel]; [lia|]);
    rewrite wait_for_ok_loop_S; cbv zeta; rewrite seen_O_is_O.
  - cbn [pauses] in Hyes. rewrite app_nil_r in Hyes.
    rewrite Hyes, (read_O _ Hyes). reflexivity.
  - pose proof (Hno 0%nat ltac:(lia)) as H0. cbn [pauses] in H0.
    rewrite app_nil_r in H0. rewrite H0.
    set (p := [ERead f 1 (read_at env t f 1); EUsleep 100000]).
    rewrite (IH fuel (t ++ p)); [|lia|].
    + cbn [pauses]. fold p. now rewrite <- app_assoc.
    + split.
      * intros j Hj. specialize (Hno (S j) ltac:(lia)).
        cbn [pauses] in Hno. fold p in Hno. now rewrite app_assoc in Hno.
      * cbn [pauses] in Hyes. fold p in Hyes. now rewrite app_assoc in Hyes.
Qed.

Lemma wait_for_ok_arrives k fuel t :
  (k < fuel)%nat -> O_arrives env f k t ->
  wait_for_ok cs env fuel f t =
    (let evs := pauses env f k t ++ [ERead f 1 (RData ["O"%byte])] in
     let r1 := read_at env (t ++ evs) f 1 in
     let r2 := read_at env (t ++ evs ++ [ERead f 1 r1]) f 1 in
     (evs ++ [ERead f 1 r1; ERead f 1 r2], Ret tt)).
Proof.
  intros Hk Ha. unfold wait_for_ok, bind.
  rewrite (wait_for_ok_loop_arrives k fuel t Hk Ha). cbn [sys_read ret].
  cbv zeta. rewrite <- !app_assoc. rewrite app_nil_r. reflexivity.
Qed.

End OkWait.

(** C10.  [wait_for_ok] never reports an error.  Its only outcomes are
    a normal return and non-termination.  A [read] that fails and a
    [read] that delivers nothing both lead to the same 100000 microsecond
    pause followed by another round, so on a line whose reads always fail
    the wait runs through any amount of fuel without ever returning.
    Once the byte 'O' has been read, exactly two more one-byte reads are
    issued and the function returns whatever they deliver.  And it does
    return: when the first 'O' comes with the read of round [k], after
    [k] reads that failed, delivered nothing or delivered another byte,
    any fuel above [k] gives the result, which is those [k] reads and
    pauses, the read of 'O', and the two further reads. *)
Theorem C10_wait_for_ok_never_reports (cs : bool) (env : Env) (f : fd) :
  (forall fuel t,
     snd (wait_for_ok cs env fuel f t) = Ret tt \/
     snd (wait_for_ok cs env fuel f t) = Diverge) /\
  (forall fuel t,
     read_at env t f 1 = RErr \/ read_at env t f 1 = RData [] ->
     wait_for_ok_loop cs env (S fuel) f t =
       (let pause := [ERead f 1 (read_at env t f 1); EUsleep 100000] in
        let (evs, res) := wait_for_ok_loop cs env fuel f (t ++ pause) in
        (pause ++ evs, res))) /\
  ((forall t, env_read env t f 1 = RErr) ->
   forall fuel t,
     wait_for_ok cs env fuel f t =
       (concat (repeat [ERead f 1 RErr; EUsleep 100000] fuel), Diverge)) /\
  (forall fuel t evs,
     wait_for_ok_loop cs env fuel f t = (evs, Ret tt) ->
     (exists pre, evs = pre ++ [ERead f 1 (RData ["O"%byte])]) /\
     wait_for_ok cs env fuel f t =
       (let r1 := read_at env (t ++ evs) f 1 in
        let r2 := read_at env (t ++ evs ++ [ERead f 1 r1]) f 1 in
        (evs ++ [ERead f 1 r1; ERead f 1 r2], Ret tt))) /\
  (forall k fuel t,
     (k < fuel)%nat -> O_arrives env f k t ->
     wait_for_ok_loop cs env fuel f t =
       (pauses env f k t ++ [ERead f 1 (RData ["O"%byte])], Ret tt) /\
     wait_for_ok cs env fuel f t =
       (let evs := pauses env f k t ++ [ERead f 1 (RData ["O"%byte])] in
        let r1 := read_at env (t ++ evs) f 1 in
        let r2 := read_at env (t ++ evs ++ [ERead f 1 r1]) f 1 in
        (evs ++ [ERead f 1 r1; ERead f 1 r2], Ret tt))).
Proof.
  split; [apply wait_for_ok_result|].
  split.
  { intros fuel t Hr. rewrite wait_for_ok_loop_S. cbv zeta.
    now rewrite (seen_O_false cs _ Hr). }
  split.
  { intros Hfail fuel t. unfold wait_for_ok, bind at 1.
    now rewrite wait_for_ok_loop_failing. }
  split.
  { intros fuel t evs H.
    split; [eapply wait_for_ok_loop_break; eassumption|].
    unfold wait_for_ok, bind. rewrite H. cbn [sys_read ret].
    cbv zeta. rewrite <- !app_assoc. rewrite app_nil_r. reflexivity. }
  intros k fuel t Hk Ha. split.
  - now apply wait_for_ok_loop_arrives.
  - now apply wait_for_ok_arrives.
Qed.

Lemma C10_wait_for_ok_witness :
  wait_for_ok_loop true failing_line 3 Xb [] =
    ([ERead Xb 1 RErr; EUsleep 100000] ++
       concat (repeat [ERead Xb 1 RErr; EUsleep 100000] 2), Diverge) /\
  wait_for_ok true failing_line 4 Xb [] =
    (concat (repeat [ERead Xb 1 RErr; EUsleep 100000] 4), Diverge) /\
  wait_for_ok true ok_line 1 Xb [] =
    ([ERead Xb 1 (RData ["O"%byte]); ERead Xb 1 (RData ["O"%byte]);
      ERead Xb 1 (RData ["O"%byte])], Ret tt) /\
  wait_for_ok false ok_line 1 Xb [] =
    ([ERead Xb 1 (RData ["O"%byte]); ERead Xb 1 (RData ["O"%byte]);
      ERead Xb 1 (RData ["O"%byte])], Ret tt) /\
  wait_for_ok false slow_line 4 Xb [] =
    ([ERead Xb 1 RErr; EUsleep 100000;
      ERead Xb 1 (RData []); EUsleep 100000;
      ERead Xb 1 (RData ["K"%byte]); EUsleep 100000;
      ERead Xb 1 (RData ["O"%byte]); ERead Xb 1 (RData ["O"%byte]);
      ERead Xb 1 (RData ["O"%byte])], Ret tt).
Proof.
  pose proof (C10_wait_for_ok_never_reports true failing_line Xb)
    as (_ & Hpause & Hfail & _).
  pose proof (C10_wait_for_ok_never_reports true ok_line Xb)
    as (_ & _ & _ & Hok & _).
  pose proof (C10_wait_for_ok_never_reports false ok_line Xb)
    as (_ & _ & _ & _ & Hfirst).
  pose proof (C10_wait_for_ok_never_reports false slow_line Xb)
    as (_ & _ & _ & _ & Hslow).
  split; [|split; [|split; [|split]]].
  - rewrite (Hpause 2%nat []); [reflexivity | left; reflexivity].
  - apply Hfail. intros; reflexivity.
  - apply (Hok 1%nat [] [ERead Xb 1 (RData ["O"%byte])]). reflexivity.
  - apply (Hfirst 0%nat 1%nat []); [lia|]. split.
    + intros j Hj. lia.
    + reflexivity.
  - apply (Hslow 3%nat 4%nat []); [lia|]. split.
    + intros [|[|[|j]]] Hj; [reflexivity | reflexivity | reflexivity | lia].
    + reflexivity.
Defined.

(** * The AT command channel *)

Lemma store_bytes_at {a b : cells} (off : Z) (d : list byte) :
  off = Z.of_nat (length a) -> (length d <= length b)%nat ->
  store_bytes (a ++ b) off d = Some (a ++ map Some d ++ skipn (length d) b).
Proof.
  intros -> Hd. unfold store_bytes.
  replace (0 <=? Z.of_nat (length a)) with true
    by (symmetry; apply Z.leb_le; lia).
  replace (_ <=? _) with true
    by (symmetry; apply Z.leb_le; rewrite length_app; lia).
  cbn [andb]. rewrite Nat2Z.id. f_equal.
  rewrite firstn_app, firstn_all, Nat.sub_diag, firstn_0, app_nil_r.
  f_equal. f_equal. rewrite skipn_app.
  rewrite skipn_all2 by lia. cbn [app]. f_equal. lia.
Qed.

Lemma store_at {a b : cells} (i : Z) (x : option byte) (v : byte) :
  i = Z.of_nat (length a) ->
  store (a ++ x :: b) i v = Some (a ++ Some v :: b).
Proof.
  intros ->. unfold store.
  replace (0 <=? Z.of_nat (length a)) with true
    by (symmetry; apply Z.leb_le; lia).
  replace (_ <? _) with true
    by (symmetry; apply Z.ltb_lt; rewrite length_app; simpl; lia).
  cbn [andb]. rewrite Nat2Z.id. f_equal.
  rewrite firstn_app, firstn_all, Nat.sub_diag, firstn_0, app_nil_r.
  f_equal. replace (Z.to_nat (Z.of_nat (length a) + 1)) with (length a + 1)%nat
    by lia.
  rewrite skipn_app, skipn_all2 by lia. cbn [app].
  replace (length a + 1 - length a)%nat with 1%nat by lia. reflexivity.
Qed.

Lemma store_outside (buf : cells) (i : Z) (v : byte) :
  Z.of_nat (length buf) <= i -> store buf i v = None.
Proof.
  intros H. unfold store.
  replace (i <? Z.of_nat (length buf)) with false
    by (symmetry; apply Z.ltb_ge; lia).
  now rewrite andb_false_r.
Qed.

Lemma all_assigned_map (l : list byte) : all_assigned (map Some l) = Some l.
Proof. induction l as [|b l IH]; simpl; [|rewrite IH]; reflexivity. Qed.

Lemma load_bytes_prefix (l : list byte) (rest : cells) (n : Z) :
  n = Z.of_nat (length l) -> load_bytes (map Some l ++ rest) 0 n = Some l.
Proof.
  intros ->. unfold load_bytes.
  replace (_ && _ && _) with true.
  - rewrite Nat2Z.id. cbn [Z.to_nat skipn].
    rewrite firstn_app, length_map, Nat.sub_diag, firstn_0, app_nil_r.
    rewrite <- (length_map Some), firstn_all. apply all_assigned_map.
  - symmetry. rewrite !andb_true_iff, !Z.leb_le, length_app, length_map. lia.
Qed.

Ltac len_tac :=
  repeat match goal with x := _ |- _ => subst x end;
  rewrite ?length_app, ?length_map, ?repeat_length, ?length_skipn;
  cbn [length]; lia.

Section SendCommand.
Variable cs : bool.
Variable env : Env.
Variable fuel : nat.
Variable f : fd.
Variable cmd : byte * byte.

(** Without an argument the request is the four letters and the
    carriage return. *)
Lemma xb_send_command_plain formatted :
  xb_send_command cs env fuel f cmd EmptyString formatted =
    (ret_ <- xb_write env f (at_request cmd []) ;;
     wait_for_ok cs env fuel f ;;; ret ret_).
Proof. reflexivity. Qed.

(** An argument of at most 251 bytes: the whole request is written. *)
Lemma xb_send_command_fits c format s :
  (length s <= 251)%nat ->
  xb_send_command cs env fuel f cmd (String c format) (Some s) =
    (ret_ <- xb_write env f (at_request cmd s) ;;
     wait_for_ok cs env fuel f ;;; ret ret_).
Proof.
  intros Hs. unfold xb_send_command, vsnprintf, sizeof_buf.
  change (256 - 4 - 1) with 251.
  rewrite firstn_all2 by (change (Z.to_nat 251) with 251%nat; lia).
  change ([Some "A"%byte; Some "T"%byte; Some (fst cmd); Some (snd cmd)]
            ++ repeat None 252)
    with (map Some ["A"%byte; "T"%byte; fst cmd; snd cmd] ++ repeat None 252).
  set (pre := ["A"%byte; "T"%byte; fst cmd; snd cmd]).
  rewrite store_bytes_at by len_tac.
  replace ((Z.of_nat (length s) <? 0) || (256 <=? Z.of_nat (length s)))
    with false
    by (symmetry; apply orb_false_iff; rewrite Z.ltb_ge, Z.leb_gt; lia).
  rewrite map_app. cbn [map]. rewrite <- !app_assoc. cbn [app].
  rewrite (app_assoc (map Some pre) (map Some s)).
  rewrite store_at
    by (subst pre; rewrite length_app, !length_map; cbn [length]; lia).
  rewrite <- app_assoc.
  change (Some x0d :: ?l) with (map Some [x0d] ++ l).
  rewrite !app_assoc, <- !map_app, <- app_assoc.
  rewrite load_bytes_prefix
    by (subst pre; rewrite !length_app; cbn [length]; lia).
  reflexivity.
Qed.

(** An argument of 252 to 255 bytes passes the length check of line 110
    although the request no longer fits: the carriage return is stored
    past the end of [buf]. *)
Lemma xb_send_command_overrun c format s t :
  (252 <= length s <= 255)%nat ->
  xb_send_command cs env fuel f cmd (String c format) (Some s) t =
    ([], Undefined).
Proof.
  intros Hs. unfold xb_send_command, vsnprintf, sizeof_buf.
  change (256 - 4 - 1) with 251.
  change ([Some "A"%byte; Some "T"%byte; Some (fst cmd); Some (snd cmd)]
            ++ repeat None 252)
    with (map Some ["A"%byte; "T"%byte; fst cmd; snd cmd] ++ repeat None 252).
  set (pre := ["A"%byte; "T"%byte; fst cmd; snd cmd]).
  assert (Hk : length (firstn (Z.to_nat 251) s ++ [x00]) = 252%nat).
  { rewrite length_app, length_firstn.
    change (Z.to_nat 251) with 251%nat. cbn [length]. lia. }
  rewrite store_bytes_at by (rewrite ?Hk; len_tac).
  replace ((Z.of_nat (length s) <? 0) || (256 <=? Z.of_nat (length s)))
    with false
    by (symmetry; apply orb_false_iff; rewrite Z.ltb_ge, Z.leb_gt; lia).
  rewrite store_outside; [reflexivity|].
  rewrite !length_app, !length_map, length_skipn, Hk, repeat_length.
  subst pre. cbn [length]. rewrite length_firstn.
  change (Z.to_nat 251) with 251%nat. lia.
Qed.

(** From 256 bytes on the call is refused. *)
Lemma xb_send_command_refused c format s t :
  (256 <= length s)%nat ->
  xb_send_command cs env fuel f cmd (String c format) (Some s) t =
    ([], Ret (-1)).
Proof.
  intros Hs. unfold xb_send_command, vsnprintf, sizeof_buf.
  change (256 - 4 - 1) with 251.
  change ([Some "A"%byte; Some "T"%byte; Some (fst cmd); Some (snd cmd)]
            ++ repeat None 252)
    with (map Some ["A"%byte; "T"%byte; fst cmd; snd cmd] ++ repeat None 252).
  assert (Hk : length (firstn (Z.to_nat 251) s ++ [x00]) = 252%nat).
  { rewrite length_app, length_firstn.
    change (Z.to_nat 251) with 251%nat. cbn [length]. lia. }
  rewrite store_bytes_at by (rewrite ?Hk; len_tac).
  replace ((Z.of_nat (length s) <? 0) || (256 <=? Z.of_nat (length s)))
    with true; [reflexivity|].
  symmetry. apply orb_true_iff. right. apply Z.leb_le. lia.
Qed.

End SendCommand.

(** C2.  The request built for an argument of [n] bytes has [n + 5] bytes
    and exceeds the 256-byte buffer from [n = 252] on.  For an argument
    of 252 to 255 bytes [xb_send_command] does not return -1: it goes on
    to store the carriage return behind the last cell of the buffer. *)
Theorem C2_send_command_overrun (cs : bool) (env : Env) (fuel : nat)
    (f : fd) (cmd : byte * byte) (s : list byte) (t : trace) :
  (252 <= length s <= 255)%nat ->
  (256 < length (at_request cmd s))%nat /\
  xb_send_command cs env fuel f cmd "%s" (Some s) t = ([], Undefined).
Proof.
  intros Hs. split.
  - unfold at_request. rewrite !length_app. simpl. lia.
  - now apply xb_send_command_overrun.
Qed.

Lemma C2_send_command_overrun_witness :
  (256 < length (at_request ("D"%byte, "N"%byte) (repeat "x"%byte 252)))%nat /\
  xb_send_command true ok_line 1 Xb ("D"%byte, "N"%byte) "%s"
    (Some (repeat "x"%byte 252)) [] = ([], Undefined).
Proof.
  apply (C2_send_command_overrun true ok_line 1 Xb ("D"%byte, "N"%byte)
           (repeat "x"%byte 252) []).
  rewrite repeat_length. lia.
Defined.

(** * The checksum *)

Lemma lxor_mod_pow2 (a b n : Z) :
  0 <= n -> Z.lxor a b mod 2 ^ n = Z.lxor (a mod 2 ^ n) (b mod 2 ^ n).
Proof.
  intros Hn. apply Z.bits_inj'. intros m Hm.
  rewrite Z.lxor_spec. destruct (Z.lt_ge_cases m n) as [Hlt | Hge].
  - rewrite !Z.mod_pow2_bits_low by lia. apply Z.lxor_spec.
  - rewrite !Z.mod_pow2_bits_high by lia. reflexivity.
Qed.

Lemma lxor_u16_range (a b : Z) :
  0 <= a < 65536 -> 0 <= b < 65536 -> 0 <= Z.lxor a b < 65536.
Proof.
  intros Ha Hb.
  assert (H : Z.lxor a b mod 2 ^ 16 = Z.lxor a b).
  { rewrite lxor_mod_pow2 by lia.
    change (2 ^ 16) with 65536. now rewrite !Z.mod_small by lia. }
  rewrite <- H. change (2 ^ 16) with 65536. apply Z.mod_pos_bound. lia.
Qed.

Lemma land_top_bit (rem : Z) :
  (Z.land rem 0x8000 =? 0) = negb (Z.testbit rem 15).
Proof.
  assert (H : Z.land rem 0x8000 = if Z.testbit rem 15 then 0x8000 else 0).
  { apply Z.bits_inj'. intros m Hm. rewrite Z.land_spec.
    change 0x8000 with (2 ^ 15). rewrite Z.pow2_bits_eqb by lia.
    destruct (15 =? m) eqn:E.
    - apply Z.eqb_eq in E. subst m. rewrite andb_true_r.
      destruct (Z.testbit rem 15); [|now rewrite Z.bits_0].
      now rewrite Z.pow2_bits_eqb, Z.eqb_refl by lia.
    - rewrite andb_false_r.
      destruct (Z.testbit rem 15); [|now rewrite Z.bits_0].
      now rewrite Z.pow2_bits_eqb, E by lia. }
  rewrite H. now destruct (Z.testbit rem 15).
Qed.

Lemma crc_shift_ref (rem : Z) :
  0 <= rem < 65536 ->
  crc_shift rem = crc16_shift_ref rem /\ 0 <= crc_shift rem < 65536.
Proof.
  intros Hrem. unfold crc_shift, crc16_shift_ref, u16.
  rewrite land_top_bit, Z.shiftl_mul_pow2 by lia.
  change (2 ^ 1) with 2. change (2 ^ 16) with 65536.
  replace (rem * 2) with (2 * rem) by lia.
  pose proof (Z.mod_pos_bound (2 * rem) 65536 ltac:(lia)) as Hm.
  destruct (Z.testbit rem 15); cbn [negb].
  - assert (E : Z.lxor (2 * rem) 0x1021 mod 65536
                = Z.lxor ((2 * rem) mod 65536) 0x1021)
      by (change 65536 with (2 ^ 16); now rewrite lxor_mod_pow2 by lia).
    rewrite E. split; [reflexivity|]. apply lxor_u16_range; lia.
  - split; [reflexivity | lia].
Qed.

Lemma crc_shift_iter (n : nat) (rem : Z) :
  0 <= rem < 65536 ->
  Nat.iter n crc_shift rem = Nat.iter n crc16_shift_ref rem /\
  0 <= Nat.iter n crc_shift rem < 65536.
Proof.
  intros Hrem. induction n as [|n [IH Hr]]; [now split|].
  rewrite !Nat.iter_succ, <- IH. now apply crc_shift_ref.
Qed.

(** The byte shifted into the high half of the remainder: whatever the
    signedness of [char], the conversion to [uint16_t] leaves
    [byte * 256]. *)
Lemma char_shift_u16 (cs : bool) (b : byte) :
  Z.shiftl (char_val cs b) 8 mod 2 ^ 16 = byte_to_Z b * 256.
Proof.
  pose proof (byte_to_Z_range b) as Hb. rewrite Z.shiftl_mul_pow2 by lia.
  change (2 ^ 8) with 256. change (2 ^ 16) with 65536. unfold char_val.
  destruct (cs && (128 <=? byte_to_Z b)).
  - replace ((byte_to_Z b - 256) * 256)
      with (byte_to_Z b * 256 + (-1) * 65536) by lia.
    rewrite Z_mod_plus_full. apply Z.mod_small. lia.
  - apply Z.mod_small. lia.
Qed.

Lemma crc_update_ref (cs : bool) (rem : Z) (b : byte) :
  0 <= rem < 65536 ->
  crc_update cs rem b = crc16_update_ref rem b /\
  0 <= crc_update cs rem b < 65536.
Proof.
  intros Hrem. unfold crc_update, crc16_update_ref, u16.
  rewrite lxor_mod_pow2, char_shift_u16 by lia.
  change (2 ^ 16) with 65536. rewrite Z.mod_small by lia.
  apply crc_shift_iter. pose proof (byte_to_Z_range b).
  apply lxor_u16_range; lia.
Qed.

Lemma crc_fold_ref (cs : bool) (data : list byte) : forall rem,
  0 <= rem < 65536 ->
  fold_left (crc_update cs) data rem = fold_left crc16_update_ref data rem /\
  0 <= fold_left (crc_update cs) data rem < 65536.
Proof.
  induction data as [|b data IH]; intros rem Hrem; [now split|].
  cbn [fold_left]. destruct (crc_update_ref cs rem b Hrem) as [<- Hr].
  now apply IH.
Qed.

(** [xmodem_crc] computes CRC-16/XMODEM over the first 128 bytes. *)
Lemma xmodem_crc_ref (cs : bool) (data : list byte) :
  xmodem_crc cs data = crc16_xmodem_ref (firstn 128 data) /\
  0 <= xmodem_crc cs data < 65536.
Proof.
  unfold xmodem_crc, crc16_xmodem_ref. apply crc_fold_ref. lia.
Qed.

(** Whatever the byte order of the host, the two bytes handed to
    [xb_write] are the high byte, then the low byte. *)
Lemma u16_bytes_htobe16 (le : bool) (x : Z) :
  0 <= x < 65536 ->
  u16_bytes le (htobe16 le x) = [Z_to_byte (x / 256); Z_to_byte (x mod 256)].
Proof.
  intros Hx. unfold u16_bytes, htobe16, bswap16. destruct le; [|reflexivity].
  pose proof (Z.mod_pos_bound x 256 ltac:(lia)) as Hlo.
  assert (Hhi : 0 <= x / 256 < 256)
    by (split; [apply Z.div_pos | apply Z.div_lt_upper_bound]; lia).
  rewrite (Z.mod_small (x / 256)) by lia.
  rewrite (Z.add_comm (x mod 256 * 256)).
  rewrite Z_mod_plus_full, Z_div_plus_full by lia.
  rewrite (Z.mod_small (x / 256)), (Z.div_small (x / 256)) by lia.
  reflexivity.
Qed.

(** The reference on the customary check input, and on a block of 0xFF. *)
Example crc16_xmodem_check_value :
  crc16_xmodem_ref
    ["1"%byte; "2"%byte; "3"%byte; "4"%byte; "5"%byte; "6"%byte; "7"%byte;
     "8"%byte; "9"%byte] = 0x31C3.
Proof. vm_compute. reflexivity. Qed.

Example xmodem_crc_all_ff (cs : bool) : xmodem_crc cs (fw_ff 128) = 0xEDA9.
Proof. destruct cs; vm_compute; reflexivity. Qed.

(** * One block *)

Lemma bind_eq {A B} (m : M A) (f : A -> M B) t e1 a e2 r :
  m t = (e1, Ret a) -> f a (t ++ e1) = (e2, r) ->
  bind m f t = (e1 ++ e2, r).
Proof. intros H1 H2. unfold bind. now rewrite H1, H2. Qed.

Lemma forallb_weaken {A} (P Q : A -> bool) (l : list A) :
  (forall x, P x = true -> Q x = true) ->
  forallb P l = true -> forallb Q l = true.
Proof. intros H. rewrite !forallb_forall. auto. Qed.

Lemma write_not_read (e : event) : is_write Xb e = true -> not_read e = true.
Proof. destruct e; simpl; intros H; try discriminate; reflexivity. Qed.

Section Block.
Variable cs le : bool.
Variable env : Env.
Variable fwbuf : cells.

(** Every way a round of the block loop can go.  Either something fails
    before the reply is read; then no [read] was issued and the line took
    a prefix of the block.  Or the whole block went out, one byte of
    reply was read, and the round ends with the diagnostic when that byte
    is not ACK and with the progress display when it is. *)
Lemma send_block_cases (block i : Z) (reply : option byte) (t : trace) :
  exists evs r,
    send_block cs le env fwbuf block i reply t = (evs, r) /\
    ((forallb not_read evs = true /\
      (r = Ret (inl (-1)) \/ r = Undefined) /\
      exists rest, frame_of cs le fwbuf block i = wire evs ++ rest) \/
     (exists E,
        forallb (is_write Xb) E = true /\
        wire E = frame_of cs le fwbuf block i /\
        load_bytes fwbuf (u32 (i * 128)) 128 <> None /\
        let r0 := read_at env (t ++ E) Xb 1 in
        let reply' := reply_after r0 reply in
        if not_acked cs r0
        then evs = E ++ [ERead Xb 1 r0; nak_warning cs i reply'] /\
             r = Ret (inl (-1))
        else evs = E ++ ERead Xb 1 r0 :: progress i /\
             r = Ret (inr reply'))).
Proof.
  unfold frame_of, send_block.
  destruct (xb_write_spec env (header block) t)
    as (E1 & r1 & H1 & Hw1 & [[-> Hwire1] | [-> (k1 & Hk1 & Hwire1)]]).
  2: { do 2 eexists. split; [eapply bind_eq; [exact H1 | reflexivity]|].
       left. split; [|split; [now left|]].
       - rewrite forallb_app, (forallb_weaken _ _ _ write_not_read Hw1).
         reflexivity.
       - rewrite wire_app, Hwire1. cbn [wire flat_map wire_of app].
         rewrite app_nil_r.
         exists (skipn k1 (header block) ++
                 match load_bytes fwbuf (u32 (i * 128)) 128 with
                 | Some data =>
                     data ++ u16_bytes le (htobe16 le (xmodem_crc cs data))
                 | None => []
                 end).
         now rewrite app_assoc, firstn_skipn. }
  destruct (load_bytes fwbuf (u32 (i * 128)) 128) as [data|] eqn:Hload.
  2: { do 2 eexists. split; [eapply bind_eq; [exact H1 | reflexivity]|].
       left. split; [|split; [now right|]].
       - rewrite app_nil_r. exact (forallb_weaken _ _ _ write_not_read Hw1).
       - exists []. now rewrite !app_nil_r. }
  destruct (xb_write_spec env data (t ++ E1))
    as (E2 & r2 & H2 & Hw2 & [[-> Hwire2] | [-> (k2 & Hk2 & Hwire2)]]).
  2: { do 2 eexists. split.
       { eapply bind_eq; [exact H1|]. cbn [Z.eqb negb].
         eapply bind_eq; [exact H2 | reflexivity]. }
       left. split; [|split; [now left|]].
       - rewrite !forallb_app, (forallb_weaken _ _ _ write_not_read Hw1),
           (forallb_weaken _ _ _ write_not_read Hw2). reflexivity.
       - rewrite !wire_app, Hwire1, Hwire2. cbn [wire flat_map wire_of app].
         rewrite app_nil_r.
         exists (skipn k2 data ++
                 u16_bytes le (htobe16 le (xmodem_crc cs data))).
         now rewrite <- app_assoc, (app_assoc (firstn k2 data)), firstn_skipn. }
  set (crc := u16_bytes le (htobe16 le (xmodem_crc cs data))).
  destruct (xb_write_spec env crc ((t ++ E1) ++ E2))
    as (E3 & r3 & H3 & Hw3 & [[-> Hwire3] | [-> (k3 & Hk3 & Hwire3)]]).
  2: { do 2 eexists. split.
       { eapply bind_eq; [exact H1|]. cbn [Z.eqb negb].
         eapply bind_eq; [exact H2|]. cbn [Z.eqb negb].
         eapply bind_eq; [exact H3 | reflexivity]. }
       left. split; [|split; [now left|]].
       - rewrite !forallb_app, (forallb_weaken _ _ _ write_not_read Hw1),
           (forallb_weaken _ _ _ write_not_read Hw2),
           (forallb_weaken _ _ _ write_not_read Hw3). reflexivity.
       - rewrite !wire_app, Hwire1, Hwire2, Hwire3.
         cbn [wire flat_map wire_of app]. rewrite app_nil_r.
         exists (skipn k3 crc).
         now rewrite <- !app_assoc, firstn_skipn. }
  set (E := E1 ++ E2 ++ E3).
  assert (HwE : forallb (is_write Xb) E = true)
    by (subst E; now rewrite !forallb_app, Hw1, Hw2, Hw3).
  assert (HwireE : wire E = header block ++ data ++ crc)
    by (subst E; now rewrite !wire_app, Hwire1, Hwire2, Hwire3).
  assert (Ht : ((t ++ E1) ++ E2) ++ E3 = t ++ E)
    by (subst E; now rewrite <- !app_assoc).
  destruct (not_acked cs (read_at env (t ++ E) Xb 1)) eqn:Hack.
  - do 2 eexists. split.
    { eapply bind_eq; [exact H1|]. cbn [Z.eqb negb].
      eapply bind_eq; [exact H2|]. cbn [Z.eqb negb].
      eapply bind_eq; [exact H3|]. cbn [Z.eqb negb].
      eapply bind_eq; [reflexivity|]. cbn [sys_read fst snd].
      rewrite Ht, Hack. reflexivity. }
    right. exists E. repeat split; try assumption; try discriminate.
    cbv zeta. rewrite Hack. split; [|reflexivity].
    subst E. rewrite <- !app_assoc. reflexivity.
  - unfold progress.
    destruct (u32 (i + 1) mod 50 =? 0) eqn:E50;
      (do 2 eexists; split;
       [ eapply bind_eq; [exact H1|]; cbn [Z.eqb negb];
         eapply bind_eq; [exact H2|]; cbn [Z.eqb negb];
         eapply bind_eq; [exact H3|]; cbn [Z.eqb negb];
         eapply bind_eq; [reflexivity|]; cbn [sys_read fst snd];
         rewrite Ht, Hack; reflexivity
       | right; exists E; repeat split; try assumption; try discriminate;
         cbv zeta; rewrite Hack; split; [|reflexivity];
         subst E; rewrite <- !app_assoc; reflexivity ]).
Qed.

End Block.

(** * The block loop *)

Lemma skip_no_read (l1 l2 pre post : list event) (y : event) :
  forallb not_read l1 = true -> is_read y = true ->
  l1 ++ l2 = pre ++ y :: post ->
  exists pre', pre = l1 ++ pre' /\ l2 = pre' ++ y :: post.
Proof.
  revert pre. induction l1 as [|a l1 IH]; intros pre Hl1 Hy Heq.
  - exists pre. auto.
  - cbn [forallb] in Hl1. apply andb_prop in Hl1 as [Ha Hl1].
    destruct pre as [|b pre]; cbn [app] in Heq; inversion Heq; subst.
    + unfold not_read in Ha. rewrite Hy in Ha. discriminate.
    + destruct (IH pre Hl1 Hy H1) as (pre' & -> & ->). now exists pre'.
Qed.

Lemma no_read_no_split (l pre post : list event) (y : event) :
  forallb not_read l = true -> is_read y = true ->
  l <> pre ++ y :: post.
Proof.
  intros Hl Hy Heq. rewrite <- (app_nil_r l) in Heq.
  destruct (skip_no_read _ _ _ _ _ Hl Hy Heq) as (pre' & _ & H).
  destruct pre'; discriminate.
Qed.

Lemma count_reads_app (a b : list event) :
  count_reads (a ++ b) = (count_reads a + count_reads b)%nat.
Proof. unfold count_reads. now rewrite filter_app, length_app. Qed.

Lemma count_reads_none (l : list event) :
  forallb not_read l = true -> count_reads l = 0%nat.
Proof.
  unfold count_reads. induction l as [|e l IH]; [reflexivity|].
  cbn [forallb filter]. intros H. apply andb_prop in H as [He Hl].
  unfold not_read in He. destruct (is_read e); [discriminate|]. auto.
Qed.

Lemma no_read_progress (i : Z) : forallb not_read (progress i) = true.
Proof. unfold progress. destruct (_ =? 0); reflexivity. Qed.

Lemma wire_progress (i : Z) : wire (progress i) = [].
Proof. unfold progress. destruct (_ =? 0); reflexivity. Qed.

Lemma block_no_S (p : nat) : u8 (block_no p + 1) = block_no (S p).
Proof.
  unfold block_no, u8. rewrite Zplus_mod_idemp_l. f_equal. lia.
Qed.

Lemma index_of_S (p : nat) : u32 (index_of p + 1) = index_of (S p).
Proof.
  unfold index_of, u32. rewrite Zplus_mod_idemp_l. f_equal. lia.
Qed.

Lemma frames_S (cs le : bool) (fwbuf : cells) (p k : nat) :
  frames cs le fwbuf p (S k) =
    nth_frame cs le fwbuf p ++ frames cs le fwbuf (S p) k.
Proof. reflexivity. Qed.

Section Loop.
Variable cs le : bool.
Variable env : Env.
Variable fwbuf : cells.
Variable len : Z.

(** One round of the loop, and what is left of it. *)
Lemma send_blocks_S fuel p reply t evs r :
  send_blocks cs le env (S fuel) fwbuf len (block_no p) (index_of p) reply t
    = (evs, r) ->
  index_of p < len / 128 ->
  exists eb rb,
    send_block cs le env fwbuf (block_no p) (index_of p) reply t = (eb, rb) /\
    match rb with
    | Ret (inl code) => evs = eb /\ r = Ret code
    | Ret (inr reply') =>
        exists evs',
          send_blocks cs le env fuel fwbuf len (block_no (S p))
            (index_of (S p)) reply' (t ++ eb) = (evs', r) /\
          evs = eb ++ evs'
    | Exited s => evs = eb /\ r = Exited s
    | Diverge => evs = eb /\ r = Diverge
    | Undefined => evs = eb /\ r = Undefined
    end.
Proof.
  intros H Hi. cbn [send_blocks] in H.
  apply Z.ltb_lt in Hi. rewrite Hi in H. unfold bind in H.
  rewrite block_no_S, index_of_S in H.
  destruct (send_block cs le env fwbuf (block_no p) (index_of p) reply t)
    as [eb [[code|reply']|s| |]]; exists eb; eexists;
    (split; [reflexivity|]); try (inversion H; subst; now split).
  - cbn [ret] in H. inversion H; subst. now rewrite app_nil_r.
  - destruct (send_blocks cs le env fuel fwbuf len _ _ reply' (t ++ eb))
      as [evs' r'] eqn:Hrec. inversion H; subst. now exists evs'.
Qed.

(** What the line has taken when the loop ends: the complete frames of
    the rounds that ran, followed, unless the loop ran to its end, by a
    prefix of the next frame. *)
Lemma send_blocks_wire : forall fuel p reply t evs r,
  send_blocks cs le env fuel fwbuf len (block_no p) (index_of p) reply t
    = (evs, r) ->
  exists k tail,
    wire evs = frames cs le fwbuf p k ++ tail /\
    (forall j, (j < k)%nat -> index_of (p + j) < len / 128) /\
    ((r = Ret 0 /\ tail = [] /\ len / 128 <= index_of (p + k)) \/
     (r <> Ret 0 /\ exists rest, nth_frame cs le fwbuf (p + k) = tail ++ rest)).
Proof.
  induction fuel as [|fuel IH]; intros p reply t evs r H.
  - cbn [send_blocks] in H. exists 0%nat, []. rewrite Nat.add_0_r.
    destruct (index_of p <? len / 128) eqn:Hi; inversion H; subst.
    + repeat split; [lia|]. right. split; [discriminate|]. now eexists.
    + apply Z.ltb_ge in Hi. repeat split; [lia|]. now left.
  - destruct (Z.lt_ge_cases (index_of p) (len / 128)) as [Hi | Hi].
    2: { cbn [send_blocks] in H. apply Z.ltb_ge in Hi. rewrite Hi in H.
         inversion H; subst. exists 0%nat, []. rewrite Nat.add_0_r.
         apply Z.ltb_ge in Hi. repeat split; [lia|]. now left. }
    destruct (send_blocks_S _ _ _ _ _ _ H Hi) as (eb & rb & Hb & Hrest).
    destruct (send_block_cases cs le env fwbuf (block_no p) (index_of p)
                reply t) as (eb' & rb' & Hb' & Hcases).
    rewrite Hb in Hb'. inversion Hb'; subst eb' rb'. clear Hb'.
    destruct Hcases
      as [(Hnr & Hrb & rest & Hrest') | (E & HwE & HwireE & _ & Hreply)].
    + exists 0%nat, (wire eb). rewrite Nat.add_0_r.
      assert (evs = eb /\ r <> Ret 0) as [-> Hr].
      { destruct Hrb as [-> | ->]; destruct Hrest as [-> ->];
          split; try reflexivity; discriminate. }
      repeat split; [lia|]. right. split; [exact Hr|]. now exists rest.
    + cbv zeta in Hreply.
      destruct (not_acked cs (read_at env (t ++ E) Xb 1)).
      * destruct Hreply as [-> ->]. destruct Hrest as [-> ->].
        exists 0%nat. eexists. rewrite Nat.add_0_r.
        split; [reflexivity|]. split; [lia|]. right.
        split; [discriminate|]. exists [].
        rewrite wire_app, HwireE. cbn. now rewrite !app_nil_r.
      * destruct Hreply as [-> ->].
        destruct Hrest as (evs' & Hrec & ->).
        destruct (IH _ _ _ _ _ Hrec) as (k & tail & Hwire & Hlt & Hres).
        exists (S k), tail. rewrite frames_S, !wire_app, HwireE, Hwire.
        cbn [wire flat_map wire_of app]. fold (wire (progress (index_of p))).
        rewrite wire_progress. cbn [app].
        replace (p + S k)%nat with (S p + k)%nat by lia.
        split; [now rewrite app_nil_r, <- app_assoc|]. split; [|exact Hres].
        intros [|j] Hj; [now rewrite Nat.add_0_r|].
        replace (p + S j)%nat with (S p + j)%nat by lia. apply Hlt. lia.
Qed.


End Loop.

(** * Frames *)

Lemma all_assigned_length (l : cells) : forall d,
  all_assigned l = Some d -> length d = length l.
Proof.
  induction l as [|[b|] l IH]; intros d H; cbn [all_assigned] in H.
  - now inversion H.
  - destruct (all_assigned l) as [bs|]; inversion H; subst.
    cbn [length]. f_equal. now apply IH.
  - discriminate.
Qed.

Lemma load_bytes_length (buf : cells) (off n : Z) (d : list byte) :
  load_bytes buf off n = Some d -> length d = Z.to_nat n.
Proof.
  unfold load_bytes. destruct (_ && _ && _) eqn:E; [|discriminate].
  rewrite !andb_true_iff, !Z.leb_le in E. intros H.
  apply all_assigned_length in H. rewrite H, length_firstn, length_skipn. lia.
Qed.

Lemma header_block_no (p : nat) :
  header (block_no p) =
    [x01; Z_to_byte ((Z.of_nat p + 1) mod 256);
     Z_to_byte (255 - (Z.of_nat p + 1) mod 256)].
Proof.
  unfold header, block_no, u8, SOH. change (2 ^ 8) with 256.
  replace (1 + Z.of_nat p) with (Z.of_nat p + 1) by lia.
  pose proof (Z.mod_pos_bound (Z.of_nat p + 1) 256 ltac:(lia)) as H.
  rewrite Z.mod_mod by lia.
  now rewrite (Z.mod_small (255 - _)) by lia.
Qed.

(** The frame of round [p] is the protocol's frame for block number
    [(p + 1) mod 256]. *)
Lemma nth_frame_ref (cs le : bool) (fwbuf : cells) (p : nat) data :
  load_bytes fwbuf (u32 (index_of p * 128)) 128 = Some data ->
  nth_frame cs le fwbuf p = frame_ref ((Z.of_nat p + 1) mod 256) data.
Proof.
  intros H. unfold nth_frame, frame_of, frame_ref.
  rewrite H, header_block_no.
  destruct (xmodem_crc_ref cs data) as [Hcrc Hrange].
  rewrite u16_bytes_htobe16 by exact Hrange.
  apply load_bytes_length in H.
  rewrite Hcrc, firstn_all2 by (rewrite H; reflexivity).
  reflexivity.
Qed.

Lemma nth_frame_header (cs le : bool) (fwbuf : cells) (p : nat) :
  exists body,
    nth_frame cs le fwbuf p =
      [x01; Z_to_byte ((Z.of_nat p + 1) mod 256);
       Z_to_byte (255 - (Z.of_nat p + 1) mod 256)] ++ body.
Proof.
  unfold nth_frame, frame_of. rewrite header_block_no. now eexists.
Qed.






(** C3.  Whatever the image and whatever the device does, the line takes
    the frames of the rounds 0, 1, 2, ... of the block loop in order,
    possibly followed by a prefix of the next one when the loop is left
    early.  The frame of round [p], the [(p + 1)]-th block, starts with
    SOH, the byte [(p + 1) mod 256] and the byte 255 minus that; with its
    payload in memory it is the protocol's frame for that block number.
    So the 257th block carries 1 and 254; and a block whose sequence
    number is a multiple of 256 carries 0 and 255. *)
Theorem C3_block_number_modulo_256 (cs le : bool) (env : Env) (fuel : nat)
    (fwbuf : cells) (len : Z) (t : trace) :
  (exists k tail,
     wire (fst (send_blocks cs le env fuel fwbuf len 1 0 None t)) =
       frames cs le fwbuf 0 k ++ tail /\
     ((snd (send_blocks cs le env fuel fwbuf len 1 0 None t) = Ret 0 /\
       tail = []) \/
      (snd (send_blocks cs le env fuel fwbuf len 1 0 None t) <> Ret 0 /\
       exists rest, nth_frame cs le fwbuf k = tail ++ rest))) /\
  (forall p, exists body,
     nth_frame cs le fwbuf p =
       [x01; Z_to_byte ((Z.of_nat p + 1) mod 256);
        Z_to_byte (255 - (Z.of_nat p + 1) mod 256)] ++ body) /\
  (forall p data,
     load_bytes fwbuf (u32 (index_of p * 128)) 128 = Some data ->
     nth_frame cs le fwbuf p = frame_ref ((Z.of_nat p + 1) mod 256) data) /\
  (exists body, nth_frame cs le fwbuf 256 = [x01; x01; xfe] ++ body) /\
  (forall p,
     (Z.of_nat p + 1) mod 256 = 0 ->
     exists body, nth_frame cs le fwbuf p = [x01; x00; xff] ++ body).
Proof.
  split; [|split; [|split; [|split]]].
  - change (send_blocks cs le env fuel fwbuf len 1 0 None t)
      with (send_blocks cs le env fuel fwbuf len (block_no 0) (index_of 0)
              None t).
    destruct (send_blocks cs le env fuel fwbuf len (block_no 0) (index_of 0)
                None t) as [evs r] eqn:Hrun.
    destruct (send_blocks_wire _ _ _ _ _ _ _ _ _ _ _ Hrun)
      as (k & tail & Hwire & _ & Hres).
    exists k, tail. split; [exact Hwire|]. cbn [snd Nat.add] in *.
    destruct Hres as [(-> & -> & _) | (Hr & Hrest)]; [now left | now right].
  - apply nth_frame_header.
  - apply nth_frame_ref.
  - apply (nth_frame_header cs le fwbuf 256).
  - intros p Hp. destruct (nth_frame_header cs le fwbuf p) as [body ->].
    rewrite Hp. now exists body.
Qed.

Lemma C3_block_number_witness :
  nth_frame true true (fwbuf_ff (256 * 128)) 255 = frame_ref 0 (fw_ff 128) /\
  exists body,
    nth_frame true true (fwbuf_ff (256 * 128)) 255 = [x01; x00; xff] ++ body.
Proof.
  destruct (C3_block_number_modulo_256 true true (device_ok []) 0
              (fwbuf_ff (256 * 128)) 0 []) as (_ & _ & Href & _ & Hzero).
  split.
  - apply (Href 255%nat (fw_ff 128)). vm_compute. reflexivity.
  - apply Hzero. reflexivity.
Defined.

(** An image of 256 blocks is accepted and sent in full; the 256th block
    goes out with block number 0. *)
Lemma C3_block_number_zero_counterexample :
  let run := xb_firmware_update true true
               (device_ok (fw_ff (256 * 128))) 256 [] in
  snd run = Ret 0 /\
  firstn 3 (skipn (1 + 255 * 133) (wire (fst run))) = [x01; x00; xff].
Proof. vm_compute. split; reflexivity. Qed.






(** * Menu selection and go-ahead *)

Lemma nth_last {A} (l : list A) (d : A) :
  l <> [] -> nth (length l - 1) l d = last l d.
Proof.
  induction l as [|a l IH]; [congruence|]. intros _.
  destruct l as [|b l]; [reflexivity|].
  specialize (IH ltac:(discriminate)).
  cbn [length Nat.sub] in *. rewrite Nat.sub_0_r in IH.
  change (nth (S (length l)) (a :: b :: l) d) with (nth (length l) (b :: l) d).
  change (last (a :: b :: l) d) with (last (b :: l) d).
  exact IH.
Qed.

Lemma bind_fst {A B} (m : M A) (f : A -> M B) t :
  exists rest, fst (bind m f t) = fst (m t) ++ rest.
Proof.
  unfold bind. destruct (m t) as [e1 [a|s| |]]; cbn [fst];
    try (exists []; now rewrite app_nil_r).
  destruct (f a (t ++ e1)) as [e2 r]. now exists e2.
Qed.

Section Request.
Variable cs le : bool.
Variable env : Env.

Lemma emits_request_transfer : emits not_firmware (request_transfer cs env).
Proof.
  unfold request_transfer. apply emits_bind.
  { apply emits_xb_write. reflexivity. }
  intros w. destruct (negb (w =? 0)); [emits_tac|].
  apply emits_bind; [apply emits_xb_read; reflexivity|].
  intros [n buf]. emits_tac.
Qed.

Lemma request_transfer_fail t e1 w :
  xb_write env Xb ["1"%byte] t = (e1, Ret w) -> w <> 0 ->
  request_transfer cs env t =
    (e1 ++ [EWarnx "failed to enter programming mode" []], Ret (-1)).
Proof.
  intros H1 Hw. unfold request_transfer.
  eapply bind_eq; [exact H1|]. apply Z.eqb_neq in Hw. rewrite Hw. reflexivity.
Qed.

Lemma request_transfer_go t e1 e2 n buf :
  xb_write env Xb ["1"%byte] t = (e1, Ret 0) ->
  xb_read env Xb 128 (t ++ e1) = (e2, Ret (n, buf)) ->
  request_transfer cs env t =
    (e1 ++ e2 ++ fst (go_ahead_verdict n buf),
     Ret (snd (go_ahead_verdict n buf))).
Proof.
  intros H1 H2. unfold request_transfer.
  eapply bind_eq; [exact H1|]. cbn [Z.eqb negb].
  eapply bind_eq; [exact H2|]. unfold go_ahead_verdict.
  destruct (n <=? 0) eqn:En; [reflexivity|]. apply Z.leb_gt in En.
  destruct (xb_read_spec env Xb 128 (t ++ e1)) as (e2' & n' & buf' & H2' & Hn).
  rewrite H2 in H2'. inversion H2'; subst e2' n' buf'.
  destruct (Hn En) as [Hlen Hne].
  replace (Z.to_nat (n - 1)) with (length buf - 1)%nat by lia.
  rewrite nth_last by exact Hne.
  change 67 with (byte_to_Z "C"%byte).
  rewrite char_val_is by (vm_compute; reflexivity).
  destruct (Byte.eqb (last buf x00) "C"%byte); reflexivity.
Qed.

Lemma load_firmware_first t :
  exists rest,
    fst (load_firmware env t) = EFstat Fw (env_fstat env t Fw) :: rest.
Proof. unfold load_firmware. apply (bind_fst (sys_fstat env Fw)). Qed.

Lemma load_firmware_empty t :
  env_fstat env t Fw = Some 0 ->
  load_firmware env t =
    ([EFstat Fw (Some 0); EWarnx "empty firmware file!" []], Ret (inl (-1))).
Proof.
  intros H. unfold load_firmware, bind at 1. cbn [sys_fstat].
  rewrite H. reflexivity.
Qed.

(** When the go-ahead fails, [xb_firmware_update] is over. *)
Lemma xb_firmware_update_refused fuel t e g :
  request_transfer cs env t = (e, Ret g) -> g <> 0 ->
  xb_firmware_update cs le env fuel t = (e, Ret g).
Proof.
  intros H Hg. unfold xb_firmware_update, bind at 1. rewrite H.
  apply Z.eqb_neq in Hg. rewrite Hg. cbn. now rewrite app_nil_r.
Qed.

End Request.

(** C8.  After the menu selection has been written, the reply is read
    with [xb_read].  When nothing is read, or the read fails, the
    diagnostic is the one for the missing go-ahead; when the last byte of
    the reply is not 'C', it is the one for the unknown transfer type.
    In both cases [xb_firmware_update] returns -1 at once: the menu byte
    is all the line has taken, and the firmware file has not been
    touched. *)
Theorem C8_no_go_ahead_no_firmware (cs le : bool) (env : Env) (fuel : nat)
    (t : trace) (e1 e2 : list event) (n : Z) (buf : list byte) :
  xb_write env Xb ["1"%byte] t = (e1, Ret 0) ->
  xb_read env Xb 128 (t ++ e1) = (e2, Ret (n, buf)) ->
  n <= 0 \/ last buf x00 <> "C"%byte ->
  let diagnostic :=
    if n <=? 0
    then EWarnx "failed to read programming go-ahead" []
    else EWarnx "unknown transfer type" [] in
  xb_firmware_update cs le env fuel t = (e1 ++ e2 ++ [diagnostic], Ret (-1)) /\
  wire (e1 ++ e2 ++ [diagnostic]) = ["1"%byte] /\
  forallb not_firmware (e1 ++ e2 ++ [diagnostic]) = true.
Proof.
  intros H1 H2 Hbad diagnostic.
  pose proof (request_transfer_go cs env t e1 e2 n buf H1 H2) as Hreq.
  assert (Hv : go_ahead_verdict n buf = ([diagnostic], -1)).
  { unfold go_ahead_verdict, diagnostic. destruct (n <=? 0) eqn:En;
      [reflexivity|]. apply Z.leb_gt in En.
    destruct Hbad as [Hn | Hc]; [lia|].
    destruct (Byte.eqb (last buf x00) "C"%byte) eqn:Ec; [|reflexivity].
    apply Byte.byte_dec_bl in Ec. contradiction. }
  rewrite Hv in Hreq. cbn [fst snd] in Hreq.
  split; [|split].
  - apply xb_firmware_update_refused; [exact Hreq | discriminate].
  - destruct (xb_write_spec env ["1"%byte] t)
      as (e1' & r & H1' & _ & [[_ Hw] | [-> _]]);
      rewrite H1 in H1'; inversion H1'; subst.
    rewrite !wire_app, Hw.
    pose proof (emits_xb_read env not_write Xb 128
                  ltac:(reflexivity) ltac:(reflexivity) (t ++ e1')) as He2.
    rewrite H2 in He2. cbn [fst] in He2. rewrite (wire_no_write _ He2).
    unfold diagnostic. now destruct (n <=? 0).
  - pose proof (emits_request_transfer cs env t) as He.
    rewrite Hreq in He. exact He.
Qed.

Lemma C8_no_go_ahead_witness :
  let e1 := [EWrite Xb ["1"%byte] 1] in
  let e2 := [ERead Xb 128 (RData [x0d; x0a; "N"%byte]); EPoll Xb 100 0] in
  xb_firmware_update true true device_no_crc 5 [] =
    (e1 ++ e2 ++ [EWarnx "unknown transfer type" []], Ret (-1)) /\
  wire (e1 ++ e2 ++ [EWarnx "unknown transfer type" []]) = ["1"%byte] /\
  forallb not_firmware (e1 ++ e2 ++ [EWarnx "unknown transfer type" []])
    = true.
Proof.
  intros e1 e2.
  apply (C8_no_go_ahead_no_firmware true true device_no_crc 5 [] e1 e2 3
           [x0d; x0a; "N"%byte]).
  - reflexivity.
  - reflexivity.
  - right. discriminate.
Defined.

(** C9.  [xb_firmware_update] starts with the menu selection and the
    go-ahead; no event of that part concerns the firmware file or the
    allocator.  When that part fails the function is over and the file
    has not been looked at.  When it succeeds, the menu byte is on the
    line and a reply ending in 'C' has been read, and the very next event
    is the [fstat] of the firmware file.  An empty file is thus found out
    only then: the diagnostic is printed and -1 returned, with nothing
    but the menu byte sent. *)
Theorem C9_firmware_file_after_go_ahead (cs le : bool) (env : Env)
    (fuel : nat) (t : trace) :
  exists e_req g,
    request_transfer cs env t = (e_req, Ret g) /\
    forallb not_firmware e_req = true /\
    (g <> 0 -> xb_firmware_update cs le env fuel t = (e_req, Ret g)) /\
    (g = 0 ->
     (exists e1 e2 n buf,
        e_req = e1 ++ e2 /\
        xb_write env Xb ["1"%byte] t = (e1, Ret 0) /\
        xb_read env Xb 128 (t ++ e1) = (e2, Ret (n, buf)) /\
        0 < n /\ last buf x00 = "C"%byte) /\
     wire e_req = ["1"%byte] /\
     (exists rest,
        fst (xb_firmware_update cs le env fuel t) =
          e_req ++ EFstat Fw (env_fstat env (t ++ e_req) Fw) :: rest) /\
     (env_fstat env (t ++ e_req) Fw = Some 0 ->
      xb_firmware_update cs le env fuel t =
        (e_req ++ [EFstat Fw (Some 0); EWarnx "empty firmware file!" []],
         Ret (-1)))).
Proof.
  destruct (xb_write_spec env ["1"%byte] t)
    as (e1 & w & H1 & _ & [[-> Hw] | [-> _]]).
  2: { pose proof (request_transfer_fail cs env t e1 (-1) H1
                     ltac:(discriminate)) as Hreq.
       do 2 eexists. split; [exact Hreq|]. split.
       - pose proof (emits_request_transfer cs env t) as He.
         now rewrite Hreq in He.
       - split; [|discriminate]. intros _.
         apply xb_firmware_update_refused; [exact Hreq | discriminate]. }
  destruct (xb_read_spec env Xb 128 (t ++ e1)) as (e2 & n & buf & H2 & Hn).
  pose proof (request_transfer_go cs env t e1 e2 n buf H1 H2) as Hreq.
  do 2 eexists. split; [exact Hreq|]. split.
  { pose proof (emits_request_transfer cs env t) as He.
    now rewrite Hreq in He. }
  split.
  { intros Hg. apply xb_firmware_update_refused; [exact Hreq | exact Hg]. }
  unfold go_ahead_verdict in *.
  destruct (n <=? 0) eqn:En; [discriminate|]. apply Z.leb_gt in En.
  destruct (Byte.eqb (last buf x00) "C"%byte) eqn:Ec; [|discriminate].
  cbn [fst snd] in *. intros _. rewrite app_nil_r in *.
  apply Byte.byte_dec_bl in Ec.
  split; [now exists e1, e2, n, buf|].
  split.
  { rewrite wire_app, Hw.
    pose proof (emits_xb_read env not_write Xb 128
                  ltac:(reflexivity) ltac:(reflexivity) (t ++ e1)) as He2.
    rewrite H2 in He2. cbn [fst] in He2. now rewrite (wire_no_write _ He2). }
  split.
  - unfold xb_firmware_update, bind at 1. rewrite Hreq. cbn [Z.eqb negb].
    destruct (bind_fst (load_firmware env)
                (fun fw => match fw with
                           | inl e => ret e
                           | inr (fwbuf, len) =>
                               s <- send_blocks cs le env fuel fwbuf len 1 0
                                      None ;;
                               if negb (s =? 0) then ret s
                               else end_of_transmission cs env
                           end) (t ++ e1 ++ e2)) as [rest Hrest].
    destruct (load_firmware_first env (t ++ e1 ++ e2)) as [rest' Hfirst].
    match goal with
    | |- context [let (_, _) := ?run in _] => destruct run as [e3 r3] eqn:E3
    end.
    cbn [fst] in *. rewrite Hrest, Hfirst. cbn [app]. now eexists.
  - intros Hempty. unfold xb_firmware_update, bind at 1. rewrite Hreq.
    cbn [Z.eqb negb]. unfold bind.
    rewrite (load_firmware_empty env _ Hempty). cbn [ret].
    now rewrite app_nil_r.
Qed.

Lemma C9_firmware_file_witness :
  exists e_req,
    request_transfer true device_empty [] = (e_req, Ret 0) /\
    wire e_req = ["1"%byte] /\
    xb_firmware_update true true device_empty 5 [] =
      (e_req ++ [EFstat Fw (Some 0); EWarnx "empty firmware file!" []],
       Ret (-1)).
Proof.
  destruct (C9_firmware_file_after_go_ahead true true device_empty 5 [])
    as (e_req & g & Hreq & _ & _ & Hgo).
  exists e_req.
  assert (Hg : g = 0) by (vm_compute in Hreq; now inversion Hreq).
  subst g. destruct (Hgo eq_refl) as (_ & Hwire & _ & Hempty).
  split; [exact Hreq|]. split; [exact Hwire|]. apply Hempty. reflexivity.
Defined.

(** * The session *)

Section Probe.
Variable env : Env.

Lemma probe_attempt_run t :
  exists e n buf,
    probe_attempt env t = (EWrite Xb [x0d] (write_at env t Xb [x0d]) :: e,
                           Ret (n, buf)) /\
    forallb not_write e = true.
Proof.
  unfold probe_attempt, bind. rewrite xb_write_one. cbv zeta.
  set (t1 := t ++ [EWrite Xb [x0d] (write_at env t Xb [x0d])]).
  destruct (xb_read_spec env Xb 1024 t1) as (e & n & buf & Hr & _).
  pose proof (emits_xb_read env not_write Xb 1024
                ltac:(reflexivity) ltac:(reflexivity) t1) as He.
  subst t1. rewrite Hr in *. cbn [fst] in He. now exists e, n, buf.
Qed.

Lemma count_written_app p (a b : list event) :
  count_written p (a ++ b) = (count_written p a + count_written p b)%nat.
Proof. unfold count_written. now rewrite filter_app, length_app. Qed.

Lemma count_written_no_write p (e : list event) :
  forallb not_write e = true -> count_written p e = 0%nat.
Proof.
  unfold count_written. induction e as [|x e IH]; [reflexivity|].
  cbn [forallb filter]. intros H. apply andb_prop in H as [Hx He].
  destruct x; cbn [written]; auto. destruct f; [discriminate|auto].
Qed.

(** Every attempt writes exactly one carriage return. *)
Lemma count_probe_events k : forall t,
  count_written is_cr (probe_events env k t) = k.
Proof.
  induction k as [|k IH]; intros t; [reflexivity|].
  cbn [probe_events]. rewrite count_written_app, IH.
  destruct (probe_attempt_run t) as (e & n & buf & -> & He). cbn [fst].
  change (EWrite Xb [x0d] ?w :: e) with ([EWrite Xb [x0d] w] ++ e).
  rewrite count_written_app, (count_written_no_write _ _ He). reflexivity.
Qed.

Lemma probe_loop_S n i t :
  probe_loop env (S n) i t =
    let e := fst (probe_attempt env t) in
    if 0 <? probe_answer env t then (e, Ret i)
    else let (e', r) := probe_loop env n (i + 1) (t ++ e) in (e ++ e', r).
Proof.
  cbn [probe_loop]. unfold probe_answer.
  change (xb_write env Xb [x0d];;;
          (rb <- xb_read env Xb 1024;;
           (if 0 <? fst rb then ret i else probe_loop env n (i + 1))))
    with (bind (xb_write env Xb [x0d])
            (fun _ => bind (xb_read env Xb 1024)
                        (fun rb => if 0 <? fst rb then ret i
                                   else probe_loop env n (i + 1)))).
  rewrite <- (bind_assoc (xb_write env Xb [x0d])
                (fun _ => xb_read env Xb 1024)).
  fold (probe_attempt env). unfold bind at 1.
  destruct (probe_attempt_run t) as (e & a & buf & -> & _).
  cbn [fst snd]. destruct (0 <? a); [cbn; now rewrite app_nil_r|].
  reflexivity.
Qed.

Lemma silent_for_S k t :
  silent_for env (S k) t ->
  probe_answer env t <= 0 /\
  silent_for env k (t ++ fst (probe_attempt env t)).
Proof.
  intros H. split.
  - specialize (H 0%nat ltac:(lia)). cbn [probe_events] in H.
    now rewrite app_nil_r in H.
  - intros j Hj. specialize (H (S j) ltac:(lia)). cbn [probe_events] in H.
    now rewrite app_assoc in H.
Qed.

(** A device that stays silent sees the counter run to its end. *)
Lemma probe_loop_silent n : forall i t,
  silent_for env n t ->
  probe_loop env n i t = (probe_events env n t, Ret (i + Z.of_nat n)).
Proof.
  induction n as [|n IH]; intros i t Hs.
  - cbn. now rewrite Z.add_0_r.
  - apply silent_for_S in Hs as [Ha Hs]. rewrite probe_loop_S. cbv zeta.
    replace (0 <? probe_answer env t) with false
      by (symmetry; apply Z.ltb_ge; lia).
    rewrite (IH _ _ Hs). cbn [probe_events]. f_equal. f_equal. lia.
Qed.

(** A device that first answers on attempt [k] ends the loop there. *)
Lemma probe_loop_answered n : forall k i t,
  (k <= n)%nat -> first_answer_on env k t ->
  probe_loop env n i t = (probe_events env k t, Ret (i + Z.of_nat k - 1)).
Proof.
  induction n as [|n IH]; intros k i t Hk (H1 & Hs & Ha); [lia|].
  rewrite probe_loop_S. cbv zeta.
  destruct k as [|[|k]]; [lia| |].
  - cbn [Nat.sub probe_events] in Ha. rewrite app_nil_r in Ha.
    apply Z.ltb_lt in Ha. rewrite Ha. cbn [probe_events].
    rewrite app_nil_r. f_equal. f_equal. lia.
  - cbn [Nat.sub] in Hs, Ha. apply silent_for_S in Hs as [Hq Hs].
    replace (0 <? probe_answer env t) with false
      by (symmetry; apply Z.ltb_ge; lia).
    rewrite (IH (S k) (i + 1) (t ++ fst (probe_attempt env t))).
    + cbn [probe_events]. f_equal. f_equal. lia.
    + lia.
    + split; [lia|]. cbn [Nat.sub]. rewrite Nat.sub_0_r. split; [exact Hs|].
      cbn [probe_events] in Ha. now rewrite app_assoc in Ha.
Qed.

End Probe.

(** ** Events of the phases *)

Lemma returns_bind {A B} (Q : B -> Prop) (m : M A) (f : A -> M B) :
  (forall a, returns Q (f a)) -> returns Q (bind m f).
Proof.
  intros Hf t e b H. unfold bind in H.
  destruct (m t) as [e1 [a|s| |]]; try discriminate.
  destruct (f a (t ++ e1)) as [e2 r] eqn:E. inversion H; subst.
  exact (Hf a _ _ _ E).
Qed.

Lemma returns_ret {A} (Q : A -> Prop) (a : A) : Q a -> returns Q (ret a).
Proof. intros H t e b E. unfold ret in E. inversion E; subst. exact H. Qed.

Lemma returns_err {A} (Q : A -> Prop) s fmt args : returns Q (err s fmt args).
Proof. intros t e b E. unfold err, bind, emit, exit in E. discriminate. Qed.

Lemma returns_errx {A} (Q : A -> Prop) s fmt args :
  returns Q (errx s fmt args).
Proof. intros t e b E. unfold errx, bind, emit, exit in E. discriminate. Qed.

Section Phases.
Variable cs le : bool.
Variable env : Env.

Lemma emits_read_firmware n : forall fwbuf len off,
  emits transfer_event (read_firmware env n fwbuf len off).
Proof.
  induction n as [|n IH]; intros fwbuf len off; cbn [read_firmware];
    [apply emits_diverge|].
  apply emits_bind; [now apply emits_sys_read|].
  intros [|d]; [apply emits_ret|].
  destruct (store_bytes fwbuf off d); [|apply emits_undefined].
  destruct (_ =? 0); [apply emits_ret | apply IH].
Qed.

Lemma emits_load_firmware : emits transfer_event (load_firmware env).
Proof.
  unfold load_firmware. apply emits_bind; [now apply emits_sys_fstat|].
  intros [st_size|]; [|emits_tac]. destruct (st_size =? 0); [emits_tac|].
  apply emits_bind; [now apply emits_sys_malloc|].
  intros ok. destruct (negb ok); [emits_tac|].
  destruct (memset _ _ _ _); [|apply emits_undefined].
  apply emits_bind; [apply emits_read_firmware|]. intros [fwbuf|]; emits_tac.
Qed.

Lemma emits_send_block fwbuf block i reply :
  emits transfer_event (send_block cs le env fwbuf block i reply).
Proof.
  unfold send_block.
  apply emits_bind; [now apply emits_xb_write|]. intros w1.
  destruct (negb (w1 =? 0)); [emits_tac|].
  destruct (load_bytes _ _ _); [|apply emits_undefined].
  apply emits_bind; [now apply emits_xb_write|]. intros w2.
  destruct (negb (w2 =? 0)); [emits_tac|].
  apply emits_bind; [now apply emits_xb_write|]. intros w3.
  destruct (negb (w3 =? 0)); [emits_tac|].
  apply emits_bind; [now apply emits_sys_read|]. intros r. emits_tac.
Qed.

Lemma emits_send_blocks fuel fwbuf len : forall block i reply,
  emits transfer_event (send_blocks cs le env fuel fwbuf len block i reply).
Proof.
  induction fuel as [|fuel IH]; intros block i reply; cbn [send_blocks];
    (destruct (i <? len / 128); [|apply emits_ret]);
    [apply emits_diverge|].
  apply emits_bind; [apply emits_send_block|].
  intros [code|reply']; [apply emits_ret | apply IH].
Qed.

Lemma emits_end_of_transmission :
  emits transfer_event (end_of_transmission cs env).
Proof.
  unfold end_of_transmission. apply emits_bind; [now apply emits_emit|].
  intros _. apply emits_bind; [now apply emits_xb_write|]. intros w.
  destruct (negb (w =? 0)); [emits_tac|].
  apply emits_bind; [now apply emits_xb_read|]. intros [n buf]. emits_tac.
Qed.

Lemma emits_xb_firmware_update fuel :
  emits transfer_event (xb_firmware_update cs le env fuel).
Proof.
  unfold xb_firmware_update. apply emits_bind.
  { unfold request_transfer. apply emits_bind; [now apply emits_xb_write|].
    intros w. destruct (negb (w =? 0)); [emits_tac|].
    apply emits_bind; [now apply emits_xb_read|]. intros [n buf]. emits_tac. }
  intros g. destruct (negb (g =? 0)); [apply emits_ret|].
  apply emits_bind; [apply emits_load_firmware|].
  intros [e|[fwbuf len]]; [apply emits_ret|].
  apply emits_bind; [apply emits_send_blocks|]. intros s.
  destruct (negb (s =? 0)); [apply emits_ret|apply emits_end_of_transmission].
Qed.

Lemma transfer_keeps_speed (e : event) :
  transfer_event e = true -> keeps_speed e = true.
Proof. destruct e; simpl; intros H; try discriminate; reflexivity. Qed.

Lemma emits_probe_loop P n : forall i,
  (forall d w, P (EWrite Xb d w) = true) ->
  (forall c r, P (ERead Xb c r) = true) ->
  (forall c p, P (EPoll Xb c p) = true) ->
  emits P (probe_loop env n i).
Proof.
  induction n as [|n IH]; intros i HW HR HP; cbn [probe_loop];
    [apply emits_ret|].
  apply emits_bind; [now apply emits_xb_write|]. intros _.
  apply emits_bind; [now apply emits_xb_read|]. intros rb.
  destruct (0 <? fst rb); [apply emits_ret | now apply IH].
Qed.

Lemma emits_xb_send_command_plain P fuel f cmd formatted :
  (forall d w, P (EWrite f d w) = true) ->
  (forall r, P (ERead f 1 r) = true) -> P (EUsleep 100000) = true ->
  emits P (xb_send_command cs env fuel f cmd EmptyString formatted).
Proof.
  intros HW HR HU. rewrite xb_send_command_plain.
  apply emits_bind; [now apply emits_xb_write|]. intros w.
  apply emits_bind; [now apply emits_wait_for_ok|]. intros. apply emits_ret.
Qed.

Lemma emits_enter_bootloader fuel argv :
  emits keeps_speed (enter_bootloader cs env fuel argv).
Proof.
  unfold enter_bootloader. destruct (_ <? 2); [emits_tac|].
  apply emits_bind; [now apply emits_sys_open|]. intros ok1.
  destruct (negb ok1); [emits_tac|].
  apply emits_bind; [now apply emits_sys_open|]. intros ok2.
  destruct (negb ok2); [emits_tac|].
  apply emits_bind; [now apply emits_sys_tcgetattr|]. intros [serial|];
    [|emits_tac].
  do 4 (apply emits_bind; [emits_tac|]; intros).
  apply emits_bind; [now apply emits_wait_for_ok|]. intros.
  apply emits_bind; [emits_tac|]. intros.
  apply emits_bind; [now apply emits_xb_send_command_plain|]. intros.
  emits_tac.
Qed.

Lemma returns_enter_bootloader fuel argv :
  returns (fun serial => c_speed serial = B115200)
    (enter_bootloader cs env fuel argv).
Proof.
  unfold enter_bootloader. destruct (_ <? 2); [apply returns_errx|].
  apply returns_bind. intros ok1. destruct (negb ok1); [apply returns_err|].
  apply returns_bind. intros ok2. destruct (negb ok2); [apply returns_err|].
  apply returns_bind. intros [serial|]; [|apply returns_err].
  do 12 (apply returns_bind; intros).
  apply returns_bind. intros ok. destruct (negb ok); [apply returns_err|].
  now apply returns_ret.
Qed.

Lemma restore_read_policy_run serial t :
  restore_read_policy env serial t =
    let serial' := set_vmin_vtime serial 1 0 in
    let ok := env_tcsetattr env t Xb serial' in
    if ok
    then ([ETcsetattr Xb serial' true;
           EPrintf "Beginning programming...\n" []], Ret serial')
    else ([ETcsetattr Xb serial' false;
           EErr "failed to reset VMIN/VTIME" []], Exited EXIT_FAILURE).
Proof.
  unfold restore_read_policy, bind. cbn [sys_tcsetattr]. cbv zeta.
  destruct (env_tcsetattr env t Xb (set_vmin_vtime serial 1 0)); reflexivity.
Qed.

(** Up to the transfer the line is only ever set to 115200 baud, and
    the settings handed on still say 115200. *)
Lemma prepare_link_speed fuel argv t e0 serial :
  prepare_link cs env fuel argv t = (e0, Ret serial) ->
  forallb keeps_speed e0 = true /\ c_speed serial = B115200.
Proof.
  intros H. unfold prepare_link, bind at 1 in H.
  pose proof (emits_enter_bootloader fuel argv t) as He.
  pose proof (returns_enter_bootloader fuel argv t) as Hs.
  destruct (enter_bootloader cs env fuel argv t) as [ea [s0|x| |]];
    try discriminate.
  specialize (Hs ea s0 eq_refl). cbn [fst] in He, Hs.
  unfold bind at 1 in H.
  pose proof (emits_probe_loop keeps_speed 20 0 ltac:(reflexivity)
                ltac:(reflexivity) ltac:(reflexivity) (t ++ ea)) as Hp.
  destruct (probe_loop env 20 0 (t ++ ea)) as [ep [i|x| |]];
    try discriminate.
  cbn [fst] in Hp. rewrite restore_read_policy_run in H. cbv zeta in H.
  destruct (env_tcsetattr env _ Xb _); inversion H; subst.
  split; [|exact Hs].
  rewrite !forallb_app, He, Hp. cbn. unfold keeps_speed. cbn.
  rewrite Hs. reflexivity.
Qed.

Lemma main_eq fuel argv t :
  main cs le env fuel argv t =
    (serial <- prepare_link cs env fuel argv ;;
     u <- xb_firmware_update cs le env fuel ;;
     if negb (u =? 0) then errx EXIT_FAILURE "failed to flash firmware!" []
     else run_firmware env serial) t.
Proof.
  unfold main, prepare_link. rewrite bind_assoc. apply bind_ext.
  intros serial t'. now rewrite bind_assoc.
Qed.

Lemma main_probe_eq fuel argv t :
  main cs le env fuel argv t =
    (serial <- enter_bootloader cs env fuel argv ;;
     probe_loop env 20 0 ;;;
     transfer_phase cs le env fuel serial) t.
Proof. reflexivity. Qed.

(** What follows a successful transfer. *)
Lemma run_firmware_run serial t :
  exists w ok rest,
    fst (run_firmware env serial t) =
      [EPrintf "Programming complete, running uploaded firmware...\n" [];
       EWrite Xb ["2"%byte] w;
       ETcsetattr Xb (cfsetspeed serial B9600) ok] ++ rest.
Proof.
  unfold run_firmware, bind. cbn [printf emit]. rewrite xb_write_one.
  cbv zeta. cbn [sys_tcsetattr].
  match goal with
  | |- context [negb ?b] => destruct b
  end; cbn; do 3 eexists; reflexivity.
Qed.

End Phases.

(** C1.  Once the line runs at 115200 baud, [main] writes a carriage
    return and makes an idle-read, at most 20 times, and stops at the
    first idle-read that returns a positive count.  A device that first
    answers on attempt [k <= 20] ends the probing after exactly [k]
    carriage returns.  A device that stays silent for 20 attempts sees 20
    carriage returns, and nothing else happens on its account: the check
    announced by the comment of line 342 is missing, and [main] goes on
    exactly as after an answer, restoring the read policy and running
    the transfer. *)
Theorem C1_probe_bounded_outcome_ignored (cs le : bool) (env : Env)
    (fuel : nat) (argv : list string) (t e0 : trace) (serial : termios) :
  enter_bootloader cs env fuel argv t = (e0, Ret serial) ->
  (forall k,
     (k <= 20)%nat -> first_answer_on env k (t ++ e0) ->
     let e1 := probe_events env k (t ++ e0) in
     probe_loop env 20 0 (t ++ e0) = (e1, Ret (Z.of_nat k - 1)) /\
     count_written is_cr e1 = k /\
     main cs le env fuel argv t =
       (let (e2, r) := transfer_phase cs le env fuel serial (t ++ e0 ++ e1) in
        (e0 ++ e1 ++ e2, r))) /\
  (silent_for env 20 (t ++ e0) ->
   let e1 := probe_events env 20 (t ++ e0) in
   probe_loop env 20 0 (t ++ e0) = (e1, Ret 20) /\
   count_written is_cr e1 = 20%nat /\
   main cs le env fuel argv t =
     (let (e2, r) := transfer_phase cs le env fuel serial (t ++ e0 ++ e1) in
      (e0 ++ e1 ++ e2, r))).
Proof.
  intros Henter.
  assert (Hmain : forall e1 i,
            probe_loop env 20 0 (t ++ e0) = (e1, Ret i) ->
            main cs le env fuel argv t =
              (let (e2, r) :=
                 transfer_phase cs le env fuel serial (t ++ e0 ++ e1) in
               (e0 ++ e1 ++ e2, r))).
  { intros e1 i Hp. rewrite main_probe_eq. unfold bind at 1.
    rewrite Henter. unfold bind at 1. rewrite Hp. rewrite <- app_assoc.
    now destruct (transfer_phase cs le env fuel serial (t ++ e0 ++ e1)). }
  split.
  - intros k Hk Hfirst e1.
    pose proof (probe_loop_answered env 20 k 0 (t ++ e0) Hk Hfirst) as Hp.
    cbn [Z.add] in Hp. split; [exact Hp|].
    split; [apply count_probe_events | exact (Hmain _ _ Hp)].
  - intros Hsilent e1.
    pose proof (probe_loop_silent env 20 0 (t ++ e0) Hsilent) as Hp.
    cbn [Z.add Z.of_nat Pos.of_succ_nat Pos.succ] in Hp.
    split; [exact Hp|].
    split; [apply count_probe_events | exact (Hmain _ _ Hp)].
Qed.

Lemma C1_probe_witness :
  let e0 := fst (enter_bootloader true device_15 5 argv0 []) in
  let m0 := fst (enter_bootloader true device_mute 5 argv0 []) in
  (probe_loop device_15 20 0 e0 = (probe_events device_15 15 e0, Ret 14) /\
   count_written is_cr (probe_events device_15 15 e0) = 15%nat) /\
  (probe_loop device_mute 20 0 m0 = (probe_events device_mute 20 m0, Ret 20) /\
   count_written is_cr (probe_events device_mute 20 m0) = 20%nat).
Proof.
  intros e0 m0. split.
  - destruct (C1_probe_bounded_outcome_ignored true true device_15 5 argv0
                [] e0 serial_115200) as [Hanswered _].
    { vm_compute. reflexivity. }
    destruct (Hanswered 15%nat) as (Hp & Hc & _).
    + lia.
    + split; [lia|]. split.
      * intros j Hj.
        do 14 (destruct j as [|j]; [vm_compute; discriminate|]). lia.
      * vm_compute. reflexivity.
    + split; [exact Hp | exact Hc].
  - destruct (C1_probe_bounded_outcome_ignored true true device_mute 5 argv0
                [] m0 serial_115200) as [_ Hsilent].
    { vm_compute. reflexivity. }
    destruct Hsilent as (Hp & Hc & _).
    + intros j Hj.
      do 20 (destruct j as [|j]; [vm_compute; discriminate|]). lia.
    + split; [exact Hp | exact Hc].
Defined.

(** The run of C1 with a device whose prompt never comes: all 20
    carriage returns are written, no idle-read of the probe finds a
    byte, and still the menu selection is sent, the image is transferred
    and the program ends with success. *)
Lemma C1_silent_device_run :
  let run := main true true device_mute 5 argv0 [] in
  count_written is_cr (fst run) = 20%nat /\
  forallb probe_read_empty (fst run) = true /\
  count_written is_menu_upload (fst run) = 1%nat /\
  snd run = Ret EXIT_SUCCESS.
Proof. vm_compute. repeat split; reflexivity. Qed.

(** C4.  When the transfer fails, [main] prints its diagnostic and
    leaves with the failure status at once, skipping the cleanup of
    lines 365-369: no event of the whole session sets the line to a
    speed other than 115200 baud.  Only after a successful transfer,
    once the run-firmware selection is written, is the speed set, to
    9600 baud. *)
Theorem C4_speed_reset_only_after_success (cs le : bool) (env : Env)
    (fuel : nat) (argv : list string) (t e0 eu : trace) (serial : termios)
    (u : Z) :
  prepare_link cs env fuel argv t = (e0, Ret serial) ->
  xb_firmware_update cs le env fuel (t ++ e0) = (eu, Ret u) ->
  (u <> 0 ->
   main cs le env fuel argv t =
     (e0 ++ eu ++ [EErrx "failed to flash firmware!" []],
      Exited EXIT_FAILURE) /\
   forallb keeps_speed (e0 ++ eu ++ [EErrx "failed to flash firmware!" []])
     = true) /\
  (u = 0 ->
   exists w ok rest,
     fst (main cs le env fuel argv t) =
       e0 ++ eu ++
       [EPrintf "Programming complete, running uploaded firmware...\n" [];
        EWrite Xb ["2"%byte] w;
        ETcsetattr Xb (cfsetspeed serial B9600) ok] ++ rest).
Proof.
  intros Hprep Hup. split.
  - intros Hu. split.
    + rewrite main_eq. unfold bind at 1. rewrite Hprep.
      unfold bind at 1. rewrite Hup. apply Z.eqb_neq in Hu. rewrite Hu.
      reflexivity.
    + destruct (prepare_link_speed cs env fuel argv t e0 serial Hprep)
        as [He0 _].
      pose proof (emits_xb_firmware_update cs le env fuel (t ++ e0)) as Heu.
      rewrite Hup in Heu. cbn [fst] in Heu.
      rewrite !forallb_app, He0,
        (forallb_weaken _ _ _ transfer_keeps_speed Heu).
      reflexivity.
  - intros ->. rewrite main_eq. unfold bind at 1. rewrite Hprep.
    unfold bind at 1. rewrite Hup. cbn [Z.eqb negb].
    destruct (run_firmware_run env serial ((t ++ e0) ++ eu))
      as (w & ok & rest & Hrun).
    destruct (run_firmware env serial ((t ++ e0) ++ eu)) as [e3 r3].
    cbn [fst] in *. subst e3. now exists w, ok, rest.
Qed.

Lemma C4_speed_reset_witness :
  let e0 := fst (prepare_link true device_nak2 9 argv0 []) in
  let eu := fst (xb_firmware_update true true device_nak2 9 e0) in
  let s0 := fst (prepare_link true (device_ok (fw_ff 300)) 9 argv0 []) in
  let su := fst (xb_firmware_update true true (device_ok (fw_ff 300)) 9 s0) in
  (main true true device_nak2 9 argv0 [] =
     (e0 ++ eu ++ [EErrx "failed to flash firmware!" []],
      Exited EXIT_FAILURE) /\
   forallb keeps_speed (e0 ++ eu ++ [EErrx "failed to flash firmware!" []])
     = true) /\
  exists w ok rest,
    fst (main true true (device_ok (fw_ff 300)) 9 argv0 []) =
      s0 ++ su ++
      [EPrintf "Programming complete, running uploaded firmware...\n" [];
       EWrite Xb ["2"%byte] w;
       ETcsetattr Xb (cfsetspeed serial_transfer B9600) ok] ++ rest.
Proof.
  intros e0 eu s0 su. split.
  - apply (C4_speed_reset_only_after_success true true device_nak2 9 argv0
             [] e0 eu serial_transfer (-1)).
    + vm_compute. reflexivity.
    + vm_compute. reflexivity.
    + discriminate.
  - apply (C4_speed_reset_only_after_success true true
             (device_ok (fw_ff 300)) 9 argv0 [] s0 su serial_transfer 0).
    + vm_compute. reflexivity.
    + vm_compute. reflexivity.
    + reflexivity.
Defined.

(** The run of C4 with a device that refuses the second block.  The
    program leaves with the failure status; the line was set up by a
    [tcgetattr] that reported 9600 baud, and no [tcsetattr] of the
    session asks for anything but 115200. *)
Lemma C4_refused_block_run :
  let run := main true true device_nak2 9 argv0 [] in
  snd run = Exited EXIT_FAILURE /\
  existsb (fun e => match e with
                    | ETcgetattr Xb (Some tio) => c_speed tio =? B9600
                    | _ => false
                    end) (fst run) = true /\
  existsb is_speed_change (fst run) = false.
Proof. vm_compute. repeat split; reflexivity. Qed.

(** * The image in memory *)

Lemma fw_pos_app (a b : trace) : fw_pos (a ++ b) = (fw_pos a + fw_pos b)%nat.
Proof.
  induction a as [|e a IH]; [reflexivity|].
  destruct e; cbn [app fw_pos]; try exact IH.
  destruct f; [exact IH|]. destruct r; [exact IH|]. rewrite IH. lia.
Qed.

Lemma firstn_prefix {A} (n : nat) (l d rest : list A) :
  skipn n l = d ++ rest -> (n <= length l)%nat ->
  firstn (n + length d) l = firstn n l ++ d.
Proof.
  intros H Hn. rewrite firstn_plus, H, firstn_app, firstn_all, Nat.sub_diag.
  now rewrite firstn_0, app_nil_r.
Qed.

Lemma skipn_repeat {A} (x : A) (k : nat) : forall n,
  skipn k (repeat x n) = repeat x (n - k).
Proof.
  induction k as [|k IH]; intros n; [now rewrite Nat.sub_0_r|].
  destruct n as [|n]; [reflexivity|]. cbn [repeat skipn Nat.sub]. apply IH.
Qed.

Lemma padded_len_spec (L : Z) :
  0 < L < 2 ^ 63 ->
  padded_len L mod 128 = 0 /\ L <= padded_len L < L + 128 /\
  (forall m, m mod 128 = 0 -> L <= m -> padded_len L <= m).
Proof.
  intros HL. unfold padded_len, u64.
  change (2 ^ 63) with 9223372036854775808 in HL.
  change (2 ^ 64) with 18446744073709551616.
  rewrite (Z.mod_small L) by lia.
  pose proof (Z.mod_pos_bound L 128 ltac:(lia)) as Hr.
  pose proof (Z.div_mod L 128 ltac:(lia)) as Hdm.
  destruct (L mod 128 =? 0) eqn:E; cbn [negb].
  - apply Z.eqb_eq in E. rewrite Z.add_0_r, (Z.mod_small L) by lia.
    split; [exact E|]. split; [lia|]. intros; lia.
  - apply Z.eqb_neq in E. rewrite (Z.mod_small (L + _)) by lia.
    assert (Hp : L + (128 - L mod 128) = 128 * (L / 128 + 1)) by lia.
    split; [rewrite Hp, Z.mul_comm; apply Z_mod_mult|]. split; [lia|].
    intros m Hm HLm.
    pose proof (Z.div_mod m 128 ltac:(lia)) as Hmd. rewrite Hm in Hmd. lia.
Qed.

(** The fuel [read_firmware] is given in [load_firmware] is never used
    up: every round but the last stores at least one byte. *)
Lemma read_firmware_total (env : Env) (len : Z) (n : nat) :
  forall fwbuf off t,
    (0 < n)%nat -> len - off < Z.of_nat n ->
    snd (read_firmware env n fwbuf len off t) <> Diverge.
Proof.
  induction n as [|n IH]; intros fwbuf off t Hn Hlen; [lia|].
  cbn [read_firmware]. unfold bind at 1. cbn [sys_read]. unfold read_at.
  destruct (env_read env t Fw (len - off)) as [|d0]; [discriminate|].
  set (d := firstn (Z.to_nat (len - off)) d0).
  assert (Hd : Z.of_nat (length d) <= Z.max 0 (len - off))
    by (subst d; rewrite length_firstn; lia).
  destruct (store_bytes fwbuf off d) as [fwbuf'|]; [|discriminate].
  destruct (Z.of_nat (length d) =? 0) eqn:E; [discriminate|].
  apply Z.eqb_neq in E.
  specialize (IH fwbuf' (off + Z.of_nat (length d))
                (t ++ [ERead Fw (len - off) (RData d)])
                ltac:(lia) ltac:(lia)).
  destruct (read_firmware env n fwbuf' len _ _) as [e r]. exact IH.
Qed.

Section Image.
Variable env : Env.
Variable fw pad : list byte.
Hypothesis Hread : forall t count, exists d rest,
  env_read env t Fw count = RData d /\
  skipn (fw_pos t) fw = d ++ rest /\
  (d = [] -> rest = []).

(** The read loop fills the buffer with the file, whatever the sizes of
    the pieces it is handed, and leaves the padding alone. *)
Lemma read_firmware_spec (n : nat) : forall pos t,
  fw_pos t = pos -> (pos <= length fw)%nat -> (length fw - pos < n)%nat ->
  exists evs,
    read_firmware env n
      (map Some (firstn pos fw) ++ repeat None (length fw - pos)
         ++ map Some pad)
      (Z.of_nat (length fw + length pad)) (Z.of_nat pos) t
    = (evs, Ret (Some (map Some (fw ++ pad)))).
Proof.
  induction n as [|n IH]; intros pos t Hpos Hle Hn; [lia|].
  cbn [read_firmware]. unfold bind at 1. cbn [sys_read]. unfold read_at.
  set (count := Z.of_nat (length fw + length pad) - Z.of_nat pos).
  destruct (Hread t count) as (d0 & rest0 & Hd0 & Hskip0 & Hnil0).
  rewrite Hd0, Hpos in *.
  set (d := firstn (Z.to_nat count) d0).
  assert (Hskip : skipn pos fw = d ++ (skipn (Z.to_nat count) d0 ++ rest0))
    by (subst d; now rewrite app_assoc, firstn_skipn).
  assert (Hdlen : (length d <= length fw - pos)%nat).
  { rewrite <- length_skipn, Hskip, length_app. lia. }
  rewrite (store_bytes_at (a := map Some (firstn pos fw)))
    by (rewrite ?length_map, ?length_firstn, ?length_app, ?repeat_length;
        lia).
  destruct (Z.of_nat (length d) =? 0) eqn:Ed.
  - apply Z.eqb_eq in Ed.
    assert (Hd : d = []) by (destruct d; [reflexivity | cbn in Ed; lia]).
    assert (Hend : pos = length fw).
    { subst d. destruct d0 as [|b d0'].
      - rewrite (Hnil0 eq_refl) in Hskip0.
        apply (f_equal (@length _)) in Hskip0.
        rewrite length_skipn in Hskip0. cbn in Hskip0. lia.
      - destruct (Z.to_nat count) eqn:Ec; [|discriminate]. subst count. lia. }
    eexists. cbn [ret]. rewrite app_nil_r. f_equal. f_equal. f_equal.
    rewrite Hd, Hend. cbn [map app length skipn].
    rewrite firstn_all, Nat.sub_diag. cbn [repeat app]. now rewrite map_app.
  - apply Z.eqb_neq in Ed.
    destruct (IH (pos + length d)%nat
                (t ++ [ERead Fw count (RData d)])) as [evs Hevs].
    + rewrite fw_pos_app. cbn [fw_pos]. lia.
    + lia.
    + lia.
    + rewrite (firstn_prefix _ _ _ _ Hskip Hle), map_app in Hevs.
      rewrite <- app_assoc in Hevs.
      replace (length fw - (pos + length d))%nat
        with (length fw - pos - length d)%nat in Hevs by lia.
      rewrite skipn_app, skipn_repeat, repeat_length.
      replace (length d - (length fw - pos))%nat with 0%nat by lia.
      cbn [skipn].
      replace (Z.of_nat pos + Z.of_nat (length d))
        with (Z.of_nat (pos + length d)) by lia.
      rewrite Hevs. now eexists.
Qed.

End Image.

(** C6.  For a firmware file of [L] bytes, [0 < L < 2^63], that the
    environment offers (in pieces of any size), the image built in
    memory has the padded length, the smallest multiple of 128 that is
    at least [L]; its first [L] bytes are the file, the others 0xFF.  A
    synthetic run with 300 bytes of 'a': the length is 384, three blocks
    go out, numbered 1, 2, 3, the third with the last 44 bytes of the
    file followed by 84 bytes 0xFF; then EOT; three progress dots are
    printed and the result is 0. *)
Theorem C6_image_padded_with_ff (env : Env) (fw : list byte) (t : trace) :
  offers_file env fw -> fw_pos t = 0%nat ->
  0 < Z.of_nat (length fw) < 2 ^ 63 ->
  let L := Z.of_nat (length fw) in
  (padded_len L mod 128 = 0 /\ L <= padded_len L /\
   (forall m, m mod 128 = 0 -> L <= m -> padded_len L <= m)) /\
  (exists evs fwbuf,
     load_firmware env t = (evs, Ret (inr (fwbuf, padded_len L))) /\
     Z.of_nat (length fwbuf) = padded_len L /\
     all_assigned fwbuf =
       Some (fw ++ repeat xff (Z.to_nat (padded_len L - L)))) /\
  (let run := xb_firmware_update true true (device_ok fw_a300) 9 [] in
   padded_len 300 = 384 /\
   snd run = Ret 0 /\
   wire (fst run) =
     ["1"%byte]
       ++ frame_ref 1 (repeat "a"%byte 128)
       ++ frame_ref 2 (repeat "a"%byte 128)
       ++ frame_ref 3 (repeat "a"%byte 44 ++ repeat xff 84)
       ++ [EOT] /\
   length (filter is_dot (fst run)) = 3%nat).
Proof.
  intros (Hstat & Hmalloc & Hread) Hpos HL L.
  destruct (padded_len_spec L HL) as (Hmod & [Hle Hlt] & Hmin).
  split; [now repeat split|]. split.
  2: { vm_compute. repeat split; reflexivity. }
  set (P := padded_len L) in *.
  set (pad := repeat xff (Z.to_nat (P - L))).
  assert (Hpad : length pad = Z.to_nat (P - L)) by apply repeat_length.
  assert (HP : Z.to_nat P = (length fw + length pad)%nat) by lia.
  unfold load_firmware, bind at 1. cbn [sys_fstat]. rewrite Hstat.
  fold L. replace (L =? 0) with false by (symmetry; apply Z.eqb_neq; lia).
  unfold bind at 1. cbn [sys_malloc]. rewrite Hmalloc. cbn [negb]. fold P.
  unfold memset, u64. rewrite (Z.mod_small (P - L)) by lia.
  replace (0 <=? P - L) with true by (symmetry; apply Z.leb_le; lia).
  fold pad. rewrite HP, repeat_app.
  rewrite (store_bytes_at (a := repeat None (length fw)))
    by (rewrite ?repeat_length; lia).
  rewrite skipn_repeat, Nat.sub_diag. cbn [repeat]. rewrite app_nil_r.
  destruct (read_firmware_spec env fw pad Hread (S (length fw + length pad))
              0%nat ((t ++ [EFstat Fw (Some L)]) ++ [EMalloc P true]))
    as [evs Hevs].
  { rewrite !fw_pos_app, Hpos. reflexivity. }
  { lia. }
  { lia. }
  cbn [firstn map app] in Hevs. rewrite Nat.sub_0_r in Hevs.
  replace (Z.of_nat (length fw + length pad)) with P in Hevs by lia.
  unfold bind at 1. change (Z.of_nat 0) with 0 in Hevs. rewrite Hevs.
  do 2 eexists. split; [reflexivity|].
  split; [rewrite length_map, length_app; lia|].
  apply all_assigned_map.
Qed.

Lemma C6_image_witness :
  exists evs fwbuf,
    load_firmware (device_ok fw_a300) [] = (evs, Ret (inr (fwbuf, 384))) /\
    Z.of_nat (length fwbuf) = 384 /\
    all_assigned fwbuf = Some (fw_a300 ++ repeat xff 84).
Proof.
  apply (C6_image_padded_with_ff (device_ok fw_a300) fw_a300 []).
  - split; [|split].
    + intros; reflexivity.
    + intros; reflexivity.
    + intros t count. exists (skipn (fw_pos t) fw_a300), [].
      split; [reflexivity|]. split; [now rewrite app_nil_r | reflexivity].
  - reflexivity.
  - vm_compute. split; reflexivity.
Defined.

(** * Further properties of the framed I/O *)

Section MoreIO.
Variable env : Env.

Lemma xb_write_loop_calls n : forall buf t,
  (length buf <= n)%nat ->
  (length (fst (xb_write_loop env n Xb buf t)) <= length buf)%nat /\
  (snd (xb_write_loop env n Xb buf t) = Ret (-1) ->
   exists pre d w,
     fst (xb_write_loop env n Xb buf t) = pre ++ [EWrite Xb d w] /\ w <= 0).
Proof.
  induction n as [|n IH]; intros buf t Hlen.
  - destruct buf; [|simpl in Hlen; lia]. cbn. split; [lia | discriminate].
  - destruct buf as [|b buf'].
    { destruct n; cbn; (split; [lia | discriminate]). }
    set (buf := b :: buf') in *.
    assert (Hpos : (0 <? Z.of_nat (length buf)) = true)
      by (apply Z.ltb_lt; subst buf; cbn [length]; lia).
    cbn [xb_write_loop]. rewrite Hpos. unfold bind. cbn [sys_write].
    set (w := write_at env t Xb buf).
    assert (Hw : w <= Z.of_nat (length buf))
      by (subst w; unfold write_at; lia).
    destruct (w <=? 0) eqn:Ew.
    + cbn. apply Z.leb_le in Ew. split; [subst buf; cbn [length]; lia|].
      intros _. exists [], buf, w. now split.
    + apply Z.leb_gt in Ew.
      destruct (IH (skipn (Z.to_nat w) buf) (t ++ [EWrite Xb buf w]))
        as [Hcalls Hlast].
      { rewrite length_skipn. lia. }
      destruct (xb_write_loop env n Xb (skipn (Z.to_nat w) buf)
                  (t ++ [EWrite Xb buf w])) as [evs r].
      cbn [fst snd] in *. rewrite length_skipn in Hcalls. split.
      * cbn [app length]. lia.
      * intros Hr. destruct (Hlast Hr) as (pre & d & w' & -> & Hw').
        exists (EWrite Xb buf w :: pre), d, w'. now split.
Qed.

(** X1.  [xb_write] is all or nothing in its result: it returns 0
    exactly when the line has taken every byte of the buffer, in order,
    and -1 when it has taken only a proper prefix; in that case the last
    call of [write] is the one that made no progress, and nothing is
    tried after it.  It issues at most one [write] per byte and touches
    nothing but the line. *)
Theorem X1_xb_write_all_or_fail (buf : list byte) (t : trace) :
  let evs := fst (xb_write env Xb buf t) in
  let r := snd (xb_write env Xb buf t) in
  forallb (is_write Xb) evs = true /\
  (length evs <= length buf)%nat /\
  ((r = Ret 0 /\ wire evs = buf) \/
   (r = Ret (-1) /\
    (exists k, (k < length buf)%nat /\ wire evs = firstn k buf) /\
    (exists pre d w, evs = pre ++ [EWrite Xb d w] /\ w <= 0))).
Proof.
  cbv zeta.
  destruct (xb_write_loop_calls (length buf) buf t (le_n _)) as [Hc Hl].
  fold (xb_write env Xb buf t) in Hc, Hl.
  destruct (xb_write_spec env buf t) as (evs & r & Hrun & Hev & Hres).
  rewrite Hrun in *. cbn [fst snd] in *.
  split; [exact Hev|]. split; [exact Hc|].
  destruct Hres as [[-> Hw] | [-> Hk]]; [now left|].
  right. split; [reflexivity|]. split; [exact Hk | now apply Hl].
Qed.

Lemma read_data_app (a b : list event) :
  read_data (a ++ b) = read_data a ++ read_data b.
Proof. unfold read_data. apply flat_map_app. Qed.

Lemma xb_read_loop_trace f count n : forall buf t,
  (0 < n)%nat -> count - Z.of_nat (length buf) < Z.of_nat n ->
  exists evs k buf',
    xb_read_loop env n f count buf t = (evs, Ret (k, buf')) /\
    buf' = buf ++ read_data evs /\
    forallb (is_read_or_poll f) evs = true /\
    (0 < k -> k = Z.of_nat (length buf') /\ k <= count) /\
    (k <= 0 -> exists pre c r, evs = pre ++ [ERead f c r] /\ read_ret r = k) /\
    (Z.of_nat (count_reads evs)
     <= Z.max 1 (count - Z.of_nat (length buf))).
Proof.
  induction n as [|n IH]; intros buf t Hn Hc; [lia|].
  cbn [xb_read_loop]. unfold bind at 1. cbn [sys_read].
  set (c := count - Z.of_nat (length buf)) in *.
  set (r := read_at env t f c).
  assert (Hf : fd_eqb f f = true) by now destruct f.
  destruct (read_ret r <=? 0) eqn:E.
  - apply Z.leb_le in E. exists [ERead f c r], (read_ret r), buf.
    split; [reflexivity|].
    assert (Hd : read_data [ERead f c r] = []).
    { subst r. unfold read_at in *.
      destruct (env_read env t f c) as [|d]; [reflexivity|].
      cbn in E. cbn. destruct (firstn (Z.to_nat c) d); [reflexivity|].
      cbn in E. lia. }
    rewrite Hd, app_nil_r. split; [reflexivity|].
    split; [cbn; now rewrite Hf|]. split; [lia|].
    split; [intros _; now exists [], c, r|]. cbn. lia.
  - apply Z.leb_gt in E. unfold bind at 1. cbn [sys_poll].
    set (t1 := t ++ [ERead f c r]).
    set (p := env_poll env t1 f 100).
    assert (Hr : exists d, r = RData d /\ d <> [] /\
                           Z.of_nat (length d) <= c).
    { subst r. unfold read_at in *.
      destruct (env_read env t f c) as [|d]; [cbn in E; lia|].
      eexists. split; [reflexivity|]. cbn in E. split.
      - intros H. rewrite H in E. cbn in E. lia.
      - rewrite length_firstn in *. lia. }
    destruct Hr as (d & Hr & Hd & Hdc). rewrite Hr in *. cbn [read_ret] in *.
    destruct ((0 <? p) && (_ <? count)) eqn:Eg.
    + apply andb_prop in Eg as [_ Eg]. apply Z.ltb_lt in Eg.
      destruct (IH (buf ++ d) (t1 ++ [EPoll f 100 p]))
        as (evs & k & buf' & Hrun & Hbuf & Hev & Hk & Hlast & Hcnt).
      * lia.
      * rewrite length_app. lia.
      * rewrite Hrun. do 3 eexists. split; [reflexivity|].
        split; [|split; [|split; [|split]]].
        -- rewrite Hbuf. cbn [app read_data flat_map].
           fold (read_data evs). now rewrite <- app_assoc.
        -- cbn. now rewrite Hf, Hev.
        -- exact Hk.
        -- intros Hk0. destruct (Hlast Hk0) as (pre & c' & r' & -> & Hr').
           exists (ERead f c (RData d) :: EPoll f 100 p :: pre), c', r'.
           now split.
        -- rewrite !count_reads_app.
           change (count_reads [ERead f c (RData d)]) with 1%nat.
           change (count_reads [EPoll f 100 p]) with 0%nat.
           rewrite length_app in Hcnt. subst c. lia.
    + do 3 eexists. split; [reflexivity|].
      split; [cbn; now rewrite app_nil_r|].
      split; [cbn; now rewrite Hf|].
      split; [intros _; rewrite length_app; subst c; lia|].
      split; [intros Hk0; lia|].
      unfold count_reads. cbn [app filter is_read length]. lia.
Qed.

(** X2.  [xb_read] always returns, after at most [count] reads, and
    only reads and polls its descriptor.  The buffer holds the bytes of
    all its reads, in order.  A positive result is the number of bytes in
    the buffer and never exceeds [count].  A result of 0 or -1 is the
    result of the last [read], whatever earlier reads of the same call
    have delivered: those bytes are consumed, and the caller is told
    nothing of them. *)
Theorem X2_xb_read_until_idle (f : fd) (count : Z) (t : trace) :
  exists evs k buf,
    xb_read env f count t = (evs, Ret (k, buf)) /\
    buf = read_data evs /\
    forallb (is_read_or_poll f) evs = true /\
    (0 < k -> k = Z.of_nat (length buf) /\ k <= count) /\
    (k <= 0 -> exists pre c r, evs = pre ++ [ERead f c r] /\ read_ret r = k) /\
    Z.of_nat (count_reads evs) <= Z.max 1 count.
Proof.
  destruct (xb_read_loop_trace f count (S (Z.to_nat count)) [] t)
    as (evs & k & buf & Hrun & Hbuf & Hev & Hk & Hlast & Hcnt);
    [lia | cbn [length]; lia |].
  exists evs, k, buf. cbn [length app] in *.
  change (Z.of_nat 0) with 0 in Hcnt. rewrite Z.sub_0_r in Hcnt.
  split; [exact Hrun|]. split; [exact Hbuf|]. split; [exact Hev|].
  split; [exact Hk|]. split; [exact Hlast | exact Hcnt].
Qed.

End MoreIO.

(** Two bytes are read, more are announced, the next read fails: the
    call returns -1 and the two bytes are gone. *)
Example xb_read_drops_bytes :
  xb_read flaky_line Xb 128 [] =
    ([ERead Xb 128 (RData ["o"%byte; "k"%byte]); EPoll Xb 100 1;
      ERead Xb 126 RErr],
     Ret (-1, ["o"%byte; "k"%byte])).
Proof. reflexivity. Qed.

(** * Further properties of the command channel and the end of
      transmission *)

Section MoreCommand.
Variable cs : bool.
Variable env : Env.

Lemma wait_for_ok_returned fuel f t ew :
  wait_for_ok cs env fuel f t = (ew, Ret tt) ->
  exists pre r1 r2,
    ew = pre ++ [ERead f 1 (RData ["O"%byte]); ERead f 1 r1; ERead f 1 r2].
Proof.
  unfold wait_for_ok, bind. intros H.
  destruct (wait_for_ok_loop cs env fuel f t) as [el [[]|s| |]] eqn:El;
    try discriminate.
  destruct (wait_for_ok_loop_break cs env f fuel t el El) as [pre ->].
  cbn [sys_read ret] in H. inversion H; subst.
  exists pre. do 2 eexists. rewrite <- !app_assoc. reflexivity.
Qed.

Lemma wire_wait_for_ok fuel t :
  wire (fst (wait_for_ok cs env fuel Xb t)) = [].
Proof.
  apply wire_no_write.
  apply (emits_wait_for_ok cs env not_write Xb fuel); reflexivity.
Qed.

Lemma xb_send_command_request fuel cmd format formatted s :
  fitting_argument format formatted s ->
  xb_send_command cs env fuel Xb cmd format formatted =
    (ret_ <- xb_write env Xb (at_request cmd s) ;;
     wait_for_ok cs env fuel Xb ;;; ret ret_).
Proof.
  intros [[-> ->] | (Hf & -> & Hs)].
  - apply xb_send_command_plain.
  - destruct format as [|c format]; [congruence|].
    now apply xb_send_command_fits.
Qed.

(** X3.  A call of [xb_send_command] whose request fits the buffer
    returns only after the byte 'O' has been read from the line and two
    further one-byte reads have been issued; what those two deliver is
    not looked at, they may fail or deliver nothing.  What the call
    returns is the verdict of [xb_write]: 0 when the line has taken the
    whole request, the prefix, the code, the argument and the carriage
    return; -1 when it has taken a proper prefix of it only.  In that
    second case the device has answered a request it was sent in part.
    And the call does return whenever an 'O' arrives: when the first 'O'
    after the write comes with the read of round [k], any fuel above [k]
    gives the result. *)
Theorem X3_send_command_returns (fuel : nat) (cmd : byte * byte)
    (format : string) (formatted : option (list byte)) (s : list byte)
    (t : trace) :
  fitting_argument format formatted s ->
  let run := xb_send_command cs env fuel Xb cmd format formatted t in
  let sent := xb_write env Xb (at_request cmd s) t in
  (forall w,
     snd run = Ret w ->
     (exists pre r1 r2,
        fst run = pre ++ [ERead Xb 1 (RData ["O"%byte]); ERead Xb 1 r1;
                          ERead Xb 1 r2]) /\
     ((w = 0 /\ wire (fst run) = at_request cmd s) \/
      (w = -1 /\
       exists k, (k < length (at_request cmd s))%nat /\
                 wire (fst run) = firstn k (at_request cmd s)))) /\
  (forall k,
     (k < fuel)%nat -> O_arrives env Xb k (t ++ fst sent) ->
     snd run = snd sent /\
     fst run =
       (let t1 := t ++ fst sent in
        let evs := pauses env Xb k t1 ++ [ERead Xb 1 (RData ["O"%byte])] in
        let r1 := read_at env (t1 ++ evs) Xb 1 in
        let r2 := read_at env (t1 ++ evs ++ [ERead Xb 1 r1]) Xb 1 in
        fst sent ++ evs ++ [ERead Xb 1 r1; ERead Xb 1 r2])).
Proof.
  intros Hfit. rewrite (xb_send_command_request fuel cmd _ _ _ Hfit).
  cbv zeta. unfold bind.
  destruct (xb_write_spec env (at_request cmd s) t)
    as (e1 & w1 & H1 & _ & Hres). rewrite H1. cbn [fst snd]. split.
  - intros w.
    pose proof (wire_wait_for_ok fuel (t ++ e1)) as Hwire.
    destruct (wait_for_ok cs env fuel Xb (t ++ e1)) as [ew [[]|x| |]] eqn:Ew;
      cbn [fst snd ret]; try discriminate.
    intros Hw. inversion Hw; subst w1. cbn [fst] in Hwire.
    destruct (wait_for_ok_returned fuel Xb _ _ Ew) as (pre & r1 & r2 & Hew).
    rewrite app_nil_r. split.
    + exists (e1 ++ pre), r1, r2. rewrite Hew. now rewrite <- app_assoc.
    + rewrite !wire_app, Hwire, !app_nil_r.
      destruct Hres as [[-> Hw1] | [-> Hk]]; [now left | now right].
  - intros k Hk Ha.
    rewrite (wait_for_ok_arrives cs env Xb k fuel (t ++ e1) Hk Ha).
    cbv zeta. cbn [fst snd ret]. rewrite app_nil_r.
    split; reflexivity.
Qed.

(** X4.  On a line whose reads always fail, a call of
    [xb_send_command] whose request fits the buffer never returns,
    whatever became of its write: a write that failed is not reported. *)
Theorem X4_send_command_dead_line (fuel : nat) (cmd : byte * byte)
    (format : string) (formatted : option (list byte)) (s : list byte)
    (t : trace) :
  (forall t', env_read env t' Xb 1 = RErr) ->
  fitting_argument format formatted s ->
  snd (xb_send_command cs env fuel Xb cmd format formatted t) = Diverge.
Proof.
  intros Hdead Hfit. rewrite (xb_send_command_request fuel cmd _ _ _ Hfit).
  unfold bind at 1.
  destruct (xb_write_spec env (at_request cmd s) t)
    as (e1 & w1 & H1 & _). rewrite H1.
  unfold bind, wait_for_ok, bind.
  now rewrite (wait_for_ok_loop_failing cs env Xb Hdead).
Qed.

End MoreCommand.

Lemma X3_send_command_witness :
  let run := xb_send_command false o_then_dead 1 Xb ("F"%byte, "R"%byte)
               EmptyString None [] in
  run =
    ([EWrite Xb (at_request ("F"%byte, "R"%byte) []) 5;
      ERead Xb 1 (RData ["O"%byte]); ERead Xb 1 RErr; ERead Xb 1 RErr],
     Ret 0) /\
  wire (fst run) = at_request ("F"%byte, "R"%byte) [].
Proof.
  intros run.
  destruct (X3_send_command_returns false o_then_dead 1
              ("F"%byte, "R"%byte) EmptyString None [] [])
    as [Hret Harr].
  - left. split; reflexivity.
  - destruct (Harr 0%nat) as [Hsnd Hfst].
    + lia.
    + split; [intros j Hj; lia | reflexivity].
    + split.
      * apply injective_projections; [exact Hfst | exact Hsnd].
      * destruct (Hret 0 Hsnd) as [_ [[_ Hw] | [Hw _]]];
          [exact Hw | discriminate Hw].
Defined.

Lemma X4_send_command_dead_line_witness :
  snd (xb_send_command true failing_line 7 Xb ("F"%byte, "R"%byte)
         EmptyString None []) = Diverge.
Proof.
  apply (X4_send_command_dead_line true failing_line 7 ("F"%byte, "R"%byte)
           EmptyString None [] []).
  - intros; reflexivity.
  - left. split; reflexivity.
Defined.

Section MoreEot.
Variable cs : bool.
Variable env : Env.

Lemma xb_read_loop_first f count n buf t :
  let c := count - Z.of_nat (length buf) in
  exists rest,
    fst (xb_read_loop env (S n) f count buf t) =
      ERead f c (read_at env t f c) :: rest /\
    (read_ret (read_at env t f c) <= 0 ->
     snd (xb_read_loop env (S n) f count buf t) =
       Ret (read_ret (read_at env t f c), buf)).
Proof.
  cbv zeta. cbn [xb_read_loop]. unfold bind. cbn [sys_read sys_poll].
  set (c := count - Z.of_nat (length buf)).
  set (r := read_at env t f c).
  destruct (read_ret r <=? 0) eqn:E.
  - cbn. eexists. split; reflexivity.
  - apply Z.leb_gt in E.
    match goal with
    | |- context [if ?g then _ else _] => destruct g
    end.
    + match goal with
      | |- context [xb_read_loop env n f count ?b ?t'] =>
          destruct (xb_read_loop env n f count b t') as [e' r']
      end.
      cbn. eexists. split; [reflexivity | lia].
    + cbn. eexists. split; [reflexivity | lia].
Qed.

Lemma xb_read_first f count t :
  exists rest,
    fst (xb_read env f count t) =
      ERead f count (read_at env t f count) :: rest /\
    forall k buf,
      snd (xb_read env f count t) = Ret (k, buf) -> 0 < k ->
      exists b d,
        read_at env t f count = RData (b :: d) /\ nth 0 buf x00 = b.
Proof.
  destruct (xb_read_loop_first f count (Z.to_nat count) [] t)
    as (rest & Hfst & Hsnd).
  cbn [length Z.of_nat] in *. rewrite Z.sub_0_r in *.
  fold (xb_read env f count t) in Hfst, Hsnd.
  exists rest. split; [exact Hfst|]. intros k buf Hrun Hk.
  destruct (xb_read_loop_trace env f count (S (Z.to_nat count)) [] t)
    as (evs & k' & buf' & Hx & Hbuf & _); [lia | cbn [length]; lia |].
  fold (xb_read env f count t) in Hx.
  rewrite Hx in *. cbn [fst snd app] in *.
  injection Hrun as Hk' Hb'. subst k'.
  destruct (read_at env t f count) as [|[|b d]] eqn:Er.
  - specialize (Hsnd ltac:(cbn; lia)). inversion Hsnd. cbn in *. lia.
  - specialize (Hsnd ltac:(cbn; lia)). inversion Hsnd. cbn in *. lia.
  - exists b, d. split; [reflexivity|].
    rewrite <- Hb', Hbuf, Hfst. reflexivity.
Qed.

(** X5.  [end_of_transmission] returns 0 or -1.  When it returns 0 the
    line has taken the single byte EOT, and the first read after it
    delivered a reply that starts with ACK; what follows the ACK in the
    reply is not looked at. *)
Theorem X5_end_of_transmission (t : trace) :
  let evs := fst (end_of_transmission cs env t) in
  let r := snd (end_of_transmission cs env t) in
  (r = Ret 0 \/ r = Ret (-1)) /\
  (r = Ret 0 ->
   wire evs = [EOT] /\
   exists pre d post,
     evs = pre ++ ERead Xb 128 (RData (ACK :: d)) :: post /\
     forallb (fun e => negb (is_read e)) pre = true).
Proof.
  cbv zeta. unfold end_of_transmission, bind, printf, warn, warnx, emit, ret.
  set (t0 := t ++ [EPrintf "\n" []]).
  destruct (xb_write_spec env [EOT] t0)
    as (e1 & w & H1 & He1 & [[-> Hw] | [-> _]]); rewrite H1;
    cbn [Z.eqb negb Z.opp Pos.eqb fst snd].
  2: { split; [now right | discriminate]. }
  destruct (xb_read_spec env Xb 128 (t0 ++ e1)) as (e2 & n & buf & H2 & _).
  destruct (xb_read_first Xb 128 (t0 ++ e1)) as (rest & Hfirst & Hbyte).
  pose proof (emits_xb_read env not_write Xb 128
                ltac:(reflexivity) ltac:(reflexivity) (t0 ++ e1)) as Hnw.
  rewrite H2 in *. cbn [fst snd] in *. subst e2.
  destruct ((n <=? 0) || _) eqn:Ebad; cbn [fst snd].
  { split; [now right | discriminate]. }
  split; [now left|]. intros _.
  apply orb_false_elim in Ebad as [En Eack]. apply Z.leb_gt in En.
  destruct (Hbyte n buf eq_refl En) as (b & d & Hr & Hb).
  rewrite Hb in Eack. apply negb_false_iff in Eack.
  change 6 with (byte_to_Z ACK) in Eack.
  rewrite char_val_is in Eack by (vm_compute; reflexivity).
  apply Byte.byte_dec_bl in Eack. subst b. split.
  - rewrite app_nil_r, !wire_app, Hw, (wire_no_write _ Hnw). reflexivity.
  - exists ([EPrintf "\n" []] ++ e1), d, rest. rewrite Hr. split.
    + now rewrite app_nil_r, app_assoc.
    + cbn [app forallb is_read negb andb].
      eapply forallb_weaken; [|exact He1].
      intros e He. now apply write_not_read in He.
Qed.

End MoreEot.

Lemma X5_end_of_transmission_witness :
  let run := end_of_transmission true (device_ok fw_a300) [] in
  (snd run = Ret 0 \/ snd run = Ret (-1)) /\
  (snd run = Ret 0 ->
   wire (fst run) = [EOT] /\
   exists pre d post,
     fst run = pre ++ ERead Xb 128 (RData (ACK :: d)) :: post /\
     forallb (fun e => negb (is_read e)) pre = true).
Proof.
  intros run.
  apply (X5_end_of_transmission true (device_ok fw_a300) []).
Defined.

(** A device that acknowledges EOT: the result is 0. *)
Example end_of_transmission_acked :
  end_of_transmission true (device_ok fw_a300) [] =
    ([EPrintf "\n" []; EWrite Xb [EOT] 1;
      ERead Xb 128 (RData [ACK; x0d; x0a]); EPoll Xb 100 0], Ret 0).
Proof. vm_compute. reflexivity. Qed.

(** * Further properties: the block loop and the whole transfer *)

(** The offset [i * 128] is computed in [unsigned int]. *)
Lemma index_of_wrap (p : nat) :
  u32 (index_of (p + Z.to_nat 33554432) * 128) = u32 (index_of p * 128).
Proof.
  unfold index_of, u32. rewrite Nat2Z.inj_add, Z2Nat.id by lia.
  change (2 ^ 32) with 4294967296.
  rewrite !Z.mul_mod_idemp_l by lia.
  replace ((Z.of_nat p + 33554432) * 128)
    with (Z.of_nat p * 128 + 1 * 4294967296) by lia.
  apply Z.mod_add. lia.
Qed.

Lemma block_no_wrap (p : nat) :
  block_no (p + Z.to_nat 33554432) = block_no p.
Proof.
  unfold block_no, u8. rewrite Nat2Z.inj_add, Z2Nat.id by lia.
  change (2 ^ 8) with 256.
  replace (1 + (Z.of_nat p + 33554432))
    with (1 + Z.of_nat p + 131072 * 256) by lia.
  apply Z.mod_add. lia.
Qed.

(** X6.  The block sent in round [p + 2^25] of the block loop is the
    block sent in round [p], number and payload: the payload offset
    [i * 128] is computed in [unsigned int] and starts again from 0
    after 4 GiB, as the block number does after every 256 blocks. *)
Theorem X6_payload_offset_wraps (cs le : bool) (fwbuf : cells) (p : nat) :
  nth_frame cs le fwbuf (p + Z.to_nat 33554432) = nth_frame cs le fwbuf p.
Proof.
  unfold nth_frame, frame_of. now rewrite index_of_wrap, block_no_wrap.
Qed.

Lemma index_of_range (p : nat) : 0 <= index_of p < 4294967296.
Proof. unfold index_of, u32. apply Z.mod_pos_bound. reflexivity. Qed.

Lemma dots_no_dot (evs : list event) :
  forallb not_dot evs = true -> count_dots evs = 0%nat.
Proof.
  unfold count_dots. induction evs as [|e evs IH]; [reflexivity|].
  cbn [forallb filter]. intros H. apply andb_prop in H as [He Hr].
  unfold not_dot in He. destruct (is_dot e); [discriminate | auto].
Qed.

Lemma count_dots_app (a b : list event) :
  count_dots (a ++ b) = (count_dots a + count_dots b)%nat.
Proof. unfold count_dots. now rewrite filter_app, length_app. Qed.

Lemma write_not_dot (e : event) : is_write Xb e = true -> not_dot e = true.
Proof. destruct e; simpl; intros H; try discriminate; reflexivity. Qed.

Lemma dots_progress (i : Z) : count_dots (progress i) = 1%nat.
Proof.
  unfold progress. destruct (u32 (i + 1) mod 50 =? 0); reflexivity.
Qed.


Section Complete.
Variable cs le : bool.
Variable env : Env.

(** A loop that returns 0 has run [k] rounds, each of them complete:
    frame, acknowledgement, progress dot. *)
Lemma send_blocks_success fwbuf len : forall fuel p reply t evs,
  send_blocks cs le env fuel fwbuf len (block_no p) (index_of p) reply t
    = (evs, Ret 0) ->
  exists k,
    wire evs = frames cs le fwbuf p k /\
    (forall j, (j < k)%nat -> index_of (p + j) < len / 128) /\
    len / 128 <= index_of (p + k) /\
    count_dots evs = k /\
    count_reads evs = k.
Proof.
  induction fuel as [|fuel IH]; intros p reply t evs H.
  - cbn [send_blocks] in H.
    destruct (index_of p <? len / 128) eqn:Hi; inversion H; subst.
    apply Z.ltb_ge in Hi. exists 0%nat. rewrite Nat.add_0_r.
    repeat split; [lia | exact Hi].
  - destruct (Z.lt_ge_cases (index_of p) (len / 128)) as [Hi | Hi].
    2: { cbn [send_blocks] in H. apply Z.ltb_ge in Hi. rewrite Hi in H.
         inversion H; subst. exists 0%nat. rewrite Nat.add_0_r.
         apply Z.ltb_ge in Hi. repeat split; [lia | exact Hi]. }
    destruct (send_blocks_S cs le env fwbuf len _ _ _ _ _ _ H Hi)
      as (eb & rb & Hb & Hrest).
    destruct (send_block_cases cs le env fwbuf (block_no p) (index_of p)
                reply t) as (eb' & rb' & Hb' & Hcases).
    rewrite Hb in Hb'. inversion Hb'; subst eb' rb'. clear Hb'.
    destruct Hcases
      as [(_ & Hrb & _) | (E & HwE & HwireE & _ & Hreply)].
    { destruct Hrb as [-> | ->]; destruct Hrest as [_ Hr]; discriminate. }
    cbv zeta in Hreply.
    destruct (not_acked cs (read_at env (t ++ E) Xb 1)).
    { destruct Hreply as [_ ->]. destruct Hrest as [_ Hr]. discriminate. }
    destruct Hreply as [-> ->]. destruct Hrest as (evs' & Hrec & ->).
    destruct (IH _ _ _ _ Hrec) as (k & Hwire & Hlt & Hend & Hdots & Hreads).
    exists (S k).
    replace (p + S k)%nat with (S p + k)%nat by lia.
    split; [|split; [|split; [exact Hend|split]]].
    + rewrite frames_S, !wire_app, HwireE, Hwire.
      cbn [wire flat_map wire_of app]. fold (wire (progress (index_of p))).
      rewrite wire_progress. cbn [app]. now rewrite app_nil_r.
    + intros [|j] Hj; [now rewrite Nat.add_0_r|].
      replace (p + S j)%nat with (S p + j)%nat by lia. apply Hlt. lia.
    + change (E ++ ERead Xb 1 (read_at env (t ++ E) Xb 1)
                :: progress (index_of p))
        with (E ++ [ERead Xb 1 (read_at env (t ++ E) Xb 1)]
                ++ progress (index_of p)).
      rewrite !count_dots_app, dots_progress, Hdots.
      rewrite (dots_no_dot E (forallb_weaken _ _ _ write_not_dot HwE)).
      reflexivity.
    + change (E ++ ERead Xb 1 (read_at env (t ++ E) Xb 1)
                :: progress (index_of p))
        with (E ++ [ERead Xb 1 (read_at env (t ++ E) Xb 1)]
                ++ progress (index_of p)).
      rewrite !count_reads_app, Hreads.
      rewrite (count_reads_none E (forallb_weaken _ _ _ write_not_read HwE)).
      rewrite (count_reads_none _ (no_read_progress _)). reflexivity.
Qed.


(** X7.  The block loop never runs to its end for an image of 2^32
    blocks or more: the index [i] is an [unsigned int], and the test
    [i < len / 128] holds for every value it can take. *)
Theorem X7_block_loop_huge_image (fuel : nat) (fwbuf : cells) (len : Z)
    (reply : option byte) (t : trace) :
  2 ^ 32 <= len / 128 ->
  snd (send_blocks cs le env fuel fwbuf len 1 0 reply t) <> Ret 0.
Proof.
  intros Hbig Hrun.
  destruct (send_blocks cs le env fuel fwbuf len 1 0 reply t)
    as [evs r] eqn:H. cbn [snd] in Hrun. subst r.
  change (send_blocks cs le env fuel fwbuf len 1 0 reply t)
    with (send_blocks cs le env fuel fwbuf len (block_no 0) (index_of 0)
            reply t) in H.
  destruct (send_blocks_success _ _ _ _ _ _ _ H) as (k & _ & _ & Hend & _).
  pose proof (index_of_range (0 + k)). change (2 ^ 32) with 4294967296 in *.
  lia.
Qed.











End Complete.

Lemma X7_block_loop_huge_image_witness :
  snd (send_blocks true true failing_line 0 [] 549755813888 1 0 None [])
    <> Ret 0.
Proof.
  apply (X7_block_loop_huge_image true true failing_line 0 []
           549755813888 None []).
  vm_compute. discriminate.
Defined.


(** * Further properties: the image buffer *)

Lemma store_bytes_fits (buf : cells) (off : Z) (d : list byte) :
  0 <= off -> off + Z.of_nat (length d) <= Z.of_nat (length buf) ->
  exists buf', store_bytes buf off d = Some buf' /\ length buf' = length buf.
Proof.
  intros H0 H1. unfold store_bytes.
  replace (0 <=? off) with true by (symmetry; apply Z.leb_le; lia).
  replace (_ <=? _) with true by (symmetry; apply Z.leb_le; lia).
  cbn [andb]. eexists. split; [reflexivity|].
  rewrite !length_app, length_firstn, length_map, length_skipn. lia.
Qed.

Section Bounds.
Variable env : Env.

(** The read loop stays inside a buffer of [len] cells and comes to an
    end, whatever the file delivers. *)
Lemma read_firmware_in_bounds (len : Z) (n : nat) : forall fwbuf off t,
  Z.of_nat (length fwbuf) = len -> 0 <= off <= len ->
  len - off < Z.of_nat n ->
  exists evs r,
    read_firmware env n fwbuf len off t = (evs, Ret r) /\
    Z.of_nat (fw_pos evs) <= len - off /\
    match r with
    | Some fwbuf' => Z.of_nat (length fwbuf') = len
    | None => True
    end.
Proof.
  induction n as [|n IH]; intros fwbuf off t Hbuf Hoff Hn; [lia|].
  cbn [read_firmware]. unfold bind at 1. cbn [sys_read]. unfold read_at.
  destruct (env_read env t Fw (len - off)) as [|d0].
  { do 2 eexists. split; [reflexivity|]. cbn. split; [lia | exact I]. }
  set (d := firstn (Z.to_nat (len - off)) d0).
  assert (Hd : Z.of_nat (length d) <= len - off)
    by (subst d; rewrite length_firstn; lia).
  destruct (store_bytes_fits fwbuf off d ltac:(lia) ltac:(lia))
    as (fwbuf' & -> & Hlen').
  destruct (Z.of_nat (length d) =? 0) eqn:E.
  { do 2 eexists. split; [reflexivity|]. cbn [app fw_pos ret].
    apply Z.eqb_eq in E. split; lia. }
  apply Z.eqb_neq in E.
  destruct (IH fwbuf' (off + Z.of_nat (length d))
              (t ++ [ERead Fw (len - off) (RData d)])
              ltac:(lia) ltac:(lia) ltac:(lia))
    as (evs & r & Hrun & Hpos & Hr).
  rewrite Hrun. do 2 eexists. split; [reflexivity|].
  cbn [app fw_pos]. split; [lia | exact Hr].
Qed.

(** X9.  With a file size that [off_t] can hold, [load_firmware] always
    comes back, either with -1 or with a buffer of the padded length:
    the padding and every byte read from the file are stored inside the
    buffer, and no more than its length is ever read from the file. *)
Theorem X9_load_firmware_in_bounds (t : trace) :
  (forall s, env_fstat env t Fw = Some s -> 0 <= s < 2 ^ 63) ->
  exists evs r,
    load_firmware env t = (evs, Ret r) /\
    match r with
    | inl e => e = -1
    | inr (fwbuf, len) =>
        exists s,
          env_fstat env t Fw = Some s /\ len = padded_len s /\
          Z.of_nat (length fwbuf) = len /\
          Z.of_nat (fw_pos evs) <= len
    end.
Proof.
  intros Hsize. unfold load_firmware, bind at 1. cbn [sys_fstat].
  destruct (env_fstat env t Fw) as [s|] eqn:Hs.
  2: { do 2 eexists. split; reflexivity. }
  specialize (Hsize s eq_refl).
  destruct (s =? 0) eqn:E0.
  { do 2 eexists. split; reflexivity. }
  apply Z.eqb_neq in E0.
  destruct (padded_len_spec s ltac:(lia)) as (_ & Hlen & _).
  set (len := padded_len s) in *.
  unfold bind at 1. cbn [sys_malloc].
  destruct (env_malloc env _ len); cbn [negb].
  2: { do 2 eexists. split; reflexivity. }
  assert (Hpad : u64 (len - s) = len - s).
  { unfold u64. apply Z.mod_small.
    change (2 ^ 64) with 18446744073709551616. lia. }
  unfold memset. rewrite Hpad.
  replace (0 <=? len - s) with true by (symmetry; apply Z.leb_le; lia).
  destruct (store_bytes_fits (repeat None (Z.to_nat len)) s
              (repeat xff (Z.to_nat (len - s))))
    as (fwbuf0 & -> & Hlen0); [lia | rewrite !repeat_length; lia |].
  rewrite repeat_length in Hlen0.
  set (t1 := (t ++ [EFstat Fw (Some s)]) ++ [EMalloc len true]).
  destruct (read_firmware_in_bounds len (S (Z.to_nat len)) fwbuf0 0 t1
              ltac:(lia) ltac:(lia) ltac:(lia))
    as (evs & r & Hrun & Hpos & Hr).
  unfold bind at 1. fold t1. rewrite Hrun.
  destruct r as [fwbuf|].
  - do 2 eexists. split; [reflexivity|]. exists s.
    split; [reflexivity|]. split; [reflexivity|]. split; [exact Hr|].
    cbn [app fw_pos]. rewrite fw_pos_app. cbn [fw_pos]. lia.
  - do 2 eexists. split; reflexivity.
Qed.

End Bounds.

Lemma X9_load_firmware_witness :
  exists evs r,
    load_firmware (device_ok fw_a300) [] = (evs, Ret r) /\
    match r with
    | inl e => e = -1
    | inr (fwbuf, len) =>
        exists s,
          env_fstat (device_ok fw_a300) [] Fw = Some s /\
          len = padded_len s /\
          Z.of_nat (length fwbuf) = len /\
          Z.of_nat (fw_pos evs) <= len
    end.
Proof.
  apply (X9_load_firmware_in_bounds (device_ok fw_a300) []).
  intros s H. vm_compute in H. injection H as <-. vm_compute.
  split; [discriminate | reflexivity].
Defined.

(** * Further properties: the checksum detects a corrupted byte *)

Lemma testbit_15 (x : Z) :
  0 <= x < 65536 -> Z.testbit x 15 = (32768 <=? x).
Proof.
  intros Hx. rewrite Z.testbit_odd, Z.shiftr_div_pow2 by lia.
  change (2 ^ 15) with 32768.
  destruct (32768 <=? x) eqn:E.
  - apply Z.leb_le in E. replace (x / 32768) with 1; [reflexivity|].
    apply Z.div_unique with (r := x - 32768); lia.
  - apply Z.leb_gt in E. now rewrite Z.div_small by lia.
Qed.

Lemma odd_lxor (a b : Z) : Z.odd (Z.lxor a b) = xorb (Z.odd a) (Z.odd b).
Proof. rewrite <- !Z.bit0_odd. apply Z.lxor_spec. Qed.

Lemma lxor_cancel_r (a c : Z) : Z.lxor (Z.lxor a c) c = a.
Proof. now rewrite Z.lxor_assoc, Z.lxor_nilpotent, Z.lxor_0_r. Qed.

(** A shift of the register loses nothing: it can be undone. *)
Lemma crc16_unshift_shift (x : Z) :
  0 <= x < 65536 -> crc16_unshift (crc16_shift_ref x) = x.
Proof.
  intros Hx. unfold crc16_unshift, crc16_shift_ref.
  rewrite testbit_15 by exact Hx.
  destruct (32768 <=? x) eqn:E.
  - apply Z.leb_le in E.
    replace ((2 * x) mod 65536) with (2 * (x - 32768))
      by (apply Z.mod_unique with (q := 1); lia).
    rewrite odd_lxor, Z.odd_mul. cbn [Z.odd xorb andb].
    rewrite lxor_cancel_r, Z.mul_comm, Z.div_mul by lia. lia.
  - apply Z.leb_gt in E. rewrite Z.mod_small by lia.
    rewrite Z.odd_mul. cbn [Z.odd andb].
    rewrite Z.mul_comm, Z.div_mul by lia. reflexivity.
Qed.

Lemma crc_shift_inj (x y : Z) :
  0 <= x < 65536 -> 0 <= y < 65536 ->
  crc_shift x = crc_shift y -> x = y.
Proof.
  intros Hx Hy H.
  destruct (crc_shift_ref x Hx) as [Ex _].
  destruct (crc_shift_ref y Hy) as [Ey _].
  rewrite Ex, Ey in H.
  rewrite <- (crc16_unshift_shift x Hx), <- (crc16_unshift_shift y Hy).
  now rewrite H.
Qed.

Lemma crc_shift_iter_inj (n : nat) (x y : Z) :
  0 <= x < 65536 -> 0 <= y < 65536 ->
  Nat.iter n crc_shift x = Nat.iter n crc_shift y -> x = y.
Proof.
  intros Hx Hy. induction n as [|n IH]; [auto|].
  rewrite !Nat.iter_succ. intros H. apply IH.
  apply crc_shift_inj; [apply crc_shift_iter | apply crc_shift_iter |];
    assumption.
Qed.

(** The value XORed into the register for byte [b]. *)
Lemma crc_update_unfold (cs : bool) (rem : Z) (b : byte) :
  0 <= rem < 65536 ->
  crc_update cs rem b =
    Nat.iter 8 crc_shift (Z.lxor rem (byte_to_Z b * 256)) /\
  0 <= Z.lxor rem (byte_to_Z b * 256) < 65536.
Proof.
  intros Hrem. unfold crc_update, u16.
  rewrite lxor_mod_pow2, char_shift_u16 by lia.
  change (2 ^ 16) with 65536. rewrite Z.mod_small by lia.
  split; [reflexivity|]. pose proof (byte_to_Z_range b).
  apply lxor_u16_range; lia.
Qed.

Lemma lxor_cancel_l (a c d : Z) : Z.lxor a c = Z.lxor a d -> c = d.
Proof.
  intros H. apply (f_equal (Z.lxor a)) in H.
  now rewrite <- !Z.lxor_assoc, Z.lxor_nilpotent, !Z.lxor_0_l in H.
Qed.

Lemma crc_update_inj_byte (cs : bool) (rem : Z) (b b' : byte) :
  0 <= rem < 65536 ->
  crc_update cs rem b = crc_update cs rem b' -> b = b'.
Proof.
  intros Hrem H.
  destruct (crc_update_unfold cs rem b Hrem) as [E R].
  destruct (crc_update_unfold cs rem b' Hrem) as [E' R'].
  rewrite E, E' in H. apply crc_shift_iter_inj in H; [|exact R|exact R'].
  apply lxor_cancel_l in H. apply byte_to_Z_inj. lia.
Qed.

Lemma crc_update_inj_rem (cs : bool) (rem rem' : Z) (b : byte) :
  0 <= rem < 65536 -> 0 <= rem' < 65536 ->
  crc_update cs rem b = crc_update cs rem' b -> rem = rem'.
Proof.
  intros Hrem Hrem' H.
  destruct (crc_update_unfold cs rem b Hrem) as [E R].
  destruct (crc_update_unfold cs rem' b Hrem') as [E' R'].
  rewrite E, E' in H. apply crc_shift_iter_inj in H; [|exact R|exact R'].
  rewrite <- (lxor_cancel_r rem (byte_to_Z b * 256)), H.
  apply lxor_cancel_r.
Qed.

Lemma crc_fold_inj (cs : bool) (data : list byte) : forall rem rem',
  0 <= rem < 65536 -> 0 <= rem' < 65536 ->
  fold_left (crc_update cs) data rem = fold_left (crc_update cs) data rem' ->
  rem = rem'.
Proof.
  induction data as [|b data IH]; intros rem rem' Hrem Hrem' H; [exact H|].
  cbn [fold_left] in H.
  apply IH in H; try (apply crc_update_ref; assumption).
  now apply crc_update_inj_rem in H.
Qed.

(** X10.  [xmodem_crc] tells apart any two blocks that differ in one
    byte only, anywhere among the 128 bytes it reads: the checksums are
    different, on a platform with signed [char] as on one with unsigned
    [char]. *)
Theorem X10_checksum_detects_byte (cs : bool) (pre post : list byte)
    (b b' : byte) :
  (length pre < 128)%nat -> b <> b' ->
  xmodem_crc cs (pre ++ b :: post) <> xmodem_crc cs (pre ++ b' :: post).
Proof.
  intros Hpre Hb. unfold xmodem_crc.
  rewrite !firstn_app.
  replace (128 - length pre)%nat with (S (127 - length pre)) by lia.
  cbn [firstn]. rewrite !fold_left_app. cbn [fold_left].
  set (rem := fold_left (crc_update cs) (firstn 128 pre) 0).
  assert (Hrem : 0 <= rem < 65536) by (apply crc_fold_ref; lia).
  intros H. apply crc_fold_inj in H;
    try (apply crc_update_ref; exact Hrem).
  now apply crc_update_inj_byte in H.
Qed.

Lemma X10_checksum_detects_byte_witness :
  xmodem_crc true ([x41] ++ x00 :: [x42]) <>
  xmodem_crc true ([x41] ++ x80 :: [x42]).
Proof.
  apply (X10_checksum_detects_byte true [x41] [x42] x00 x80).
  - cbn [length]. lia.
  - discriminate.
Defined.

(** * Further properties: how [main] ends *)

Lemma stays_ret {A} (a : A) : stays (ret a).
Proof. intros t s. discriminate. Qed.

Lemma stays_bind {A B} (m : M A) (f : A -> M B) :
  stays m -> (forall a, stays (f a)) -> stays (bind m f).
Proof.
  intros Hm Hf t s. unfold bind. specialize (Hm t).
  destruct (m t) as [e1 [a|x| |]]; cbn [snd] in *; try discriminate.
  - specialize (Hf a (t ++ e1) s).
    destruct (f a (t ++ e1)) as [e2 r]. exact Hf.
  - now destruct (Hm x).
Qed.

(** Splits a goal [stays m] along the structure of [m]; what is left
    are the calls of other functions. *)
Ltac stays_step :=
  match goal with
  | |- stays (bind _ _) => apply stays_bind; [|intros]
  | |- stays (ret _) => apply stays_ret
  | |- stays (if ?c then _ else _) => destruct c
  | |- stays (emit _) => intros ? ?; discriminate
  | |- stays (printf _ _) => intros ? ?; discriminate
  | |- stays (warn _ _) => intros ? ?; discriminate
  | |- stays (warnx _ _) => intros ? ?; discriminate
  | |- stays diverge => intros ? ?; discriminate
  | |- stays undefined => intros ? ?; discriminate
  | |- stays (sys_read _ _ _) => intros ? ?; discriminate
  | |- stays (sys_write _ _ _) => intros ? ?; discriminate
  | |- stays (sys_poll _ _ _) => intros ? ?; discriminate
  | |- stays (sys_fstat _ _) => intros ? ?; discriminate
  | |- stays (sys_malloc _ _) => intros ? ?; discriminate
  | |- stays (sys_open _ _) => intros ? ?; discriminate
  | |- stays (sys_tcgetattr _ _) => intros ? ?; discriminate
  | |- stays (sys_tcsetattr _ _ _) => intros ? ?; discriminate
  end.

Ltac stays_tac := repeat stays_step.

Lemma exits_stays {A} (m : M A) : stays m -> exits_cleanly m.
Proof. intros H t s E. now destruct (H t s). Qed.

Lemma exits_bind {A B} (m : M A) (f : A -> M B) :
  exits_cleanly m -> (forall a, exits_cleanly (f a)) ->
  exits_cleanly (bind m f).
Proof.
  intros Hm Hf t s. unfold bind. specialize (Hm t s).
  destruct (m t) as [e1 [a|x| |]]; cbn [fst snd] in *; try discriminate.
  - specialize (Hf a (t ++ e1) s).
    destruct (f a (t ++ e1)) as [e2 r]. cbn [fst snd] in *.
    intros E. destruct (Hf E) as (Hs & pre & d & -> & Hd).
    split; [exact Hs|]. exists (e1 ++ pre), d.
    split; [now rewrite app_assoc | exact Hd].
  - intros E. injection E as ->. now apply Hm.
Qed.

Lemma exits_err {A} fmt args : exits_cleanly (@err A EXIT_FAILURE fmt args).
Proof.
  intros t s E. cbn in E. injection E as <-. split; [reflexivity|].
  exists [], (EErr fmt args). now split.
Qed.

Lemma exits_errx {A} fmt args :
  exits_cleanly (@errx A EXIT_FAILURE fmt args).
Proof.
  intros t s E. cbn in E. injection E as <-. split; [reflexivity|].
  exists [], (EErrx fmt args). now split.
Qed.

Section Outcomes.
Variable cs le : bool.
Variable env : Env.

Lemma stays_xb_write buf : stays (xb_write env Xb buf).
Proof.
  intros t s. destruct (xb_write_spec env buf t) as (e & r & H & _).
  rewrite H. discriminate.
Qed.

Lemma stays_xb_read f count : stays (xb_read env f count).
Proof.
  intros t s. destruct (xb_read_spec env f count t) as (e & k & b & H & _).
  rewrite H. discriminate.
Qed.

Lemma stays_wait_for_ok fuel f : stays (wait_for_ok cs env fuel f).
Proof.
  intros t s. destruct (wait_for_ok_result cs env f fuel t) as [H | H];
    rewrite H; discriminate.
Qed.

Lemma stays_probe_loop n : forall i, stays (probe_loop env n i).
Proof.
  induction n as [|n IH]; intros i; cbn [probe_loop]; [apply stays_ret|].
  apply stays_bind; [apply stays_xb_write|]. intros _.
  apply stays_bind; [apply stays_xb_read|]. intros rb.
  destruct (0 <? fst rb); [apply stays_ret | apply IH].
Qed.

Lemma stays_read_firmware n : forall fwbuf len off,
  stays (read_firmware env n fwbuf len off).
Proof.
  induction n as [|n IH]; intros fwbuf len off; cbn [read_firmware];
    [stays_tac|].
  apply stays_bind; [stays_tac|]. intros [|d]; [stays_tac|].
  destruct (store_bytes fwbuf off d); [|stays_tac].
  destruct (_ =? 0); [stays_tac | apply IH].
Qed.

Lemma stays_send_block fwbuf block i reply :
  stays (send_block cs le env fwbuf block i reply).
Proof.
  unfold send_block.
  apply stays_bind; [apply stays_xb_write|]. intros w1.
  destruct (negb (w1 =? 0)); [stays_tac|].
  destruct (load_bytes _ _ _); [|stays_tac].
  apply stays_bind; [apply stays_xb_write|]. intros w2.
  destruct (negb (w2 =? 0)); [stays_tac|].
  apply stays_bind; [apply stays_xb_write|]. intros w3.
  destruct (negb (w3 =? 0)); stays_tac.
Qed.

Lemma stays_send_blocks fuel fwbuf len : forall block i reply,
  stays (send_blocks cs le env fuel fwbuf len block i reply).
Proof.
  induction fuel as [|fuel IH]; intros block i reply; cbn [send_blocks];
    (destruct (i <? len / 128); [|apply stays_ret]); [stays_tac|].
  apply stays_bind; [apply stays_send_block|].
  intros [code|reply']; [apply stays_ret | apply IH].
Qed.

(** [xb_firmware_update] never leaves the process: whatever goes wrong
    is handed back to [main]. *)
Lemma stays_xb_firmware_update fuel :
  stays (xb_firmware_update cs le env fuel).
Proof.
  unfold xb_firmware_update. apply stays_bind.
  { unfold request_transfer. apply stays_bind; [apply stays_xb_write|].
    intros w. destruct (negb (w =? 0)); [stays_tac|].
    apply stays_bind; [apply stays_xb_read|]. intros [n buf]. stays_tac. }
  intros g. destruct (negb (g =? 0)); [apply stays_ret|].
  apply stays_bind.
  { unfold load_firmware. apply stays_bind; [stays_tac|].
    intros [st_size|]; [|stays_tac]. destruct (st_size =? 0); [stays_tac|].
    apply stays_bind; [stays_tac|]. intros ok.
    destruct (negb ok); [stays_tac|].
    destruct (memset _ _ _ _); [|stays_tac].
    apply stays_bind; [apply stays_read_firmware|].
    intros [fwbuf|]; stays_tac. }
  intros [e|[fwbuf len]]; [apply stays_ret|].
  apply stays_bind; [apply stays_send_blocks|]. intros s.
  destruct (negb (s =? 0)); [apply stays_ret|].
  unfold end_of_transmission. apply stays_bind; [stays_tac|]. intros _.
  apply stays_bind; [apply stays_xb_write|]. intros w.
  destruct (negb (w =? 0)); [stays_tac|].
  apply stays_bind; [apply stays_xb_read|]. intros [n buf]. stays_tac.
Qed.

Lemma exits_enter_bootloader fuel argv :
  exits_cleanly (enter_bootloader cs env fuel argv).
Proof.
  unfold enter_bootloader. destruct (_ <? 2); [apply exits_errx|].
  apply exits_bind; [apply exits_stays; stays_tac|]. intros ok1.
  destruct (negb ok1); [apply exits_err|].
  apply exits_bind; [apply exits_stays; stays_tac|]. intros ok2.
  destruct (negb ok2); [apply exits_err|].
  apply exits_bind; [apply exits_stays; stays_tac|]. intros [serial|];
    [|apply exits_err].
  do 4 (apply exits_bind; [apply exits_stays; stays_tac|]; intros).
  apply exits_bind; [apply exits_stays, stays_wait_for_ok|]. intros.
  apply exits_bind; [apply exits_stays; stays_tac|]. intros.
  apply exits_bind.
  { apply exits_stays. rewrite xb_send_command_plain.
    apply stays_bind; [apply stays_xb_write|]. intros.
    apply stays_bind; [apply stays_wait_for_ok|]. intros. apply stays_ret. }
  intros.
  do 5 (apply exits_bind; [apply exits_stays; stays_tac|]; intros).
  apply exits_bind; [apply exits_stays; stays_tac|]. intros ok.
  destruct (negb ok); [apply exits_err | apply exits_stays, stays_ret].
Qed.

Lemma exits_run_firmware serial : exits_cleanly (run_firmware env serial).
Proof.
  unfold run_firmware.
  apply exits_bind; [apply exits_stays; stays_tac|]. intros.
  apply exits_bind; [apply exits_stays, stays_xb_write|]. intros.
  apply exits_bind; [apply exits_stays; stays_tac|]. intros ok.
  destruct (negb ok); [apply exits_err | apply exits_stays; stays_tac].
Qed.

(** What [run_firmware] has done when it returns. *)
Lemma run_firmware_ret serial t e s :
  run_firmware env serial t = (e, Ret s) ->
  s = EXIT_SUCCESS /\
  exists w,
    e = [EPrintf "Programming complete, running uploaded firmware...\n" [];
         EWrite Xb ["2"%byte] w;
         ETcsetattr Xb (cfsetspeed serial B9600) true;
         EClose Fw; EClose Xb].
Proof.
  unfold run_firmware, bind. cbn [printf emit]. rewrite xb_write_one.
  cbv zeta. cbn [sys_tcsetattr].
  match goal with
  | |- context [negb ?b] => destruct b
  end; cbn; intros H; inversion H; subst.
  split; [reflexivity|]. now eexists.
Qed.

(** X11.  [main] has two ways to end.  It returns only after a
    successful update, and then with [EXIT_SUCCESS]; the last things it
    did were to write the selection '2' (whose result is not looked at),
    to set the line to 9600 baud, which succeeded, and to close both
    descriptors.  Or it leaves through [err] or [errx]: the status is
    [EXIT_FAILURE], the diagnostic is the last event, and nothing is
    closed or reset after it. *)
Theorem X11_main_outcomes (fuel : nat) (argv : list string) (t : trace) :
  let evs := fst (main cs le env fuel argv t) in
  let r := snd (main cs le env fuel argv t) in
  (forall s, r = Ret s ->
     s = EXIT_SUCCESS /\
     exists pre eu w tio,
       fst (xb_firmware_update cs le env fuel (t ++ pre)) = eu /\
       snd (xb_firmware_update cs le env fuel (t ++ pre)) = Ret 0 /\
       evs = pre ++ eu ++
             [EPrintf "Programming complete, running uploaded firmware...\n"
                [];
              EWrite Xb ["2"%byte] w;
              ETcsetattr Xb tio true; EClose Fw; EClose Xb] /\
       c_speed tio = B9600) /\
  (forall s, r = Exited s ->
     s = EXIT_FAILURE /\
     exists pre d, evs = pre ++ [d] /\ is_diagnostic d = true).
Proof.
  cbv zeta. split.
  - intros s Hr.
    destruct (main cs le env fuel argv t) as [evs r] eqn:Hm.
    cbn [fst snd] in *. subst r.
    rewrite main_eq in Hm. unfold bind at 1 in Hm.
    destruct (prepare_link cs env fuel argv t) as [e0 [serial|x| |]];
      try discriminate.
    unfold bind at 1 in Hm.
    destruct (xb_firmware_update cs le env fuel (t ++ e0))
      as [eu [u|x| |]] eqn:Hu; try discriminate.
    destruct (negb (u =? 0)) eqn:Eu.
    { unfold errx, bind, emit, exit in Hm. discriminate. }
    apply negb_false_iff, Z.eqb_eq in Eu. subst u.
    destruct (run_firmware env serial ((t ++ e0) ++ eu)) as [e2 r2] eqn:H2.
    injection Hm as He Hr. subst evs r2.
    destruct (run_firmware_ret _ _ _ _ H2) as (-> & w & ->).
    split; [reflexivity|].
    exists e0, eu, w, (cfsetspeed serial B9600). rewrite Hu.
    repeat split.
  - intros s. apply (exits_bind (enter_bootloader cs env fuel argv)).
    { apply exits_enter_bootloader. }
    intros serial.
    apply exits_bind; [apply exits_stays, stays_probe_loop|]. intros _.
    apply exits_bind.
    { unfold restore_read_policy.
      apply exits_bind; [apply exits_stays; stays_tac|]. intros ok.
      destruct (negb ok); [apply exits_err | apply exits_stays; stays_tac]. }
    intros serial'.
    apply exits_bind; [apply exits_stays, stays_xb_firmware_update|].
    intros u. destruct (negb (u =? 0));
      [apply exits_errx | apply exits_run_firmware].
Qed.

End Outcomes.

(** * Further properties: the settings of the line *)

Lemma settings_app (a b : list event) :
  settings (a ++ b) = settings a ++ settings b.
Proof. unfold settings. apply flat_map_app. Qed.

Lemma settings_quiet (evs : list event) :
  forallb no_setting evs = true -> settings evs = [].
Proof.
  induction evs as [|e evs IH]; [reflexivity|].
  cbn [forallb]. intros H. apply andb_prop in H as [He Hr].
  unfold settings in *. cbn [flat_map]. rewrite (IH Hr), app_nil_r.
  destruct e; try reflexivity. discriminate.
Qed.

Lemma transfer_no_setting (e : event) :
  transfer_event e = true -> no_setting e = true.
Proof. destruct e; simpl; intros H; try discriminate; reflexivity. Qed.

(** The events and the result of [bind m f], by the result of [m]. *)
Lemma bind_run {A B} (m : M A) (f : A -> M B) (t : trace) :
  (exists a,
     snd (m t) = Ret a /\
     fst (bind m f t) = fst (m t) ++ fst (f a (t ++ fst (m t))) /\
     snd (bind m f t) = snd (f a (t ++ fst (m t)))) \/
  ((forall a, snd (m t) <> Ret a) /\
   fst (bind m f t) = fst (m t) /\
   forall b, snd (bind m f t) <> Ret b).
Proof.
  unfold bind. destruct (m t) as [e1 [a|s| |]]; cbn [fst snd].
  - left. exists a. destruct (f a (t ++ e1)) as [e2 r]. now repeat split.
  - right. repeat split; discriminate.
  - right. repeat split; discriminate.
  - right. repeat split; discriminate.
Qed.

(** A step without [tcsetattr] in front changes nothing. *)
Lemma sets_once_bind {A B} (tio : termios) (b : B) (m : M A)
    (f : A -> M B) (t : trace) :
  emits no_setting m ->
  (forall a t', sets_once tio b (fst (f a t')) (snd (f a t'))) ->
  sets_once tio b (fst (bind m f t)) (snd (bind m f t)).
Proof.
  intros Hm Hf. specialize (Hm t). apply settings_quiet in Hm.
  destruct (bind_run m f t) as [(a & _ & -> & ->) | (_ & -> & Hr)].
  - unfold sets_once in *. rewrite settings_app, Hm. apply Hf.
  - left. now split.
Qed.

Section Settings.
Variable cs le : bool.
Variable env : Env.

(** [enter_bootloader] sets the line once, as its last step, to the
    policy of the probe, derived from what [tcgetattr] delivered. *)
Lemma enter_bootloader_settings fuel argv t :
  let evs := fst (enter_bootloader cs env fuel argv t) in
  let r := snd (enter_bootloader cs env fuel argv t) in
  (settings evs = [] /\ forall s, r <> Ret s) \/
  (exists orig,
     In (ETcgetattr Xb (Some orig)) evs /\
     sets_once (probe_policy orig) (probe_policy orig) evs r).
Proof.
  cbv zeta. unfold enter_bootloader.
  destruct (_ <? 2); [left; cbn; split; [reflexivity | discriminate]|].
  match goal with
  | |- context [bind (sys_open env ?p) ?f t] =>
      destruct (bind_run (sys_open env p) f t)
        as [(ok1 & Hok1 & -> & ->) | (H & _)];
        [|now destruct (H (env_open env t p))]
  end.
  cbn [sys_open fst snd] in *. injection Hok1 as Hok1. rewrite Hok1.
  set (t1 := t ++ _).
  destruct ok1; cbn [negb];
    [|left; cbn; split; [reflexivity | discriminate]].
  match goal with
  | |- context [bind (sys_open env ?p) ?f t1] =>
      destruct (bind_run (sys_open env p) f t1)
        as [(ok2 & Hok2 & -> & ->) | (H & _)];
        [|now destruct (H (env_open env t1 p))]
  end.
  cbn [sys_open fst snd] in *. injection Hok2 as Hok2. rewrite Hok2.
  set (t2 := t1 ++ _).
  destruct ok2; cbn [negb];
    [|left; cbn; split; [reflexivity | discriminate]].
  match goal with
  | |- context [bind (sys_tcgetattr env Xb) ?f t2] =>
      destruct (bind_run (sys_tcgetattr env Xb) f t2)
        as [(tio & Htio & -> & ->) | (H & _)];
        [|now destruct (H (env_tcgetattr env t2 Xb))]
  end.
  cbn [sys_tcgetattr fst snd] in *. injection Htio as Htio. rewrite Htio.
  set (t3 := t2 ++ _).
  destruct tio as [orig|];
    [|left; cbn; split; [reflexivity | discriminate]].
  right. exists orig. split.
  { right. right. now left. }
  assert (Hfront : forall l r,
            sets_once (probe_policy orig) (probe_policy orig) l r ->
            sets_once (probe_policy orig) (probe_policy orig)
              ([EOpen (nth 1 argv EmptyString) true] ++
               [EOpen "/dev/ttyUSB0" true] ++
               [ETcgetattr Xb (Some orig)] ++ l) r).
  { intros l r [[Hs Hr] | (ok & Hs & Hr)]; [left | right; exists ok];
      (split; [|exact Hr]); rewrite !settings_app, Hs; reflexivity. }
  apply Hfront. clear Hfront.
  do 4 (apply sets_once_bind; [emits_tac|]; intros).
  apply sets_once_bind; [now apply emits_wait_for_ok|]. intros.
  apply sets_once_bind; [emits_tac|]. intros.
  apply sets_once_bind; [now apply emits_xb_send_command_plain|]. intros.
  do 5 (apply sets_once_bind; [emits_tac|]; intros).
  unfold bind. cbn [sys_tcsetattr].
  match goal with
  | |- context [env_tcsetattr env ?t' Xb ?s] =>
      destruct (env_tcsetattr env t' Xb s)
  end; cbn [negb]; right; [exists true | exists false]; cbn;
    (split; [reflexivity|]); [reflexivity | discriminate].
Qed.

(** X12.  [main] calls [tcsetattr] at most three times, always on the
    serial line, each time only after the call before succeeded: first
    with 115200 baud, VMIN 0 and VTIME 1, then with 115200 baud, VMIN 1
    and VTIME 0, last with 9600 baud, VMIN 1 and VTIME 0.  Everything
    else in the settings is what [tcgetattr] delivered at the start. *)
Theorem X12_main_line_settings (fuel : nat) (argv : list string)
    (t : trace) :
  let evs := fst (main cs le env fuel argv t) in
  settings evs = [] \/
  exists orig ok,
    In (ETcgetattr Xb (Some orig)) evs /\
    (settings evs = [(Xb, probe_policy orig, ok)] \/
     settings evs = [(Xb, probe_policy orig, true);
                     (Xb, transfer_policy orig, ok)] \/
     settings evs = [(Xb, probe_policy orig, true);
                     (Xb, transfer_policy orig, true);
                     (Xb, final_policy orig, ok)]).
Proof.
  cbv zeta. unfold main.
  pose proof (enter_bootloader_settings fuel argv t) as Henter.
  cbv zeta in Henter.
  match goal with
  | |- context [bind (enter_bootloader cs env fuel argv) ?f t] =>
      set (rest := f);
      destruct (bind_run (enter_bootloader cs env fuel argv) rest t)
        as [(serial & Hs & -> & _) | (Hnr & -> & _)]
  end.
  2: { destruct Henter as [[Hq _] | (orig & Hin & [[Hq _] | (ok & Hq & _)])].
       - now left.
       - now left.
       - right. exists orig, ok. split; [exact Hin | now left]. }
  destruct Henter as [[_ Hr] | (orig & Hin & [[_ Hr] | (ok & Hq & Hr)])];
    try (now destruct (Hr serial)).
  destruct ok; [|now destruct (Hr serial)].
  rewrite Hr in Hs. injection Hs as <-.
  set (ea := fst (enter_bootloader cs env fuel argv t)) in *.
  right. exists orig.
  assert (Hgoal : exists ok,
            (settings (fst (rest (probe_policy orig) (t ++ ea))) = [] /\
             ok = true) \/
            settings (fst (rest (probe_policy orig) (t ++ ea)))
              = [(Xb, transfer_policy orig, ok)] \/
            settings (fst (rest (probe_policy orig) (t ++ ea)))
              = [(Xb, transfer_policy orig, true);
                 (Xb, final_policy orig, ok)]).
  { subst rest. cbv beta.
    pose proof (emits_probe_loop env no_setting 20 0 ltac:(reflexivity)
                  ltac:(reflexivity) ltac:(reflexivity) (t ++ ea)) as Hp.
    apply settings_quiet in Hp.
    match goal with
    | |- context [bind (probe_loop env 20 0) ?f (t ++ ea)] =>
        destruct (bind_run (probe_loop env 20 0) f (t ++ ea))
          as [(i & _ & -> & _) | (_ & -> & _)]
    end.
    2: { exists true. left. split; [exact Hp | reflexivity]. }
    rewrite settings_app, Hp. cbn [app].
    set (t1 := (t ++ ea) ++ _).
    match goal with
    | |- context [bind (restore_read_policy env ?s) ?f t1] =>
        destruct (bind_run (restore_read_policy env s) f t1)
          as [(serial' & Hs' & -> & _) | (Hnr & -> & _)];
          rewrite restore_read_policy_run in *; cbv zeta in *;
          destruct (env_tcsetattr env t1 Xb (set_vmin_vtime s 1 0));
          cbn [fst snd] in *
    end.
    - injection Hs' as <-.
      set (t2 := t1 ++ _).
      pose proof (emits_xb_firmware_update cs le env fuel t2) as Hu.
      apply (forallb_weaken _ _ _ transfer_no_setting) in Hu.
      apply settings_quiet in Hu.
      match goal with
      | |- context [bind (xb_firmware_update cs le env fuel) ?f t2] =>
          destruct (bind_run (xb_firmware_update cs le env fuel) f t2)
            as [(u & _ & -> & _) | (_ & -> & _)]
      end.
      2: { exists true. right. left. rewrite settings_app, Hu.
           reflexivity. }
      rewrite !settings_app, Hu.
      destruct (negb (u =? 0)).
      { exists true. right. left. reflexivity. }
      set (t3 := t2 ++ _).
      destruct (run_firmware_run env
                  (set_vmin_vtime (probe_policy orig) 1 0) t3)
        as (w & ok & rest' & Hrun).
      assert (Hsr : settings
                      (fst (run_firmware env
                              (set_vmin_vtime (probe_policy orig) 1 0) t3))
                    = [(Xb, final_policy orig, ok)]).
      { unfold run_firmware, bind in Hrun |- *. cbn [printf emit] in *.
        rewrite xb_write_one in *. cbv zeta in *. cbn [sys_tcsetattr] in *.
        match goal with
        | |- context [negb ?b] => destruct b
        end; cbn in Hrun |- *; injection Hrun as _ <- _; reflexivity. }
      exists ok. right. right. rewrite Hsr. reflexivity.
    - discriminate.
    - now destruct (Hnr (set_vmin_vtime (probe_policy orig) 1 0)).
    - exists false. right. left. reflexivity. }
  destruct Hgoal as (ok' & Hgoal). exists ok'.
  split; [apply in_or_app; now left|].
  rewrite settings_app, Hq.
  destruct Hgoal as [[-> ->] | [-> | ->]].
  - now left.
  - right. now left.
  - right. now right.
Qed.

End Settings.

(** * Further properties: the way into the bootloader *)

Section Entry.
Variable cs : bool.
Variable env : Env.

(** Everything [enter_bootloader] has done when it returns. *)
Lemma enter_bootloader_returned fuel argv t evs serial :
  enter_bootloader cs env fuel argv t = (evs, Ret serial) ->
  exists orig w e_ok e_cmd,
    evs = [EOpen (nth 1 argv EmptyString) true; EOpen "/dev/ttyUSB0" true;
           ETcgetattr Xb (Some orig);
           EPrintf "Entering AT command mode...\n" [];
           ESleep 1; EWrite Xb plus3 w; ESleep 1] ++ e_ok ++
          [EPrintf "Entering bootloader...\n" []] ++ e_cmd ++
          break_sequence serial /\
    w <= 3 /\
    forallb not_write e_ok = true /\
    (exists j, wire e_cmd = firstn j (at_request ("F"%byte, "R"%byte) [])) /\
    serial = probe_policy orig.
Proof.
  intros H. unfold enter_bootloader in H.
  destruct (_ <? 2); [cbn in H; discriminate|].
  unfold bind at 1 in H. cbn [sys_open] in H.
  destruct (env_open env t _); cbn [negb] in H; [|cbn in H; discriminate].
  unfold bind at 1 in H. cbn [sys_open] in H.
  destruct (env_open env _ _); cbn [negb] in H; [|cbn in H; discriminate].
  unfold bind at 1 in H. cbn [sys_tcgetattr] in H.
  destruct (env_tcgetattr env _ Xb) as [orig|]; [|cbn in H; discriminate].
  do 2 (unfold bind at 1 in H; cbn [printf emit] in H).
  unfold bind at 1 in H. cbn [sys_write] in H.
  unfold bind at 1 in H. cbn [emit] in H.
  unfold bind at 1 in H.
  match type of H with
  | context [wait_for_ok cs env fuel Xb ?t'] =>
      pose proof (emits_wait_for_ok cs env not_write Xb fuel
                    ltac:(reflexivity) ltac:(reflexivity) t') as Hok;
      destruct (wait_for_ok cs env fuel Xb t') as [e_ok [[]|?| |]];
      try (cbn in H; discriminate)
  end.
  cbn [fst] in Hok.
  unfold bind at 1 in H. cbn [printf emit] in H.
  unfold bind at 1 in H.
  match type of H with
  | context [xb_send_command cs env fuel Xb ?c EmptyString None ?t'] =>
      pose proof (xb_send_command_plain cs env fuel Xb c None) as Hplain;
      destruct (xb_send_command cs env fuel Xb c EmptyString None t')
        as [e_cmd [wc|?| |]] eqn:Hcmd;
      try (cbn in H; discriminate)
  end.
  do 5 (unfold bind at 1 in H; cbn [emit] in H).
  unfold bind at 1 in H. cbn [sys_tcsetattr] in H.
  match type of H with
  | context [write_at env ?t' Xb ?d] => set (w := write_at env t' Xb d) in *
  end.
  destruct (env_tcsetattr env _ Xb _); cbn [negb] in H;
    [|cbn in H; discriminate].
  cbn [ret] in H. injection H as Hevs Hserial.
  exists orig, w, e_ok, e_cmd. split; [|split; [|split; [exact Hok|split]]].
  - subst evs serial. reflexivity.
  - subst w. unfold write_at. cbn [length]. lia.
  - rewrite Hplain in Hcmd. unfold bind at 1 in Hcmd.
    match type of Hcmd with
    | context [xb_write env Xb ?d ?t'] =>
        destruct (xb_write_spec env d t') as (e1 & w1 & H1 & _ & Hres);
        rewrite H1 in Hcmd;
        pose proof (wire_wait_for_ok cs env fuel (t' ++ e1)) as Hwire
    end.
    unfold bind at 1 in Hcmd.
    destruct (wait_for_ok cs env fuel Xb _) as [ew [[]|?| |]];
      try discriminate.
    cbn [fst ret] in *. injection Hcmd as <- _.
    rewrite !wire_app, Hwire, !app_nil_r.
    destruct Hres as [[_ Hw1] | [_ (k & _ & Hk)]].
    + exists 5%nat. exact Hw1.
    + exists k. exact Hk.
  - subst serial. reflexivity.
Qed.


(** X13.  When [enter_bootloader] returns, the device was asked for
    command mode and for a reset, and twice an OK was waited for, but
    whether the line took the requests was never looked at.  The escape
    sequence was offered to the line by a single [write], which may have
    taken any part of it; all the line has taken after that is some
    prefix of the reset request.  Then the modem control lines were set,
    a break was held for two seconds, and the line was switched to the
    settings that are returned. *)
Theorem X13_bootloader_entry_unchecked (fuel : nat) (argv : list string)
    (t : trace) (evs : list event) (serial : termios) :
  enter_bootloader cs env fuel argv t = (evs, Ret serial) ->
  exists pre w rest j,
    evs = pre ++ EWrite Xb plus3 w :: rest ++ break_sequence serial /\
    forallb not_write pre = true /\
    wire rest = firstn j (at_request ("F"%byte, "R"%byte) []) /\
    wire evs =
      firstn (Z.to_nat w) plus3 ++
      firstn j (at_request ("F"%byte, "R"%byte) []).
Proof.
  intros H.
  destruct (enter_bootloader_returned _ _ _ _ _ H)
    as (orig & w & e_ok & e_cmd & -> & Hw & Hok & (j & Hj) & _).
  exists [EOpen (nth 1 argv EmptyString) true; EOpen "/dev/ttyUSB0" true;
          ETcgetattr Xb (Some orig);
          EPrintf "Entering AT command mode...\n" []; ESleep 1],
    w, (ESleep 1 :: e_ok ++ [EPrintf "Entering bootloader...\n" []]
          ++ e_cmd), j.
  assert (Hrest : wire (ESleep 1 :: e_ok
                          ++ [EPrintf "Entering bootloader...\n" []]
                          ++ e_cmd)
                  = firstn j (at_request ("F"%byte, "R"%byte) [])).
  { change (ESleep 1 :: e_ok ++ ?l) with ([ESleep 1] ++ e_ok ++ l).
    rewrite !wire_app, Hj, (wire_no_write _ Hok). reflexivity. }
  split; [|split; [reflexivity|split; [exact Hrest|]]].
  - cbn [app]. rewrite <- !app_assoc. reflexivity.
  - change (?a ++ e_ok ++ ?b ++ e_cmd ++ ?c)
      with ([EOpen (nth 1 argv EmptyString) true;
             EOpen "/dev/ttyUSB0" true; ETcgetattr Xb (Some orig);
             EPrintf "Entering AT command mode...\n" []; ESleep 1]
            ++ [EWrite Xb plus3 w] ++ [ESleep 1] ++ e_ok ++ b ++ e_cmd ++ c).
    rewrite !wire_app, Hj, (wire_no_write _ Hok). cbn. 
    now rewrite !app_nil_r.
Qed.

End Entry.

Lemma X13_bootloader_entry_witness :
  let run := enter_bootloader true deaf_line 1 argv0 [] in
  exists pre w rest j,
    fst run = pre ++ EWrite Xb plus3 w :: rest
                ++ break_sequence (mkTermios 115200 0 1 0) /\
    forallb not_write pre = true /\
    wire rest = firstn j (at_request ("F"%byte, "R"%byte) []) /\
    wire (fst run) =
      firstn (Z.to_nat w) plus3 ++
      firstn j (at_request ("F"%byte, "R"%byte) []).
Proof.
  intros run.
  apply (X13_bootloader_entry_unchecked true deaf_line 1 argv0 []
           (fst run) (mkTermios 115200 0 1 0)).
  vm_compute. reflexivity.
Defined.

(** On a line that takes nothing of what is written, the sequence still
    runs to its end. *)
Example enter_bootloader_deaf_line :
  let run := enter_bootloader true deaf_line 1 argv0 [] in
  snd run = Ret (mkTermios 115200 0 1 0) /\ wire (fst run) = [].
Proof. vm_compute. split; reflexivity. Qed.

(** * Further properties: what the diagnostic of a lost block shows *)

Lemma acked_reply (cs : bool) (r : read_result) (reply : option byte) :
  not_acked cs r = false -> reply_after r reply = Some ACK.
Proof.
  destruct r as [|[|b d]]; try discriminate. cbn [not_acked reply_after].
  intros H. apply negb_false_iff in H.
  change 6 with (byte_to_Z ACK) in H.
  rewrite char_val_is in H by (vm_compute; reflexivity).
  apply Byte.byte_dec_bl in H. now subst b.
Qed.

Section Reply.
Variable cs le : bool.
Variable env : Env.
Variable fwbuf : cells.
Variable len : Z.

(** The content of [reply[0]] when the diagnostic of line 243 is
    printed: the byte just read if there is one; otherwise what the
    rounds before have left there. *)
Lemma send_blocks_reply : forall fuel p reply t evs r,
  send_blocks cs le env fuel fwbuf len (block_no p) (index_of p) reply t
    = (evs, r) ->
  forall pre f c rr post,
    evs = pre ++ ERead f c rr :: post ->
    not_acked cs rr = true ->
    post = [nak_warning cs (index_of (p + count_reads pre))
              (reply_after rr
                 (if (count_reads pre =? 0)%nat then reply else Some ACK))].
Proof.
  induction fuel as [|fuel IH];
    intros p reply t evs r H pre f c rr post Heq Hnak.
  - cbn [send_blocks] in H.
    destruct (index_of p <? len / 128); inversion H; subst;
      destruct pre; discriminate.
  - destruct (Z.lt_ge_cases (index_of p) (len / 128)) as [Hi | Hi].
    2: { cbn [send_blocks] in H. apply Z.ltb_ge in Hi. rewrite Hi in H.
         inversion H; subst. destruct pre; discriminate. }
    destruct (send_blocks_S cs le env fwbuf len _ _ _ _ _ _ H Hi)
      as (eb & rb & Hb & Hrest).
    destruct (send_block_cases cs le env fwbuf (block_no p) (index_of p)
                reply t) as (eb' & rb' & Hb' & Hcases).
    rewrite Hb in Hb'. inversion Hb'; subst eb' rb'. clear Hb'.
    destruct Hcases as [(Hnr & Hrb & _) | (E & HwE & HwireE & _ & Hreply)].
    + assert (evs = eb) as ->
        by (destruct Hrb as [-> | ->]; now destruct Hrest).
      now destruct (no_read_no_split _ pre post (ERead f c rr) Hnr eq_refl).
    + assert (HnrE : forallb not_read E = true)
        by exact (forallb_weaken _ _ _ write_not_read HwE).
      cbv zeta in Hreply.
      set (r0 := read_at env (t ++ E) Xb 1) in *.
      assert (Hsplit : exists l2, evs = E ++ ERead Xb 1 r0 :: l2 /\
                (if not_acked cs r0
                 then l2 = [nak_warning cs (index_of p) (reply_after r0 reply)]
                 else exists evs',
                     l2 = progress (index_of p) ++ evs' /\
                     send_blocks cs le env fuel fwbuf len (block_no (S p))
                       (index_of (S p)) (reply_after r0 reply)
                       (t ++ E ++ ERead Xb 1 r0 :: progress (index_of p))
                     = (evs', r))).
      { destruct (not_acked cs r0).
        - destruct Hreply as [-> ->]. destruct Hrest as [-> ->].
          eexists. split; reflexivity.
        - destruct Hreply as [-> ->]. destruct Hrest as (evs' & Hrec & ->).
          eexists. split; [now rewrite <- app_assoc|]. now exists evs'. }
      destruct Hsplit as (l2 & Hevs & Hl2). rewrite Hevs in Heq.
      destruct (skip_no_read _ _ _ _ (ERead f c rr) HnrE eq_refl Heq)
        as (pre' & -> & Hmid).
      rewrite count_reads_app, (count_reads_none _ HnrE). cbn [Nat.add].
      destruct pre' as [|x pre'']; cbn [app] in Hmid.
      * injection Hmid as Hf Hc Hr Hpost. subst f c post. rewrite <- Hr.
        rewrite <- Hr in Hnak. rewrite Hnak in Hl2.
        cbn [count_reads filter length Nat.eqb]. now rewrite Nat.add_0_r.
      * injection Hmid as Hx H2. subst x.
        destruct (not_acked cs r0) eqn:Hack0.
        { rewrite Hl2 in H2. destruct pre'' as [|? [|? ?]]; discriminate. }
        destruct Hl2 as (evs' & Hl2 & Hrec). rewrite Hl2 in H2.
        destruct (skip_no_read _ _ _ _ (ERead f c rr) (no_read_progress _)
                    eq_refl H2)
          as (pre3 & -> & Hevs').
        rewrite (acked_reply _ _ reply Hack0) in Hrec.
        rewrite (IH _ _ _ _ _ Hrec _ _ _ _ _ Hevs' Hnak).
        change (ERead Xb 1 r0 :: progress (index_of p) ++ pre3)
          with ([ERead Xb 1 r0] ++ progress (index_of p) ++ pre3).
        rewrite !count_reads_app, (count_reads_none _ (no_read_progress _)).
        change (count_reads [ERead Xb 1 r0]) with 1%nat. cbn [Nat.add Nat.eqb].
        replace (p + S (count_reads pre3))%nat
          with (S p + count_reads pre3)%nat by lia.
        now destruct (count_reads pre3 =? 0)%nat.
Qed.

(** X14.  When a block is not acknowledged, the value shown by the
    diagnostic of line 243 is the byte just read if the [read] delivered
    one.  When the [read] failed or delivered nothing, it is what
    [reply] held before: for the first block a value that was never
    assigned, for every later block the ACK of the block before. *)
Theorem X14_diagnostic_shows_stale_reply (fuel : nat) (t : trace)
    (pre post : list event) (f : fd) (c : Z) (rr : read_result) :
  fst (send_blocks cs le env fuel fwbuf len 1 0 None t) =
    pre ++ ERead f c rr :: post ->
  not_acked cs rr = true ->
  let i := index_of (count_reads pre) in
  match rr with
  | RData (b :: _) => post = [nak_warning cs i (Some b)]
  | _ =>
      post = [nak_warning cs i
                (if (count_reads pre =? 0)%nat then None else Some ACK)]
  end.
Proof.
  intros Hevs Hnak. cbv zeta.
  destruct (send_blocks cs le env fuel fwbuf len 1 0 None t) as [evs r] eqn:H.
  cbn [fst] in Hevs.
  change (send_blocks cs le env fuel fwbuf len 1 0 None t)
    with (send_blocks cs le env fuel fwbuf len (block_no 0) (index_of 0)
            None t) in H.
  rewrite (send_blocks_reply _ _ _ _ _ _ H _ _ _ _ _ Hevs Hnak).
  cbn [Nat.add]. destruct rr as [|[|b d]]; reflexivity.
Qed.

End Reply.

Lemma X14_diagnostic_witness :
  let run := send_blocks true true device_drop 5 image_300 384 1 0 None []
  in
  [nak_warning true 1 (Some ACK)] =
  [nak_warning true (index_of (count_reads (firstn 9 (fst run))))
     (if (count_reads (firstn 9 (fst run)) =? 0)%nat
      then None else Some ACK)].
Proof.
  intros run.
  apply (X14_diagnostic_shows_stale_reply true true device_drop image_300
           384 5 [] (firstn 9 (fst run)) [nak_warning true 1 (Some ACK)]
           Xb 1 RErr).
  - vm_compute. reflexivity.
  - vm_compute. reflexivity.
Defined.

(** On [device_drop] the second block goes out, the read of its
    reply fails, and the diagnostic shows 06, the ACK of the first
    block. *)
Example stale_reply_run :
  let run := send_blocks true true device_drop 5 image_300 384 1 0 None []
  in
  snd run = Ret (-1) /\
  skipn 9 (fst run) =
    [ERead Xb 1 RErr;
     EWarnx "failed to transfer block %i: %02x" [AInt 1; AInt 6]].
Proof. vm_compute. split; reflexivity. Qed.

(** * Further properties: how a failed update is reported *)

Lemma loud_ret {A} (bad : A -> bool) (a : A) :
  bad a = false -> loud bad (ret a).
Proof. intros H t e b E Hb. inversion E; subst. congruence. Qed.

Lemma loud_diverge {A} (bad : A -> bool) : loud bad diverge.
Proof. intros t e a E. discriminate. Qed.

Lemma loud_undefined {A} (bad : A -> bool) : loud bad undefined.
Proof. intros t e a E. discriminate. Qed.

Lemma loud_warn {A} (bad : A -> bool) fmt args (a : A) :
  loud bad (warn fmt args ;;; ret a).
Proof.
  intros t e b E _. inversion E; subst.
  exists [], (EWarn fmt args). split; [reflexivity | now left].
Qed.

Lemma loud_warnx {A} (bad : A -> bool) fmt args (a : A) :
  loud bad (warnx fmt args ;;; ret a).
Proof.
  intros t e b E _. inversion E; subst.
  exists [], (EWarnx fmt args). split; [reflexivity | now left].
Qed.

(** The value comes from the last step, and so does the complaint. *)
Lemma loud_bind {A B} (bad : B -> bool) (m : M A) (f : A -> M B) :
  (forall a, loud bad (f a)) -> loud bad (bind m f).
Proof.
  intros Hf t e b E Hb. unfold bind in E.
  destruct (m t) as [e1 [a|s| |]]; try discriminate.
  destruct (f a (t ++ e1)) as [e2 r] eqn:Ef. inversion E; subst.
  destruct (Hf a _ _ _ Ef Hb) as (pre & d & -> & Hd).
  exists (e1 ++ pre), d. split; [now rewrite app_assoc | exact Hd].
Qed.

(** A failure of the first step is handed on as it is. *)
Lemma loud_pass {A B} (bad1 : A -> bool) (bad : B -> bool) (m : M A)
    (f : A -> M B) :
  loud bad1 m ->
  (forall a, bad1 a = true -> exists b, f a = ret b) ->
  (forall a, bad1 a = false -> loud bad (f a)) ->
  loud bad (bind m f).
Proof.
  intros Hm Hpass Hf t e b E Hb. unfold bind in E.
  destruct (m t) as [e1 [a|s| |]] eqn:Em; try discriminate.
  destruct (bad1 a) eqn:Ha.
  - destruct (Hpass a Ha) as (b' & Hret). rewrite Hret in E.
    cbn [ret] in E. inversion E; subst. rewrite app_nil_r.
    exact (Hm _ _ _ Em Ha).
  - destruct (f a (t ++ e1)) as [e2 r] eqn:Ef. inversion E; subst.
    destruct (Hf a Ha _ _ _ Ef Hb) as (pre & d & -> & Hd).
    exists (e1 ++ pre), d. split; [now rewrite app_assoc | exact Hd].
Qed.

Lemma returns_pass {A B} (Q1 : A -> Prop) (Q : B -> Prop) (m : M A)
    (f : A -> M B) :
  returns Q1 m -> (forall a, Q1 a -> returns Q (f a)) ->
  returns Q (bind m f).
Proof.
  intros Hm Hf t e b H. unfold bind in H.
  destruct (m t) as [e1 [a|s| |]] eqn:Em; try discriminate.
  destruct (f a (t ++ e1)) as [e2 r] eqn:E. inversion H; subst.
  exact (Hf a (Hm _ _ _ Em) _ _ _ E).
Qed.

Lemma returns_nothing {A} (Q : A -> Prop) (m : M A) :
  (forall t a, snd (m t) <> Ret a) -> returns Q m.
Proof. intros H t e a E. destruct (H t a). now rewrite E. Qed.

Section Loud.
Variable cs le : bool.
Variable env : Env.

Lemma loud_request_transfer : loud failed (request_transfer cs env).
Proof.
  unfold request_transfer. apply loud_bind. intros w.
  destruct (negb (w =? 0)); [apply loud_warnx|].
  apply loud_bind. intros [n buf].
  destruct (n <=? 0); [apply loud_warnx|].
  destruct (negb _); [apply loud_warnx | now apply loud_ret].
Qed.

Lemma returns_request_transfer :
  returns (fun g => g = 0 \/ g = -1) (request_transfer cs env).
Proof.
  unfold request_transfer. apply returns_bind. intros w.
  destruct (negb (w =? 0)).
  { apply returns_bind. intros _. apply returns_ret. now right. }
  apply returns_bind. intros [n buf].
  destruct (n <=? 0).
  { apply returns_bind. intros _. apply returns_ret. now right. }
  destruct (negb _).
  { apply returns_bind. intros _. apply returns_ret. now right. }
  apply returns_ret. now left.
Qed.

(** The read loop gives up without a word. *)
Lemma loud_read_firmware n : forall fwbuf len off,
  loud is_none (read_firmware env n fwbuf len off).
Proof.
  induction n as [|n IH]; intros fwbuf len off; cbn [read_firmware];
    [apply loud_diverge|].
  apply (loud_pass (fun r => match r with RErr => true | _ => false end)).
  - intros t e r E Hr. cbn [sys_read] in E. inversion E; subst.
    destruct (read_at env t Fw (len - off)) eqn:Er; [|discriminate].
    exists [], (ERead Fw (len - off) RErr). split; [reflexivity|].
    right. now eexists.
  - intros [|d] H; [now eexists | discriminate].
  - intros [|d] H; [discriminate|].
    destruct (store_bytes fwbuf off d); [|apply loud_undefined].
    destruct (_ =? 0); [now apply loud_ret | apply IH].
Qed.

Lemma loud_load_firmware : loud is_inl (load_firmware env).
Proof.
  unfold load_firmware. apply loud_bind. intros [st_size|];
    [|apply loud_warn].
  destruct (st_size =? 0); [apply loud_warnx|].
  apply loud_bind. intros ok. destruct (negb ok); [apply loud_warn|].
  destruct (memset _ _ _ _); [|apply loud_undefined].
  apply (loud_pass is_none); [apply loud_read_firmware| |].
  - intros [fwbuf|] H; [discriminate | now eexists].
  - intros [fwbuf|] H; [|discriminate].
    apply loud_bind. intros _. now apply loud_ret.
Qed.

Lemma returns_load_firmware :
  returns (fun r => match r with
                    | inl e => e = -1
                    | inr _ => True
                    end) (load_firmware env).
Proof.
  unfold load_firmware. apply returns_bind. intros [st_size|].
  2: { apply returns_bind. intros _. now apply returns_ret. }
  destruct (st_size =? 0).
  { apply returns_bind. intros _. now apply returns_ret. }
  apply returns_bind. intros ok. destruct (negb ok).
  { apply returns_bind. intros _. now apply returns_ret. }
  destruct (memset _ _ _ _); [|intros ? ? ? ?; discriminate].
  apply returns_bind. intros [fwbuf|]; [|now apply returns_ret].
  apply returns_bind. intros _. now apply returns_ret.
Qed.

Lemma loud_send_block fwbuf block i reply :
  loud is_inl (send_block cs le env fwbuf block i reply).
Proof.
  unfold send_block. apply loud_bind. intros w1.
  destruct (negb (w1 =? 0)); [apply loud_warn|].
  destruct (load_bytes _ _ _); [|apply loud_undefined].
  apply loud_bind. intros w2.
  destruct (negb (w2 =? 0)); [apply loud_warn|].
  apply loud_bind. intros w3.
  destruct (negb (w3 =? 0)); [apply loud_warn|].
  apply loud_bind. intros r.
  destruct (not_acked cs r); [apply loud_warnx|].
  do 3 (apply loud_bind; intros). now apply loud_ret.
Qed.

Lemma returns_send_block fwbuf block i reply :
  returns (fun r => match r with
                    | inl e => e = -1
                    | inr _ => True
                    end) (send_block cs le env fwbuf block i reply).
Proof.
  unfold send_block. apply returns_bind. intros w1.
  destruct (negb (w1 =? 0)).
  { apply returns_bind. intros _. now apply returns_ret. }
  destruct (load_bytes _ _ _); [|intros ? ? ? ?; discriminate].
  apply returns_bind. intros w2.
  destruct (negb (w2 =? 0)).
  { apply returns_bind. intros _. now apply returns_ret. }
  apply returns_bind. intros w3.
  destruct (negb (w3 =? 0)).
  { apply returns_bind. intros _. now apply returns_ret. }
  apply returns_bind. intros r.
  destruct (not_acked cs r).
  { apply returns_bind. intros _. now apply returns_ret. }
  do 3 (apply returns_bind; intros). now apply returns_ret.
Qed.

Lemma loud_send_blocks fuel fwbuf len : forall block i reply,
  loud failed (send_blocks cs le env fuel fwbuf len block i reply).
Proof.
  induction fuel as [|fuel IH]; intros block i reply; cbn [send_blocks];
    (destruct (i <? len / 128); [|now apply loud_ret]);
    [apply loud_diverge|].
  apply (loud_pass is_inl); [apply loud_send_block| |].
  - intros [code|reply'] H; [now eexists | discriminate].
  - intros [code|reply'] H; [discriminate | apply IH].
Qed.

Lemma returns_send_blocks fuel fwbuf len : forall block i reply,
  returns (fun s => s = 0 \/ s = -1)
    (send_blocks cs le env fuel fwbuf len block i reply).
Proof.
  induction fuel as [|fuel IH]; intros block i reply; cbn [send_blocks];
    (destruct (i <? len / 128); [|apply returns_ret; now left]).
  { intros ? ? ? ?; discriminate. }
  eapply returns_pass; [apply returns_send_block|].
  intros [code|reply'] H; [apply returns_ret; now right | apply IH].
Qed.

Lemma loud_end_of_transmission : loud failed (end_of_transmission cs env).
Proof.
  unfold end_of_transmission. apply loud_bind. intros _.
  apply loud_bind. intros w.
  destruct (negb (w =? 0)); [apply loud_warn|].
  apply loud_bind. intros [n buf].
  destruct (_ || _); [apply loud_warnx | now apply loud_ret].
Qed.

Lemma returns_end_of_transmission :
  returns (fun s => s = 0 \/ s = -1) (end_of_transmission cs env).
Proof.
  unfold end_of_transmission. apply returns_bind. intros _.
  apply returns_bind. intros w. destruct (negb (w =? 0)).
  { apply returns_bind. intros _. apply returns_ret. now right. }
  apply returns_bind. intros [n buf]. destruct (_ || _).
  { apply returns_bind. intros _. apply returns_ret. now right. }
  apply returns_ret. now left.
Qed.

(** X15.  [xb_firmware_update] returns 0 or -1.  Whenever it returns
    -1, the last thing it did was to print a warning, with one
    exception: when a [read] of the firmware file fails it returns at
    once and says nothing, so that the failed [read] is its last
    event. *)
Theorem X15_update_failure_reported (fuel : nat) (t : trace)
    (evs : list event) (u : Z) :
  xb_firmware_update cs le env fuel t = (evs, Ret u) ->
  (u = 0 \/ u = -1) /\
  (u <> 0 ->
   exists pre d,
     evs = pre ++ [d] /\
     (is_warning d = true \/ exists c, d = ERead Fw c RErr)).
Proof.
  intros H. split.
  - assert (Hret : returns (fun u => u = 0 \/ u = -1)
                     (xb_firmware_update cs le env fuel)).
    { unfold xb_firmware_update.
      eapply returns_pass; [apply returns_request_transfer|].
      intros g Hg. destruct (negb (g =? 0)); [now apply returns_ret|].
      eapply returns_pass; [apply returns_load_firmware|].
      intros [e|[fwbuf len]] He; [apply returns_ret; now right|].
      eapply returns_pass; [apply returns_send_blocks|].
      intros s Hs. destruct (negb (s =? 0)); [now apply returns_ret|].
      apply returns_end_of_transmission. }
    exact (Hret _ _ _ H).
  - intros Hu.
    assert (Hloud : loud failed (xb_firmware_update cs le env fuel)).
    { unfold xb_firmware_update.
      apply (loud_pass failed); [apply loud_request_transfer| |].
      { intros g Hg. unfold failed in Hg. rewrite Hg. now eexists. }
      intros g Hg. unfold failed in Hg. rewrite Hg.
      apply (loud_pass is_inl); [apply loud_load_firmware| |].
      { intros [e|[fwbuf len]] Hfw; [now eexists | discriminate]. }
      intros [e|[fwbuf len]] Hfw; [discriminate|].
      apply (loud_pass failed); [apply loud_send_blocks| |].
      { intros s Hs. unfold failed in Hs. rewrite Hs. now eexists. }
      intros s Hs. unfold failed in Hs. rewrite Hs.
      apply loud_end_of_transmission. }
    apply (Hloud _ _ _ H). unfold failed.
    now apply negb_true_iff, Z.eqb_neq.
Qed.

End Loud.

Lemma X15_update_failure_witness :
  let run := xb_firmware_update true true device_unreadable 9 [] in
  (-1 = 0 \/ -1 = -1) /\
  (-1 <> 0 ->
   exists pre d,
     fst run = pre ++ [d] /\
     (is_warning d = true \/ exists c, d = ERead Fw c RErr)).
Proof.
  intros run.
  apply (X15_update_failure_reported true true device_unreadable 9 []
           (fst run) (-1)).
  vm_compute. reflexivity.
Defined.

(** On [device_unreadable] the update ends with the failed [read], and
    no warning is printed. *)
Example silent_failure_run :
  let run := xb_firmware_update true true device_unreadable 9 [] in
  snd run = Ret (-1) /\
  last (fst run) EFflush = ERead Fw 384 RErr /\
  forallb (fun e => negb (is_warning e)) (fst run) = true.
Proof. vm_compute. repeat split; reflexivity. Qed.

(** * Further properties: a whole session on the line *)


Section Session.
Variable cs le : bool.
Variable env : Env.



End Session.


(** * Further properties: a file shorter than announced *)

Lemma store_bytes_untouched (buf buf' : cells) (off : Z) (d : list byte)
    (q : nat) (x : option byte) :
  store_bytes buf off d = Some buf' ->
  (Z.to_nat off + length d <= q)%nat ->
  nth q buf' x = nth q buf x.
Proof.
  unfold store_bytes.
  destruct ((0 <=? off) && _) eqn:E; [|discriminate].
  apply andb_prop in E as [E0 E1]. apply Z.leb_le in E0, E1.
  intros H Hq. injection H as <-.
  assert (Hlen : length (firstn (Z.to_nat off) buf) = Z.to_nat off)
    by (rewrite length_firstn; lia).
  rewrite app_nth2 by lia. rewrite app_nth2 by (rewrite length_map; lia).
  rewrite nth_skipn, Hlen, length_map. f_equal. lia.
Qed.

Lemma all_assigned_unassigned (l : cells) : forall q,
  (q < length l)%nat -> nth q l (Some x00) = None -> all_assigned l = None.
Proof.
  induction l as [|c l IH]; intros q Hq Hn; [cbn in Hq; lia|].
  destruct c as [b|]; [|reflexivity]. cbn [all_assigned].
  destruct q as [|q]; [discriminate|]. cbn [nth length] in *.
  now rewrite (IH q) by (lia || assumption).
Qed.

Section Short.
Variable env : Env.

(** The read loop writes no cell at or after the position it has
    reached. *)
Lemma read_firmware_untouched (len : Z) (n : nat) :
  forall fwbuf off t evs fwbuf' q x,
    0 <= off ->
    read_firmware env n fwbuf len off t = (evs, Ret (Some fwbuf')) ->
    (Z.to_nat off + fw_pos evs <= q)%nat ->
    nth q fwbuf' x = nth q fwbuf x.
Proof.
  induction n as [|n IH]; intros fwbuf off t evs fwbuf' q x Hoff H Hq;
    [discriminate|].
  cbn [read_firmware] in H. unfold bind at 1 in H. cbn [sys_read] in H.
  destruct (read_at env t Fw (len - off)) as [|d] eqn:Er;
    [cbn in H; discriminate|].
  destruct (store_bytes fwbuf off d) as [fwbuf1|] eqn:Es;
    [|cbn in H; discriminate].
  destruct (Z.of_nat (length d) =? 0) eqn:E.
  - cbn [ret] in H. injection H as <- <-. cbn [app fw_pos] in Hq.
    apply (store_bytes_untouched _ _ _ _ _ _ Es). lia.
  - destruct (read_firmware env n fwbuf1 len (off + Z.of_nat (length d))
                (t ++ [ERead Fw (len - off) (RData d)]))
      as [evs' r'] eqn:Hrec.
    injection H as <- ->. cbn [app fw_pos] in Hq.
    rewrite (IH fwbuf1 (off + Z.of_nat (length d)) _ _ _ q x
               ltac:(lia) Hrec ltac:(lia)).
    apply (store_bytes_untouched _ _ _ _ _ _ Es). lia.
Qed.

(** X17.  [load_firmware] does not compare what it has read with the
    size [fstat] reported.  When the file ends early, it still returns
    the image and announces the full size, and the cell at which the
    file ended, like every file cell after it, was never written: the
    image is not completely assigned. *)
Theorem X17_short_file_unnoticed (t : trace) (s : Z) (evs : list event)
    (fwbuf : cells) (len : Z) :
  env_fstat env t Fw = Some s -> 0 < s < 2 ^ 63 ->
  load_firmware env t = (evs, Ret (inr (fwbuf, len))) ->
  Z.of_nat (fw_pos evs) < s ->
  nth (fw_pos evs) fwbuf (Some x00) = None /\
  all_assigned fwbuf = None /\
  last evs EFflush =
    EPrintf "Read %i byte firmware file (%i blocks).\n"
      [AInt (s32 s); AInt (Z.quot (s32 len) 128)].
Proof.
  intros Hs Hsize H Hshort. unfold load_firmware in H.
  unfold bind at 1 in H. cbn [sys_fstat] in H. rewrite Hs in H.
  replace (s =? 0) with false in H by (symmetry; apply Z.eqb_neq; lia).
  destruct (padded_len_spec s Hsize) as (_ & Hlen & _).
  set (L := padded_len s) in *.
  unfold bind at 1 in H. cbn [sys_malloc] in H.
  destruct (env_malloc env _ L); cbn [negb] in H; [|cbn in H; discriminate].
  assert (Hpad : u64 (L - s) = L - s).
  { unfold u64. apply Z.mod_small.
    change (2 ^ 63) with 9223372036854775808 in Hsize.
    change (2 ^ 64) with 18446744073709551616. lia. }
  unfold memset in H. rewrite Hpad in H.
  replace (0 <=? L - s) with true in H by (symmetry; apply Z.leb_le; lia).
  destruct (store_bytes (repeat None (Z.to_nat L)) s
              (repeat xff (Z.to_nat (L - s)))) as [fwbuf0|] eqn:Hset;
    [|cbn in H; discriminate].
  unfold bind at 1 in H.
  destruct (read_firmware env (S (Z.to_nat L)) fwbuf0 L 0 _)
    as [er [[fwbuf1|]|x| |]] eqn:Hread; try discriminate.
  unfold bind, printf, emit, ret in H. injection H as Hevs Hbuf HL.
  subst fwbuf1 len.
  assert (Hpos : fw_pos evs = fw_pos er).
  { rewrite <- Hevs. cbn [fw_pos]. rewrite fw_pos_app. cbn [fw_pos]. lia. }
  rewrite Hpos in *.
  assert (Hcell : nth (fw_pos er) fwbuf (Some x00) = None).
  { rewrite (read_firmware_untouched L (S (Z.to_nat L)) fwbuf0 0 _ _ _
               (fw_pos er) (Some x00) ltac:(lia) Hread ltac:(cbn; lia)).
    unfold store_bytes in Hset.
    destruct ((0 <=? s) && _); [|discriminate]. injection Hset as <-.
    rewrite app_nth1
      by (rewrite length_firstn, repeat_length; lia).
    rewrite nth_firstn.
    replace (fw_pos er <? Z.to_nat s)%nat with true
      by (symmetry; apply Nat.ltb_lt; lia).
    apply nth_repeat_lt. lia. }
  split; [exact Hcell|]. split.
  - apply (all_assigned_unassigned _ (fw_pos er)); [|exact Hcell].
    destruct (store_bytes_fits (repeat None (Z.to_nat L)) s
                (repeat xff (Z.to_nat (L - s))))
      as (b & Hb & Hl); [lia | rewrite !repeat_length; lia |].
    rewrite Hset in Hb. injection Hb as <-. rewrite repeat_length in Hl.
    destruct (read_firmware_in_bounds env L (S (Z.to_nat L)) fwbuf0 0
                ((t ++ [EFstat Fw (Some s)]) ++ [EMalloc L true])
                ltac:(lia) ltac:(lia) ltac:(lia))
      as (evs' & r' & Hrun & _ & Hr).
    rewrite Hread in Hrun. injection Hrun as <- <-. lia.
  - rewrite <- Hevs.
    change (EFstat Fw (Some s) :: EMalloc L true :: er ++ ?l)
      with (([EFstat Fw (Some s); EMalloc L true] ++ er) ++ l).
    apply last_last.
Qed.

End Short.

Lemma X17_short_file_witness :
  let run := load_firmware device_short [] in
  nth (fw_pos (fst run)) (map Some (fw_ff 100) ++ repeat None 200
                            ++ map Some (fw_ff 84)) (Some x00) = None /\
  all_assigned (map Some (fw_ff 100) ++ repeat None 200
                  ++ map Some (fw_ff 84)) = None /\
  last (fst run) EFflush =
    EPrintf "Read %i byte firmware file (%i blocks).\n"
      [AInt (s32 300); AInt (Z.quot (s32 384) 128)].
Proof.
  intros run.
  apply (X17_short_file_unnoticed device_short [] 300 (fst run)
           (map Some (fw_ff 100) ++ repeat None 200 ++ map Some (fw_ff 84))
           384).
  - reflexivity.
  - vm_compute. split; reflexivity.
  - vm_compute. reflexivity.
  - vm_compute. reflexivity.
Defined.

(** On [device_short] the update goes on: the first block already reaches
    into cells that were never written. *)
Example short_file_run :
  snd (xb_firmware_update true true device_short 9 []) = Undefined.
Proof. vm_compute. reflexivity. Qed.
